(** * extract_weather.py: a shallow embedding and its properties

    The script resolves a set of named locations, calls the OpenWeather
    "current weather" endpoint for each of them with a bounded retry, shapes
    the response into a small record and writes it to S3 (or, in a dry run,
    logs the size of what it would write).

    Python values are modelled as follows.
    - [str] is a list of Unicode code points ([pystr]).
    - Values decoded from JSON are the inductive [json]; a [dict] keeps its
      insertion order, so it is an association list.
    - Exceptions are the inductive [exn]; a computation returns a [result].
    - Code that logs, sleeps, reads the clock, reads a file, builds the S3
      client or talks to the network runs in the monad [M]: it threads the
      trace of the events performed so far and may raise.  The outside
      world is a record of functions of that trace ([world]).
    - [float] and the Unicode case tables are interfaces ([PyFloat],
      [UnicodeData]). *)

From Stdlib Require Import List NArith ZArith Bool Lia Arith.
From Stdlib Require Import Ascii String DecimalString.
Import ListNotations.

#[local] Open Scope list_scope.
#[local] Set Implicit Arguments.
#[local] Set Warnings "-register-all".

(* ===================================================================== *)
(** * Strings *)
(* ===================================================================== *)

(** A Python [str]: a sequence of code points.  The characters the script
    names are written by their code points: 32 is the space, 44 the comma,
    47 the slash, 61 the equals sign and 95 the underscore. *)
Definition pystr := list N.

(** An ASCII literal as a [pystr]. *)
Definition str (s : string) : pystr :=
  List.map N_of_ascii (list_ascii_of_string s).
Arguments str s%_string.

Definition pystr_eqb (a b : pystr) : bool :=
  if list_eq_dec N.eq_dec a b then true else false.

(** [c in s] for a one-character [c]. *)
Definition contains (c : N) (s : pystr) : bool := existsb (N.eqb c) s.

(** [s.split(sep)] for a one-character separator: always at least one
    piece. *)
Fixpoint split (sep : N) (s : pystr) : list pystr :=
  match s with
  | [] => [[]]
  | c :: s' =>
      if N.eqb c sep then [] :: split sep s'
      else match split sep s' with
           | t :: ts => (c :: t) :: ts
           | [] => [[c]]
           end
  end.

(** [s.split(sep, 1)]: cut at the first separator only, so one piece or
    two. *)
Fixpoint split1 (sep : N) (s : pystr) : list pystr :=
  match s with
  | [] => [[]]
  | c :: s' =>
      if N.eqb c sep then [[]; s']
      else match split1 sep s' with
           | t :: ts => (c :: t) :: ts
           | [] => [[c]]
           end
  end.

(** [s.replace(old, new)] for one-character [old] and [new]. *)
Definition replace (old new : N) (s : pystr) : pystr :=
  List.map (fun c => if N.eqb c old then new else c) s.

(** The characters [str.strip()] removes ([str.isspace]). *)
Definition isspace (c : N) : bool :=
  ((9 <=? c) && (c <=? 13) || (28 <=? c) && (c <=? 32)
   || (c =? 133) || (c =? 160) || (c =? 5760)
   || (8192 <=? c) && (c <=? 8202)
   || (c =? 8232) || (c =? 8233) || (c =? 8239) || (c =? 8287)
   || (c =? 12288))%N.

Fixpoint lstrip (s : pystr) : pystr :=
  match s with
  | c :: s' => if isspace c then lstrip s' else s
  | [] => []
  end.

Definition strip (s : pystr) : pystr := rev (lstrip (rev (lstrip s))).

Definition is_ascii (c : N) : bool := (c <? 128)%N.

(** ASCII lower-casing of one code point. *)
Definition ascii_lower (c : N) : N :=
  if ((65 <=? c) && (c <=? 90))%N then (c + 32)%N else c.

(** What [str.lower()] takes from the Unicode database for a string that is
    not pure ASCII: the full lower-case mapping of a code point other than
    capital sigma, and the choice between the two small sigmas, which
    depends on the position in the string. *)
Class UnicodeData := {
  to_lower_full : N -> pystr;
  handle_capital_sigma : pystr -> nat -> N
}.

Section Lower.
Context `{UnicodeData}.

(** One code point of a non-ASCII string: the database agrees with
    [ascii_lower] on ASCII. *)
Definition lower_ucs4 (whole : pystr) (i : nat) (c : N) : pystr :=
  if (c =? 931)%N then [handle_capital_sigma whole i]
  else if is_ascii c then [ascii_lower c]
  else to_lower_full c.

Fixpoint do_lower (whole : pystr) (i : nat) (s : pystr) : pystr :=
  match s with
  | [] => []
  | c :: s' => lower_ucs4 whole i c ++ do_lower whole (S i) s'
  end.

(** [s.lower()]: pure ASCII strings take the byte-wise path. *)
Definition lower (s : pystr) : pystr :=
  if forallb is_ascii s then List.map ascii_lower s else do_lower s 0 s.
End Lower.

(** Decimal digits of an integer, as [str(n)] and [json.dumps] write it. *)
Definition str_of_Z (z : Z) : pystr := str (NilZero.string_of_int (Z.to_int z)).
Definition str_of_nat (n : nat) : pystr := str_of_Z (Z.of_nat n).

(** A [%0wd] field: zero-padded on the left to width [w]. *)
Definition zero_pad (w : nat) (n : nat) : pystr :=
  let d := str_of_nat n in
  repeat 48%N (w - List.length d) ++ d.

(** [s.encode("utf-8")], one code point: lone surrogates and values above
    U+10FFFF have no encoding. *)
Definition utf8_char (c : N) : option (list N) :=
  (if c <? 128 then Some [c]
   else if c <? 2048 then Some [192 + c / 64; 128 + c mod 64]
   else if (55296 <=? c) && (c <=? 57343) then None
   else if c <? 65536 then
     Some [224 + c / 4096; 128 + (c / 64) mod 64; 128 + c mod 64]
   else if c <? 1114112 then
     Some [240 + c / 262144; 128 + (c / 4096) mod 64;
           128 + (c / 64) mod 64; 128 + c mod 64]
   else None)%N.

Fixpoint utf8 (s : pystr) : option (list N) :=
  match s with
  | [] => Some []
  | c :: s' =>
      match utf8_char c, utf8 s' with
      | Some b, Some bs => Some (b ++ bs)
      | _, _ => None
      end
  end.

(* ===================================================================== *)
(** * Exceptions and results *)
(* ===================================================================== *)

(** What a subscription [v[k]] is indexed with. *)
Inductive subscript :=
| Key (k : pystr)
| Index (i : nat).

(** The exceptions the script meets.  [RequestException] stands for
    [requests.RequestException] and its subclasses, [ClientError] for what
    the S3 client raises and [BotoCoreError] for what building the client
    raises ([ProfileNotFound], [NoRegionError]); they carry a tag that
    tells two of them apart.  [SystemExit] is what [sys.exit] raises. *)
Inductive exn :=
| ValueError
| TypeError
| KeyError (k : subscript)
| IndexError
| AttributeError
| OverflowError
| UnicodeEncodeError
| OSError
| JSONDecodeError
| RequestException (tag : nat)
| ClientError (tag : nat)
| BotoCoreError (tag : nat)
| SystemExit (code : nat).

(** [isinstance(e, Exception)]: [SystemExit] derives from [BaseException]
    only. *)
Definition is_Exception (e : exn) : bool :=
  match e with
  | SystemExit _ => false
  | _ => true
  end.

(** [isinstance(e, requests.RequestException)]. *)
Definition is_RequestException (e : exn) : bool :=
  match e with
  | RequestException _ => true
  | _ => false
  end.

(** [isinstance(e, LookupError)]. *)
Definition is_LookupError (e : exn) : bool :=
  match e with
  | KeyError _ | IndexError => true
  | _ => false
  end.

Inductive result (A : Type) :=
| Ok (a : A)
| Raise (e : exn).
Arguments Ok {A} a.
Arguments Raise {A} e.

Definition rbind {A B} (r : result A) (k : A -> result B) : result B :=
  match r with
  | Ok a => k a
  | Raise e => Raise e
  end.

Declare Scope result_scope.
Delimit Scope result_scope with result.
Notation "'let?' x ':=' r 'in' k" := (rbind r (fun x => k))
  (at level 10, x name, r at level 100, k at level 200) : result_scope.

(** Unpacking [a, b = l]. *)
Definition unpack2 {A} (l : list A) : result (A * A) :=
  match l with
  | [a; b] => Ok (a, b)
  | _ => Raise ValueError
  end.

(* ===================================================================== *)
(** * Floats, JSON values and dicts *)
(* ===================================================================== *)

(** Python's [float]: the type, [float(s)] for a [str] ([None] is
    [ValueError]), [float(n)] for an [int] ([None] is [OverflowError]) and
    the text [json.dumps] writes for a float. *)
Class PyFloat := {
  float : Type;
  float_of_str : pystr -> option float;
  float_of_int : Z -> option float;
  float_repr : float -> pystr
}.

(** A [dict] with [str] keys, in insertion order. *)
Definition dict (K V : Type) := list (K * V).

Section Dict.
Context {K V : Type} (eqb : K -> K -> bool).

Fixpoint dict_get (d : dict K V) (k : K) : option V :=
  match d with
  | [] => None
  | (k', v) :: d' => if eqb k k' then Some v else dict_get d' k
  end.

(** [d[k] = v]: an existing key keeps its place. *)
Fixpoint dict_set (d : dict K V) (k : K) (v : V) : dict K V :=
  match d with
  | [] => [(k, v)]
  | (k', v') :: d' =>
      if eqb k k' then (k', v) :: d' else (k', v') :: dict_set d' k v
  end.
End Dict.

Section Json.
Context `{PyFloat}.

(** A value as [json.load] or [resp.json()] returns it, and as
    [json.dumps] takes it. *)
Inductive json :=
| JNull
| JBool (b : bool)
| JInt (z : Z)
| JFloat (f : float)
| JStr (s : pystr)
| JList (l : list json)
| JDict (d : list (pystr * json)).

(** [v[k]]. *)
Definition getitem (v : json) (k : subscript) : result json :=
  match v, k with
  | JDict d, Key s =>
      match dict_get pystr_eqb d s with
      | Some x => Ok x
      | None => Raise (KeyError k)
      end
  | JDict _, Index _ => Raise (KeyError k)
  | JList l, Index i =>
      match nth_error l i with
      | Some x => Ok x
      | None => Raise IndexError
      end
  | JStr s, Index i =>
      match nth_error s i with
      | Some c => Ok (JStr [c])
      | None => Raise IndexError
      end
  | _, _ => Raise TypeError
  end.

(** [float(v)]. *)
Definition py_float (v : json) : result float :=
  match v with
  | JFloat f => Ok f
  | JInt z =>
      match float_of_int z with Some f => Ok f | None => Raise OverflowError end
  | JBool b =>
      match float_of_int (if b then 1 else 0) with
      | Some f => Ok f
      | None => Raise OverflowError
      end
  | JStr s =>
      match float_of_str s with Some f => Ok f | None => Raise ValueError end
  | _ => Raise TypeError
  end.

(** ** [json.dumps] *)

Definition hex_digit (n : N) : N :=
  (if n <? 10 then 48 + n else 87 + n)%N.

(** [\uXXXX]. *)
Definition u_escape (c : N) : pystr :=
  [92; 117; hex_digit (c / 4096 mod 16); hex_digit (c / 256 mod 16);
   hex_digit (c / 16 mod 16); hex_digit (c mod 16)]%N.

(** The two-character escapes both encoders share. *)
Definition short_escape (c : N) : option pystr :=
  (if c =? 34 then Some [92; 34]
   else if c =? 92 then Some [92; 92]
   else if c =? 10 then Some [92; 110]
   else if c =? 13 then Some [92; 114]
   else if c =? 9 then Some [92; 116]
   else if c =? 8 then Some [92; 98]
   else if c =? 12 then Some [92; 102]
   else None)%N.

(** One character of a string, with [ensure_ascii] or without. *)
Definition encode_char (ensure_ascii : bool) (c : N) : pystr :=
  match short_escape c with
  | Some e => e
  | None =>
      if ensure_ascii then
        if ((32 <=? c) && (c <=? 126))%N then [c]
        else if (c <? 65536)%N then u_escape c
        else
          let v := (c - 65536)%N in
          u_escape (55296 + v / 1024 mod 1024)
          ++ u_escape (56320 + v mod 1024)
      else
        if (c <? 32)%N then u_escape c else [c]
  end.

Definition encode_basestring (ensure_ascii : bool) (s : pystr) : pystr :=
  [34%N] ++ flat_map (encode_char ensure_ascii) s ++ [34%N].

(** [", ".join(parts)]. *)
Fixpoint join_comma (parts : list pystr) : pystr :=
  match parts with
  | [] => []
  | [p] => p
  | p :: ps => p ++ str ", " ++ join_comma ps
  end.

Fixpoint json_dumps (ensure_ascii : bool) (v : json) : pystr :=
  match v with
  | JNull => str "null"
  | JBool true => str "true"
  | JBool false => str "false"
  | JInt z => str_of_Z z
  | JFloat f => float_repr f
  | JStr s => encode_basestring ensure_ascii s
  | JList l =>
      str "[" ++ join_comma (List.map (json_dumps ensure_ascii) l) ++ str "]"
  | JDict d =>
      str "{"
      ++ join_comma
           (List.map
              (fun kv =>
                 encode_basestring ensure_ascii (fst kv) ++ str ": "
                 ++ json_dumps ensure_ascii (snd kv))
              d)
      ++ str "}"
  end.
End Json.

(* ===================================================================== *)
(** * The outside world and the monad of the script *)
(* ===================================================================== *)

(** What [datetime.utcnow()] returns. *)
Record datetime := {
  year : nat; month : nat; day : nat;
  hour : nat; minute : nat; second : nat;
  microsecond : nat
}.

(** [dt.strftime("%Y-%m-%d_%H-%M-%S")]: the C library writes [%Y] without
    padding and the other fields on two digits. *)
Definition strftime (dt : datetime) : pystr :=
  str_of_nat (year dt) ++ str "-" ++ zero_pad 2 (month dt) ++ str "-"
  ++ zero_pad 2 (day dt) ++ str "_" ++ zero_pad 2 (hour dt) ++ str "-"
  ++ zero_pad 2 (minute dt) ++ str "-" ++ zero_pad 2 (second dt).

Inductive level := INFO | WARNING | ERROR.

Section World.
Context `{PyFloat}.

(** A location name: the key of the mapping [main] iterates over.  It is
    [None] when [args.location] is. *)
Definition name_t := option pystr.

(** The log records of the script, by the statement that writes them. *)
Inductive message :=
| SkippingInvalidToken (pair : pystr)
| RequestFailed (attempt max_retries : nat) (exc : exn)
| MaxRetriesReached (lat lon : float)
| Uploaded (bucket key : pystr)
| ApiKeyNotSet
| LocationRequiresLatLon
| FoundLocations (n : nat) (names : list name_t)
| Fetching (name : name_t) (lat lon : float)
| FailedToFetch (name : name_t) (e : exn)
| DryRunWouldUpload (name : name_t) (size : nat)
| FailedToUpload (name : name_t)
| JobComplete.

(** What the script does to the outside world, in order. *)
Inductive event :=
| Log (lv : level) (m : message)
| HttpGet (lat lon : float) (appid : pystr)
| Sleep (seconds : nat)
| UtcNow
| ReadJson (path : pystr)
| Boto3Client
| PutObject (bucket key : pystr) (body : list N).

Definition trace := list event.

Definition is_request (e : event) : bool :=
  match e with
  | HttpGet _ _ _ => true
  | _ => false
  end.

(** The number of requests sent in a trace. *)
Definition requests (tr : trace) : nat :=
  List.length (filter is_request tr).

(** Events that touch the object store or build a key for it. *)
Definition is_write (e : event) : bool :=
  match e with
  | PutObject _ _ _ | UtcNow => true
  | _ => false
  end.

(** The outside world answers as a function of what happened so far.
    [http_get] is [requests.get], [raise_for_status] and [resp.json()]
    together; [read_json] is [open] and [json.load]; [boto3_client] is
    [boto3.client("s3")], which reads the AWS configuration of the machine
    and raises when it is unusable, and [put_object] is the method of the
    client it returns. *)
Record world := {
  http_get : trace -> float -> float -> pystr -> result json;
  put_object : trace -> pystr -> pystr -> list N -> result unit;
  utcnow : trace -> datetime;
  read_json : trace -> pystr -> result json;
  boto3_client : trace -> result unit
}.

(** A computation: from the trace so far to a result and the trace
    after. *)
Definition M (A : Type) := trace -> result A * trace.

Definition ret {A} (a : A) : M A := fun tr => (Ok a, tr).

Definition raise {A} (e : exn) : M A := fun tr => (Raise e, tr).

Definition bind {A B} (c : M A) (k : A -> M B) : M B :=
  fun tr =>
    match c tr with
    | (Ok a, tr') => k a tr'
    | (Raise e, tr') => (Raise e, tr')
    end.

Definition lift {A} (r : result A) : M A := fun tr => (r, tr).

Definition emit (e : event) : M unit := fun tr => (Ok tt, tr ++ [e]).

(** [try: c  except <class> as e: h e], where [catches] is the
    [isinstance] test of the class. *)
Definition try_except {A} (c : M A) (catches : exn -> bool) (h : exn -> M A)
  : M A :=
  fun tr =>
    match c tr with
    | (Raise e, tr') => if catches e then h e tr' else (Raise e, tr')
    | r => r
    end.

(** [for x in l: body x]. *)
Fixpoint for_each {A} (l : list A) (body : A -> M unit) : M unit :=
  match l with
  | [] => ret tt
  | x :: l' => bind (body x) (fun _ => for_each l' body)
  end.
End World.

Declare Scope monad_scope.
Delimit Scope monad_scope with M.
Notation "x <- c ;; k" := (bind c (fun x => k))
  (at level 61, c at next level, right associativity) : monad_scope.
Notation "c ;; k" := (bind c (fun _ => k))
  (at level 61, right associativity) : monad_scope.

#[local] Open Scope monad_scope.

(* ===================================================================== *)
(** * The script *)
(* ===================================================================== *)

Definition S3_RAW_PREFIX : pystr := str "raw/weather/".
Definition MAX_RETRIES : nat := 3.
Definition RETRY_BACKOFF_SECONDS : nat := 3.

Section Script.
Context `{PyFloat} `{UnicodeData}.
Variable w : world.

Definition locations_t := dict pystr (float * float).

(** [float(s)] for a [str]. *)
Definition float_str (s : pystr) : result float :=
  match float_of_str s with
  | Some f => Ok f
  | None => Raise ValueError
  end.

(** The body of the loop of [parse_locations_arg], for one [pair]. *)
Definition parse_pair (locations : locations_t) (pair : pystr)
  : M locations_t :=
  if contains 61 pair then                       (* "=" in pair *)
    nc <- lift (unpack2 (split1 61 pair)) ;;     (* pair.split("=", 1) *)
    let (name, coords) := nc in
    ll <- lift (unpack2 (split1 44 coords)) ;;   (* coords.split(",", 1) *)
    let (lat_str, lon_str) := ll in
    lat <- lift (float_str lat_str) ;;
    lon <- lift (float_str lon_str) ;;
    ret (dict_set pystr_eqb locations (strip name) (lat, lon))
  else
    emit (Log WARNING (SkippingInvalidToken pair)) ;;
    ret locations.

Fixpoint parse_pairs (locations : locations_t) (pairs : list pystr)
  : M locations_t :=
  match pairs with
  | [] => ret locations
  | pair_ :: rest =>
      locations' <- parse_pair locations pair_ ;;
      parse_pairs locations' rest
  end.

Definition parse_locations_arg (locations_arg : pystr) : M locations_t :=
  parse_pairs [] (split 44 locations_arg).       (* locations_arg.split(",") *)

(** One item of the dict comprehension of [load_locations_from_file]. *)
Definition load_item (locations : locations_t) (item : pystr * json)
  : result locations_t :=
  let (name, coords) := item in
  (let? c0 := getitem coords (Index 0) in
   let? lat := py_float c0 in
   let? c1 := getitem coords (Index 1) in
   let? lon := py_float c1 in
   Ok (dict_set pystr_eqb locations name (lat, lon)))%result.

Fixpoint load_items (locations : locations_t) (items : list (pystr * json))
  : result locations_t :=
  match items with
  | [] => Ok locations
  | item :: rest =>
      (let? locations' := load_item locations item in
       load_items locations' rest)%result
  end.

Definition load_locations_from_file (path : pystr) : M locations_t :=
  data <- (fun tr => (read_json w tr path, tr ++ [ReadJson path])) ;;
  match data with
  | JDict items => lift (load_items [] items)
  | _ => raise AttributeError
  end.

(** The [while] loop of [call_current_weather]: [budget] is
    [MAX_RETRIES - attempt], so the loop condition [attempt < MAX_RETRIES]
    is [budget <> 0].  Leaving the loop by its condition returns
    [None]. *)
Fixpoint weather_loop (budget attempt : nat) (lat lon : float)
  (api_key : pystr) : M json :=
  match budget with
  | 0 => ret JNull
  | S budget' =>
      try_except
        (fun tr => (http_get w tr lat lon api_key,
                    tr ++ [HttpGet lat lon api_key]))
        is_RequestException
        (fun exc =>
           let attempt := S attempt in
           emit (Log WARNING (RequestFailed attempt MAX_RETRIES exc)) ;;
           if MAX_RETRIES <=? attempt then
             emit (Log ERROR (MaxRetriesReached lat lon)) ;;
             raise exc
           else
             emit (Sleep (RETRY_BACKOFF_SECONDS * attempt)) ;;
             weather_loop budget' attempt lat lon api_key)
  end.

Definition call_current_weather (lat lon : float) (api_key : pystr)
  : M json :=
  weather_loop MAX_RETRIES 0 lat lon api_key.

Definition upload_json_to_s3 (bucket key : pystr) (data : json) : M unit :=
  body <- lift (match utf8 (json_dumps false data) with
                | Some b => Ok b
                | None => Raise UnicodeEncodeError
                end) ;;
  (fun tr => (put_object w tr bucket key body,
              tr ++ [PutObject bucket key body])) ;;
  emit (Log INFO (Uploaded bucket key)).

Definition build_s3_key (prefix : pystr) (city_name : name_t) : M pystr :=
  now <- (fun tr => (Ok (utcnow w tr), tr ++ [UtcNow])) ;;
  let timestamp := strftime now in
  match city_name with
  | Some city =>
      (* city_name.replace(" ", "_").lower() *)
      let safe_city := lower (replace 32 95 city) in
      ret (prefix ++ safe_city ++ str "/weather_" ++ timestamp
           ++ str ".json")
  | None => raise AttributeError
  end.

(** A name as a value: [None] or a [str]. *)
Definition json_of_name (name : name_t) : json :=
  match name with
  | Some s => JStr s
  | None => JNull
  end.

(** The dict display [data_to_store = {...}] of [main]. *)
Definition data_to_store (payload : json) (name : name_t) (lat lon : float)
  : result json :=
  (let? main_ := getitem payload (Key (str "main")) in
   let? temp := getitem main_ (Key (str "temp")) in
   let? main_ := getitem payload (Key (str "main")) in
   let? humidity := getitem main_ (Key (str "humidity")) in
   let? wind := getitem payload (Key (str "wind")) in
   let? wind_speed := getitem wind (Key (str "speed")) in
   let? weather := getitem payload (Key (str "weather")) in
   let? weather0 := getitem weather (Index 0) in
   let? description := getitem weather0 (Key (str "description")) in
   let? timestamp := getitem payload (Key (str "dt")) in
   Ok (JDict [(str "city", json_of_name name);
              (str "lat", JFloat lat);
              (str "lon", JFloat lon);
              (str "temp", temp);
              (str "humidity", humidity);
              (str "wind_speed", wind_speed);
              (str "description", description);
              (str "timestamp", timestamp)]))%result.

(** What [argparse] hands to [main], and the two module-level settings
    read from the environment.  [args_s3_bucket] already holds the
    default when the option is not given. *)
Record args := {
  args_locations : option pystr;
  args_config : option pystr;
  args_location : option pystr;
  args_lat : option float;
  args_lon : option float;
  args_s3_bucket : pystr;
  args_dry_run : bool
}.

(** The truth value of an optional string: [None] and [""] are false. *)
Definition truthy (s : option pystr) : bool :=
  match s with
  | Some (_ :: _) => true
  | _ => false
  end.

Definition text (s : option pystr) : pystr :=
  match s with
  | Some t => t
  | None => []
  end.

(** The body of the [for] loop of [main]. *)
Definition process_location (api_key : pystr) (a : args)
  (item : name_t * (float * float)) : M unit :=
  let '(name, (lat, lon)) := item in
  emit (Log INFO (Fetching name lat lon)) ;;
  fetched <- try_except
               (payload <- call_current_weather lat lon api_key ;;
                ret (Some payload))
               is_Exception
               (fun e => emit (Log ERROR (FailedToFetch name e)) ;;
                         ret None) ;;
  match fetched with
  | None => ret tt
  | Some payload =>
      data <- lift (data_to_store payload name lat lon) ;;
      if args_dry_run a then
        emit (Log INFO (DryRunWouldUpload name
                          (List.length (json_dumps true data))))
      else
        key <- build_s3_key S3_RAW_PREFIX name ;;
        try_except
          (upload_json_to_s3 (args_s3_bucket a) key data)
          is_Exception
          (fun _ => emit (Log ERROR (FailedToUpload name)))
  end.

Definition resolve_locations (a : args)
  : M (dict name_t (float * float)) :=
  if truthy (args_locations a) then
    locations <- parse_locations_arg (text (args_locations a)) ;;
    ret (List.map (fun kv => (Some (fst kv), snd kv)) locations)
  else if truthy (args_config a) then
    locations <- load_locations_from_file (text (args_config a)) ;;
    ret (List.map (fun kv => (Some (fst kv), snd kv)) locations)
  else
    match args_lat a, args_lon a with
    | Some lat, Some lon => ret [(args_location a, (lat, lon))]
    | _, _ =>
        emit (Log ERROR LocationRequiresLatLon) ;;
        raise (SystemExit 1)
    end.

(** [main], from the parsed arguments on.  The S3 client is built once,
    behind the record of the locations found and outside any [try], in a
    dry run as in a real one. *)
Definition main (OPENWEATHER_API_KEY : option pystr) (a : args) : M unit :=
  if negb (truthy OPENWEATHER_API_KEY) then
    emit (Log ERROR ApiKeyNotSet) ;;
    raise (SystemExit 1)
  else
    locations <- resolve_locations a ;;
    emit (Log INFO (FoundLocations (List.length locations)
                      (List.map fst locations))) ;;
    (* s3_client = boto3.client("s3") *)
    (fun tr => (boto3_client w tr, tr ++ [Boto3Client])) ;;
    for_each locations
      (process_location (text OPENWEATHER_API_KEY) a) ;;
    emit (Log INFO JobComplete).

(** The exit status of the process that runs [main]: 0 when [main]
    returns, the code of [sys.exit], and 1 for an exception that
    escapes. *)
Definition exit_status (r : result unit) : nat :=
  match r with
  | Ok _ => 0
  | Raise (SystemExit code) => code
  | Raise _ => 1
  end.

Definition run (OPENWEATHER_API_KEY : option pystr) (a : args)
  : nat * trace :=
  let (r, tr) := main OPENWEATHER_API_KEY a [] in (exit_status r, tr).
End Script.

(* ===================================================================== *)
(** * Notions used in the statements *)
(* ===================================================================== *)

(** The number of occurrences of a character in a string. *)
Definition count (c : N) (s : pystr) : nat := count_occ N.eq_dec s c.

(** The characters of a decimal number. *)
Definition is_digit (c : N) : Prop := (48 <= c <= 57)%N.

(** The characters of a timestamp: digits, [-] and [_]. *)
Definition is_stamp_char (c : N) : Prop :=
  c = 45%N \/ c = 95%N \/ is_digit c.

(** What [build_s3_key] does to one character of an ASCII name. *)
Definition safe_char (c : N) : N :=
  if (c =? 32)%N then 95%N else ascii_lower c.

(** An ASCII character: one byte in UTF-8. *)
Definition ascii_char (c : N) : Prop := (c < 128)%N.

(** [tight cs x y]: the UTF-8 encoding of [y], when there is one, is no
    longer than [x] has characters, and as long only if the characters
    [cs] are all ASCII.  Here [x] is a text dumped with [ensure_ascii],
    [y] the same value dumped without, and [cs] the characters of the
    strings of the value. *)
Definition tight (cs : list N) (x y : pystr) : Prop :=
  forall bs : list N,
    utf8 y = Some bs ->
    List.length bs <= List.length x
    /\ (List.length bs = List.length x -> Forall ascii_char cs).

(** Characters that both ways of dumping a string write alike: the ASCII
    characters other than DEL. *)
Definition below_del (c : N) : Prop := (c < 127)%N.

(** The tokens before the first one that has an [=]: the ones
    [parse_locations_arg] gets to warn about. *)
Fixpoint leading_invalid (tokens : list pystr) : list pystr :=
  match tokens with
  | [] => []
  | t :: ts => if contains 61 t then [] else t :: leading_invalid ts
  end.

(** The seconds slept by a call that sends [n] requests: 3 behind the
    first failure, 6 behind the second. *)
Definition backoff_total (n : nat) : nat :=
  RETRY_BACKOFF_SECONDS * (n * (n - 1) / 2).

(** A code point that has a UTF-8 encoding: up to U+10FFFF and not a
    surrogate. *)
Definition encodable (c : N) : bool :=
  ((c <? 1114112) && negb ((55296 <=? c) && (c <=? 57343)))%N.

(** The text a UTF-8 byte string stands for: the lead byte tells how many
    continuation bytes follow, each of which carries six bits. *)
Fixpoint utf8_decode (bs : list N) : option pystr :=
  match bs with
  | [] => Some []
  | b0 :: r0 =>
      (if b0 <? 128 then option_map (cons b0) (utf8_decode r0)
       else if b0 <? 192 then None
       else if b0 <? 224 then
         match r0 with
         | b1 :: r1 =>
             option_map (cons ((b0 - 192) * 64 + (b1 - 128)))
               (utf8_decode r1)
         | _ => None
         end
       else if b0 <? 240 then
         match r0 with
         | b1 :: b2 :: r2 =>
             option_map
               (cons ((b0 - 224) * 4096 + (b1 - 128) * 64 + (b2 - 128)))
               (utf8_decode r2)
         | _ => None
         end
       else
         match r0 with
         | b1 :: b2 :: b3 :: r3 =>
             option_map
               (cons ((b0 - 240) * 262144 + (b1 - 128) * 4096
                      + (b2 - 128) * 64 + (b3 - 128)))
               (utf8_decode r3)
         | _ => None
         end)%N
  end.

(** The number a string of decimal digits writes. *)
Definition nat_of_digits (s : pystr) : nat :=
  fold_left (fun acc c => 10 * acc + (N.to_nat c - 48)) s 0.

(** The same number in binary. *)
Definition Z_of_digits (s : pystr) : Z :=
  fold_left (fun acc c => (10 * acc + Z.of_N (c - 48))%Z) s 0%Z.

(** [f] holds of the [n] integers from [z] on. *)
Fixpoint all_from (f : Z -> bool) (n : nat) (z : Z) : bool :=
  match n with
  | 0 => true
  | S n' => f z && all_from f n' (Z.succ z)
  end.

(** A time the clock can show, from the year 1000 on. *)
Definition valid_datetime (dt : datetime) : Prop :=
  (1000 <= Z.of_nat (year dt) <= 9999)%Z
  /\ 1 <= month dt <= 12 /\ 1 <= day dt <= 31
  /\ hour dt <= 23 /\ minute dt <= 59 /\ second dt <= 59.

(** Two times in the same second. *)
Definition same_second (dt1 dt2 : datetime) : Prop :=
  year dt1 = year dt2 /\ month dt1 = month dt2 /\ day dt1 = day dt2
  /\ hour dt1 = hour dt2 /\ minute dt1 = minute dt2
  /\ second dt1 = second dt2.



(** [s.startswith(p)]. *)
Definition starts_with (p s : pystr) : Prop := exists rest, s = p ++ rest.

(** A character a sanitised ASCII name can hold: no space, no capital. *)
Definition is_safe_char (c : N) : Prop :=
  c <> 32%N /\ ~ (65 <= c <= 90)%N.

Section Notions.
Context `{PyFloat}.

(** The entry [k] of a value, when the value is an object that has
    one. *)
Definition field (v : json) (k : pystr) : option json :=
  match v with
  | JDict d => dict_get pystr_eqb d k
  | _ => None
  end.

(** The first element of a value, when the value is a non-empty list. *)
Definition first_element (v : json) : option json :=
  match v with
  | JList (x :: _) => Some x
  | _ => None
  end.

(** The value at [a.b]. *)
Definition path2 (v : json) (a b : pystr) : option json :=
  match field v a with
  | Some m => field m b
  | None => None
  end.

(** The value at [weather[0].description]. *)
Definition description_of (v : json) : option json :=
  match field v (str "weather") with
  | Some l =>
      match first_element l with
      | Some x => field x (str "description")
      | None => None
      end
  | None => None
  end.

(** [o is not None]. *)
Definition is_some {A} (o : option A) : bool :=
  match o with
  | Some _ => true
  | None => false
  end.

(** The response has all five paths the record is built from. *)
Definition has_fields (payload : json) : bool :=
  is_some (path2 payload (str "main") (str "temp"))
  && is_some (path2 payload (str "main") (str "humidity"))
  && is_some (path2 payload (str "wind") (str "speed"))
  && is_some (description_of payload)
  && is_some (field payload (str "dt")).

(** [isinstance(v, dict)]. *)
Definition is_dict (v : json) : bool :=
  match v with
  | JDict _ => true
  | _ => false
  end.

(** The containers on the five paths are of the kind the script
    expects, where they exist: the response is an object, [main] and
    [wind] are objects, [weather] is a list and its first element an
    object. *)
Definition well_kinded (payload : json) : bool :=
  is_dict payload
  && match field payload (str "main") with
     | Some m => is_dict m
     | None => true
     end
  && match field payload (str "wind") with
     | Some m => is_dict m
     | None => true
     end
  && match field payload (str "weather") with
     | Some (JList []) => true
     | Some (JList (x :: _)) => is_dict x
     | Some _ => false
     | None => true
     end.

(** The characters of the strings of a value: keys and string values, at
    any depth. *)
Fixpoint json_chars (v : json) : list N :=
  match v with
  | JStr s => s
  | JList l => flat_map json_chars l
  | JDict d => flat_map (fun kv => fst kv ++ json_chars (snd kv)) d
  | _ => []
  end.

(** The entry [item] of the file is a pair of values that [float]
    converts, and [loc] is the location read from it. *)
Definition reads_as (item : pystr * json) (loc : pystr * (float * float))
  : Prop :=
  exists (x y : json) (lat lon : float),
    snd item = JList [x; y]
    /\ py_float x = Ok lat /\ py_float y = Ok lon
    /\ loc = (fst item, (lat, lon)).

(** [adds_only P c]: whatever the trace before, [c] extends it, and only
    with events that satisfy [P]. *)
Definition adds_only {A} (P : event -> Prop) (c : M A) : Prop :=
  forall tr : trace, exists evs : trace,
    snd (c tr) = tr ++ evs /\ Forall P evs.

(** The trace when the request for a location is about to be sent. *)
Definition fetching (name : name_t) (lat lon : float) (tr : trace)
  : trace :=
  tr ++ [Log INFO (Fetching name lat lon)].

(** The exit status as the specification words it: 1 exactly when the API
    key is unset or [--location] comes without both coordinates, 0 in
    every other case. *)
Definition exit_rule_as_stated (key : option pystr) (a : args) (code : nat)
  : Prop :=
  let startup_error :=
    key = None
    \/ (args_location a <> None
        /\ (args_lat a = None \/ args_lon a = None)) in
  (startup_error -> code = 1) /\ (~ startup_error -> code = 0).

(** [reported] is the size in bytes of what a real run would upload for
    [data]. *)
Definition reports_payload_size (data : json) (reported : nat) : Prop :=
  exists body : list N,
    utf8 (json_dumps false data) = Some body
    /\ reported = List.length body.

(** The seconds slept in a trace. *)
Fixpoint sleep_total (tr : trace) : nat :=
  match tr with
  | [] => 0
  | Sleep n :: tr' => n + sleep_total tr'
  | _ :: tr' => sleep_total tr'
  end.

Definition is_put (e : event) : bool :=
  match e with
  | PutObject _ _ _ => true
  | _ => false
  end.

(** The number of objects put in a trace. *)
Definition puts (tr : trace) : nat := List.length (filter is_put tr).

Definition is_warning (e : event) : bool :=
  match e with
  | Log WARNING _ => true
  | _ => false
  end.

(** The number of warnings logged in a trace. *)
Definition warnings (tr : trace) : nat :=
  List.length (filter is_warning tr).

(** The locations a trace starts to process, in order: one for each
    "Fetching" record. *)
Fixpoint fetch_log (tr : trace) : list (name_t * (float * float)) :=
  match tr with
  | [] => []
  | Log INFO (Fetching name lat lon) :: tr' =>
      (name, (lat, lon)) :: fetch_log tr'
  | _ :: tr' => fetch_log tr'
  end.

(** The entry [item] of the file is an array that starts with two values
    [float] converts, and [loc] is the location read from it. *)
Definition reads_from (item : pystr * json)
  (loc : pystr * (float * float)) : Prop :=
  exists (x y : json) (more : list json) (lat lon : float),
    snd item = JList (x :: y :: more)
    /\ py_float x = Ok lat /\ py_float y = Ok lon
    /\ loc = (fst item, (lat, lon)).

(** The exceptions the shaping of a response raises. *)
Definition is_shape_error (e : exn) : bool :=
  match e with
  | KeyError _ | IndexError | TypeError => true
  | _ => false
  end.

(** An event that reaches the network or the object store is one of this
    run: a request carries the API key and the coordinates of one of the
    locations [coords], and an object goes to the bucket of the arguments,
    under [S3_RAW_PREFIX], in a real run. *)
Definition on_target (api_key : pystr) (a : args)
  (coords : list (float * float)) (e : event) : Prop :=
  match e with
  | HttpGet lat lon k => k = api_key /\ In (lat, lon) coords
  | PutObject bucket key _ =>
      bucket = args_s3_bucket a /\ starts_with S3_RAW_PREFIX key
      /\ args_dry_run a = false
  | _ => True
  end.

(** The trace in which the S3 client is built: the locations were
    resolved in [tr] and the record of what was found is logged. *)
Definition locations_found (locations : dict name_t (float * float))
  (tr : trace) : trace :=
  tr ++ [Log INFO (FoundLocations (List.length locations)
                     (List.map fst locations))].

(** The locations a run resolves from its arguments; none when resolving
    them raises. *)
Definition resolved_locations (w : world) (a : args)
  : dict name_t (float * float) :=
  match fst (resolve_locations w a []) with
  | Ok locations => locations
  | Raise _ => []
  end.

(** An event that is a warning, an error record or the reading of the
    config file. *)
Definition is_quiet (e : event) : bool :=
  match e with
  | Log WARNING _ | Log ERROR _ | ReadJson _ => true
  | _ => false
  end.
End Notions.

(* ===================================================================== *)
(** * A small instance of the interfaces, and the inputs of the examples *)
(* ===================================================================== *)

(** Decimal numbers with one fractional digit, [z] standing for [z / 10]:
    enough for the coordinates and readings of the examples ([45.4],
    [21.5], [3.2]).  They are printed as Python prints the floats of the
    same value, and read back from that form. *)
Definition dec1_repr (z : Z) : pystr :=
  (if (z <? 0)%Z then str "-" else [])
  ++ str_of_Z (Z.abs z / 10) ++ str "." ++ str_of_Z (Z.abs z mod 10).

Definition digit_val (c : N) : option Z :=
  if ((48 <=? c) && (c <=? 57))%N then Some (Z.of_N c - 48)%Z else None.

Fixpoint digits_val (acc : Z) (s : pystr) : option Z :=
  match s with
  | [] => Some acc
  | c :: s' =>
      match digit_val c with
      | Some d => digits_val (10 * acc + d) s'
      | None => None
      end
  end.

Definition dec1_of_str (s : pystr) : option Z :=
  let (neg, body) :=
    match s with
    | 45%N :: r => (true, r)
    | _ => (false, s)
    end in
  match split1 46 body with
  | [(_ :: _) as ip; [d]] =>
      match digits_val 0 ip, digit_val d with
      | Some i, Some f => Some ((if neg then -1 else 1) * (10 * i + f))%Z
      | _, _ => None
      end
  | _ => None
  end.

Definition dec1_float : PyFloat := {|
  float := Z;
  float_of_str := dec1_of_str;
  float_of_int := fun z => Some (10 * z)%Z;
  float_repr := dec1_repr
|}.

(** A Unicode database without cased letters beyond ASCII. *)
Definition caseless_unicode : UnicodeData := {|
  to_lower_full := fun c => [c];
  handle_capital_sigma := fun _ _ => 963%N
|}.

Section Inputs.
#[local] Existing Instance dec1_float.
#[local] Existing Instance caseless_unicode.

(** The response of the shaping example of the specification. *)
Definition clear_sky : json :=
  JDict [(str "main", JDict [(str "temp", JFloat 215%Z);
                             (str "humidity", JInt 60)]);
         (str "wind", JDict [(str "speed", JFloat 32%Z)]);
         (str "weather", JList [JDict [(str "description",
                                        JStr (str "clear sky"))]]);
         (str "dt", JInt 1700000000)].

Definition noon : datetime :=
  {| year := 2024; month := 1; day := 2;
     hour := 3; minute := 4; second := 5; microsecond := 678 |}.

(** The same response with the description [café]. *)
Definition cafe_sky : json :=
  JDict [(str "main", JDict [(str "temp", JFloat 215%Z);
                             (str "humidity", JInt 60)]);
         (str "wind", JDict [(str "speed", JFloat 32%Z)]);
         (str "weather", JList [JDict [(str "description",
                                        JStr [99; 97; 102; 233]%N)]]);
         (str "dt", JInt 1700000000)].

(** Responses without [main.temp]: [main] is a number, or an object
    without the entry. *)
Definition scalar_main : json := JDict [(str "main", JInt 5)].
Definition empty_main : json := JDict [(str "main", JDict [])].

(** A config file with two locations. *)
Definition two_locations : json :=
  JDict [(str "a", JList [JInt 1; JInt 2]);
         (str "b", JList [JInt 3; JInt 4])].

(** A world where every request succeeds with [body], every write
    succeeds and the config file holds [two_locations]. *)
Definition world_of (body : json) : world :=
  {| http_get := fun _ _ _ _ => Ok body;
     put_object := fun _ _ _ _ => Ok tt;
     utcnow := fun _ => noon;
     read_json := fun _ _ => Ok two_locations;
     boto3_client := fun _ => Ok tt |}.

(** The config file of the round-trip example, [{"x": [10.0, 20.0]}]. *)
Definition x_file : json :=
  JDict [(str "x", JList [JFloat 100%Z; JFloat 200%Z])].

(** A world where the config file holds [file]. *)
Definition world_reading (file : json) : world :=
  {| http_get := fun _ _ _ _ => Ok clear_sky;
     put_object := fun _ _ _ _ => Ok tt;
     utcnow := fun _ => noon;
     read_json := fun _ _ => Ok file;
     boto3_client := fun _ => Ok tt |}.

(** A world where every request fails and the config file cannot be
    read. *)
Definition world_down : world :=
  {| http_get := fun tr _ _ _ => Raise (RequestException (List.length tr));
     put_object := fun _ _ _ _ => Raise (ClientError 0);
     utcnow := fun _ => noon;
     read_json := fun _ _ => Raise OSError;
     boto3_client := fun _ => Ok tt |}.

(** A world where the first two requests fail and the third succeeds. *)
Definition world_flaky : world :=
  {| http_get := fun tr _ _ _ =>
       let n := requests tr in
       if n <? 2 then Raise (RequestException n) else Ok clear_sky;
     put_object := fun _ _ _ _ => Ok tt;
     utcnow := fun _ => noon;
     read_json := fun _ _ => Ok two_locations;
     boto3_client := fun _ => Ok tt |}.

(** [--location ottawa], without coordinates. *)
Definition args_location_only : args :=
  {| args_locations := None; args_config := None;
     args_location := Some (str "ottawa");
     args_lat := None; args_lon := None;
     args_s3_bucket := str "weather-flights-data-lake-project";
     args_dry_run := false |}.

(** A world where the response for the latitude 1.0 is an empty object
    and every other response is [clear_sky]. *)
Definition world_partial : world :=
  {| http_get := fun _ lat _ _ =>
       if (lat =? 10)%Z then Ok (JDict []) else Ok clear_sky;
     put_object := fun _ _ _ _ => Ok tt;
     utcnow := fun _ => noon;
     read_json := fun _ _ => Ok two_locations;
     boto3_client := fun _ => Ok tt |}.

(** A world where the requests for the latitude 1.0 fail and every other
    response is [clear_sky]. *)
Definition world_a_down : world :=
  {| http_get := fun tr lat _ _ =>
       if (lat =? 10)%Z then Raise (RequestException (requests tr))
       else Ok clear_sky;
     put_object := fun _ _ _ _ => Ok tt;
     utcnow := fun _ => noon;
     read_json := fun _ _ => Ok two_locations;
     boto3_client := fun _ => Ok tt |}.

(** [--config locations.json --dry-run] *)
Definition args_with_config_dry : args :=
  {| args_locations := None;
     args_config := Some (str "locations.json");
     args_location := None;
     args_lat := None; args_lon := None;
     args_s3_bucket := str "weather-flights-data-lake-project";
     args_dry_run := true |}.

(** [--config locations.json] *)
Definition args_with_config : args :=
  {| args_locations := None;
     args_config := Some (str "locations.json");
     args_location := None;
     args_lat := None; args_lon := None;
     args_s3_bucket := str "weather-flights-data-lake-project";
     args_dry_run := false |}.

(** [--location ottawa --lat 45.4 --lon -75.7], with or without
    [--dry-run]. *)
Definition args_ottawa (dry : bool) : args :=
  {| args_locations := None; args_config := None;
     args_location := Some (str "ottawa");
     args_lat := Some 454%Z; args_lon := Some (-757)%Z;
     args_s3_bucket := str "weather-flights-data-lake-project";
     args_dry_run := dry |}.
(** A config file whose second entry has one coordinate only. *)
Definition short_entry_file : json :=
  JDict [(str "a", JList [JInt 1; JInt 2]);
         (str "b", JList [JInt 3]);
         (str "c", JList [JInt 5; JInt 6])].

(** A config file whose entry carries an altitude behind the
    coordinates. *)
Definition altitude_file : json :=
  JDict [(str "p", JList [JInt 1; JInt 2; JInt 70])].
(** The response of the example with a lone surrogate, U+D83D, behind
    the description. *)
Definition surrogate_sky : json :=
  JDict [(str "main", JDict [(str "temp", JFloat 215%Z);
                             (str "humidity", JInt 60)]);
         (str "wind", JDict [(str "speed", JFloat 32%Z)]);
         (str "weather", JList [JDict [(str "description",
                                        JStr (str "rain" ++ [55357%N]))]]);
         (str "dt", JInt 1700000000)].
(** A world where every request succeeds and every write fails. *)
Definition world_store_down : world :=
  {| http_get := fun _ _ _ _ => Ok clear_sky;
     put_object := fun _ _ _ _ => Raise (ClientError 7);
     utcnow := fun _ => noon;
     read_json := fun _ _ => Ok two_locations;
     boto3_client := fun _ => Ok tt |}.

(** A world whose clock moves on by one second with every event. *)
Definition world_ticking : world :=
  {| http_get := fun _ _ _ _ => Ok clear_sky;
     put_object := fun _ _ _ _ => Ok tt;
     utcnow := fun tr =>
       {| year := 2024; month := 1; day := 2; hour := 3; minute := 4;
          second := 5 + List.length tr; microsecond := 0 |};
     read_json := fun _ _ => Ok two_locations;
     boto3_client := fun _ => Ok tt |}.

(** A world like [world_of], on a machine whose AWS profile does not
    exist: building the client raises [ProfileNotFound]. *)
Definition world_no_profile (body : json) : world :=
  {| http_get := fun _ _ _ _ => Ok body;
     put_object := fun _ _ _ _ => Ok tt;
     utcnow := fun _ => noon;
     read_json := fun _ _ => Ok two_locations;
     boto3_client := fun _ => Raise (BotoCoreError 0) |}.

(** [--locations "" --lat 1.0 --lon 2.0], with or without [--dry-run]. *)
Definition args_empty_locations (dry : bool) : args :=
  {| args_locations := Some []; args_config := None;
     args_location := None;
     args_lat := Some 10%Z; args_lon := Some 20%Z;
     args_s3_bucket := str "weather-flights-data-lake-project";
     args_dry_run := dry |}.
End Inputs.

(* ===================================================================== *)
(** * Properties *)
(* ===================================================================== *)

(** Unfolds the monad down to pairs of a result and a trace. *)
Ltac run_m :=
  unfold bind, ret, raise, lift, emit, try_except; simpl.

(** ** Strings *)

Example char_codes : str " ,/=_" = [32; 44; 47; 61; 95]%N.
Proof. reflexivity. Qed.

Lemma split_nonempty (sep : N) (s : pystr) : split sep s <> [].
Proof.
  destruct s as [|c s]; simpl; [discriminate|].
  destruct (N.eqb c sep); [discriminate|].
  destruct (split sep s); discriminate.
Qed.

(** No piece of [s.split(sep)] contains the separator. *)
Lemma split_pieces (sep : N) (s : pystr) :
  Forall (fun t => contains sep t = false) (split sep s).
Proof.
  induction s as [|c s IH]; simpl.
  - repeat constructor.
  - destruct (N.eqb c sep) eqn:E.
    + constructor; [reflexivity | exact IH].
    + destruct (split sep s) as [|t ts].
      * repeat constructor. simpl. now rewrite N.eqb_sym, E.
      * inversion IH; subst. constructor; [|assumption].
        simpl. rewrite N.eqb_sym, E. assumption.
Qed.

(** A character other than the separator is in [s] exactly when it is in
    one of the pieces. *)
Lemma split_contains (sep c : N) (s : pystr) :
  c <> sep ->
  existsb (contains c) (split sep s) = contains c s.
Proof.
  intros Hc. induction s as [|d s IH]; simpl; [reflexivity|].
  destruct (N.eqb d sep) eqn:E.
  - apply N.eqb_eq in E; subst d. simpl.
    rewrite IH. now apply N.eqb_neq in Hc; rewrite Hc.
  - destruct (split sep s) as [|t ts] eqn:Es.
    + now destruct (split_nonempty sep s).
    + simpl in *. rewrite <- IH. now rewrite orb_assoc.
Qed.

Lemma split1_absent (sep : N) (s : pystr) :
  contains sep s = false -> split1 sep s = [s].
Proof.
  induction s as [|c s IH]; simpl; [reflexivity|].
  rewrite N.eqb_sym. destruct (N.eqb c sep); simpl; [discriminate|].
  intros Hs. now rewrite (IH Hs).
Qed.

Lemma split1_present (sep : N) (s : pystr) :
  contains sep s = true ->
  exists a b, split1 sep s = [a; b] /\ s = a ++ sep :: b.
Proof.
  induction s as [|c s IH]; simpl; [discriminate|].
  rewrite N.eqb_sym. destruct (N.eqb c sep) eqn:E; simpl.
  - intros _. apply N.eqb_eq in E; subst c. now exists [], s.
  - intros Hs. destruct (IH Hs) as (a & b & Hab & ->).
    rewrite Hab. now exists (c :: a), b.
Qed.

Lemma contains_app (c : N) (a b : pystr) :
  contains c (a ++ b) = contains c a || contains c b.
Proof. apply existsb_app. Qed.

Section ParseLocations.
Context `{PyFloat}.

(** A token with an [=] never parses: the token carries no comma, so
    its coordinates do not split in two. *)
Lemma parse_pair_with_eq (locations : locations_t) (pair : pystr)
  (tr : trace) :
  contains 61 pair = true ->
  contains 44 pair = false ->
  parse_pair locations pair tr = (Raise ValueError, tr).
Proof.
  intros Heq Hcomma. unfold parse_pair. rewrite Heq.
  destruct (split1_present _ _ Heq) as (name & coords & Hsplit & Hpair).
  rewrite Hsplit. run_m.
  assert (Hc : contains 44 coords = false).
  { rewrite Hpair, contains_app in Hcomma.
    apply orb_false_elim in Hcomma as [_ Hcomma].
    exact Hcomma. }
  now rewrite (split1_absent _ _ Hc).
Qed.

(** A token without [=] is skipped with a warning. *)
Lemma parse_pair_without_eq (locations : locations_t) (pair : pystr)
  (tr : trace) :
  contains 61 pair = false ->
  parse_pair locations pair tr
  = (Ok locations, tr ++ [Log WARNING (SkippingInvalidToken pair)]).
Proof. intros Heq. unfold parse_pair. now rewrite Heq. Qed.

Lemma parse_pairs_result (pairs : list pystr) :
  Forall (fun t => contains 44 t = false) pairs ->
  forall (locations : locations_t) (tr : trace),
    fst (parse_pairs locations pairs tr)
    = if existsb (contains 61) pairs then Raise ValueError
      else Ok locations.
Proof.
  induction 1 as [|t ts Ht _ IH]; intros locations tr; [reflexivity|].
  simpl. unfold bind at 1. destruct (contains 61 t) eqn:Et.
  - now rewrite parse_pair_with_eq.
  - rewrite parse_pair_without_eq by assumption. apply IH.
Qed.

(** C2.  The inline form the script documents,
    [--locations a=1.0,2.0,b=3.0,4.0], does not parse: the argument is
    split at every comma first, so the token [a=1.0] has no comma left to
    separate a latitude from a longitude and unpacking its coordinates
    raises [ValueError], with no location returned.  More generally
    [parse_locations_arg] raises [ValueError] on every argument that
    contains an [=], and returns the empty mapping on every other. *)
Theorem parse_locations_arg_documented_form (tr : trace) :
  parse_locations_arg (str "a=1.0,2.0,b=3.0,4.0") tr
  = (Raise ValueError, tr)
  /\ forall s : pystr,
      fst (parse_locations_arg s tr)
      = if contains 61 s then Raise ValueError else Ok [].
Proof.
  split; [reflexivity|].
  intros s. unfold parse_locations_arg.
  rewrite parse_pairs_result by apply split_pieces.
  now rewrite split_contains.
Qed.

(** A token without [=] does not stop the loop: the tokens after it are
    parsed from the same mapping. *)
Lemma parse_pairs_skips (locations : locations_t) (pair : pystr)
  (rest : list pystr) (tr : trace) :
  contains 61 pair = false ->
  parse_pairs locations (pair :: rest) tr
  = parse_pairs locations rest
      (tr ++ [Log WARNING (SkippingInvalidToken pair)]).
Proof.
  intros Heq. simpl. unfold bind at 1.
  now rewrite parse_pair_without_eq.
Qed.
End ParseLocations.

(** ** The retry loop *)

Section Retry.
Context `{PyFloat}.
Variable w : world.
Variables (lat lon : float) (api_key : pystr).

Lemma requests_app (tr evs : trace) :
  requests (tr ++ evs) = requests tr + requests evs.
Proof. unfold requests. now rewrite filter_app, length_app. Qed.

(** C3.  [call_current_weather] sends at most three requests.  When the
    first two requests fail with a request error and the third succeeds,
    it returns the body of the third, after sleeping 3 seconds behind the
    first failure and 6 seconds behind the second.  When all three fail,
    it raises the error of the third, after exactly three requests and
    the same two sleeps. *)
Theorem call_current_weather_retries (tr : trace) :
  let get := HttpGet lat lon api_key in
  let warn := fun n e => Log WARNING (RequestFailed n MAX_RETRIES e) in
  requests (snd (call_current_weather w lat lon api_key tr))
  <= requests tr + 3
  /\ (forall (e1 e2 : exn) (body : json),
        let tr1 := tr ++ [get; warn 1 e1; Sleep 3] in
        let tr2 := tr1 ++ [get; warn 2 e2; Sleep 6] in
        http_get w tr lat lon api_key = Raise e1 ->
        is_RequestException e1 = true ->
        http_get w tr1 lat lon api_key = Raise e2 ->
        is_RequestException e2 = true ->
        http_get w tr2 lat lon api_key = Ok body ->
        call_current_weather w lat lon api_key tr
        = (Ok body, tr2 ++ [get]))
  /\ (forall e1 e2 e3 : exn,
        let tr1 := tr ++ [get; warn 1 e1; Sleep 3] in
        let tr2 := tr1 ++ [get; warn 2 e2; Sleep 6] in
        http_get w tr lat lon api_key = Raise e1 ->
        is_RequestException e1 = true ->
        http_get w tr1 lat lon api_key = Raise e2 ->
        is_RequestException e2 = true ->
        http_get w tr2 lat lon api_key = Raise e3 ->
        is_RequestException e3 = true ->
        call_current_weather w lat lon api_key tr
        = (Raise e3,
           tr2 ++ [get; warn 3 e3; Log ERROR (MaxRetriesReached lat lon)])).
Proof.
  cbv zeta. unfold call_current_weather. split; [|split].
  - simpl. run_m.
    repeat
      (match goal with
       | |- context [http_get w ?t lat lon api_key] =>
           let e := fresh "e" in
           destruct (http_get w t lat lon api_key) as [?|e]; simpl;
           [|destruct (is_RequestException e); simpl]
       end;
       repeat rewrite <- app_assoc; simpl);
      rewrite requests_app; unfold requests; simpl; lia.
  - intros e1 e2 body H1 R1 H2 R2 H3.
    simpl. run_m. rewrite H1, R1. simpl.
    repeat rewrite <- app_assoc in *. simpl in *.
    rewrite H2, R2. simpl.
    repeat rewrite <- app_assoc in *. simpl in *.
    now rewrite H3.
  - intros e1 e2 e3 H1 R1 H2 R2 H3 R3.
    simpl. run_m. rewrite H1, R1. simpl.
    repeat rewrite <- app_assoc in *. simpl in *.
    rewrite H2, R2. simpl.
    repeat rewrite <- app_assoc in *. simpl in *.
    rewrite H3, R3. simpl.
    now repeat rewrite <- app_assoc.
Qed.
End Retry.

(** ** The storage key *)

Lemma count_app (c : N) (a b : pystr) :
  count c (a ++ b) = count c a + count c b.
Proof. apply count_occ_app. Qed.

Lemma count_absent (P : N -> Prop) (c : N) (s : pystr) :
  Forall P s -> ~ P c -> count c s = 0.
Proof.
  intros Hs Hc. apply count_occ_not_In. intros Hin.
  rewrite Forall_forall in Hs. now apply Hc, Hs.
Qed.

Lemma string_of_uint_digits (u : Decimal.uint) :
  Forall is_digit (str (NilEmpty.string_of_uint u)).
Proof.
  induction u; simpl; constructor; auto; unfold is_digit; simpl; lia.
Qed.

Lemma zero_digit : Forall is_digit (str "0").
Proof. apply Forall_cons; [unfold is_digit; simpl; lia | apply Forall_nil]. Qed.

Lemma NilZero_digits (u : Decimal.uint) :
  Forall is_digit (str (NilZero.string_of_uint u)).
Proof.
  unfold NilZero.string_of_uint.
  destruct u eqn:E; try (rewrite <- E; apply string_of_uint_digits).
  apply zero_digit.
Qed.

Lemma str_of_nat_digits (n : nat) : Forall is_digit (str_of_nat n).
Proof.
  unfold str_of_nat, str_of_Z. destruct n as [|n]; simpl.
  - apply zero_digit.
  - apply NilZero_digits.
Qed.

Lemma str_of_Z_chars (z : Z) :
  Forall (fun c => c = 45%N \/ is_digit c) (str_of_Z z).
Proof.
  assert (Hu : forall u, Forall (fun c => c = 45%N \/ is_digit c)
                           (str (NilZero.string_of_uint u))).
  { intros u. eapply Forall_impl; [intros c Hc; right; exact Hc|].
    apply NilZero_digits. }
  unfold str_of_Z. destruct z as [|p|p]; simpl.
  - eapply Forall_impl; [intros c Hc; right; exact Hc | apply zero_digit].
  - apply Hu.
  - apply Forall_cons; [now left | apply Hu].
Qed.

Lemma zero_pad_digits (w n : nat) : Forall is_digit (zero_pad w n).
Proof.
  unfold zero_pad. apply Forall_app. split.
  - apply Forall_forall. intros c Hc. apply repeat_spec in Hc. subst c.
    unfold is_digit. lia.
  - apply str_of_nat_digits.
Qed.

Lemma strftime_chars (dt : datetime) : Forall is_stamp_char (strftime dt).
Proof.
  assert (Hd : forall s, Forall is_digit s -> Forall is_stamp_char s).
  { intros s. apply Forall_impl. intros c Hc. right. now right. }
  assert (Hm : Forall is_stamp_char (str "-")).
  { apply Forall_cons; [now left | apply Forall_nil]. }
  assert (Hu : Forall is_stamp_char (str "_")).
  { apply Forall_cons; [right; now left | apply Forall_nil]. }
  unfold strftime.
  repeat match goal with
    | |- Forall _ (str_of_nat _ ++ _) =>
        apply Forall_app; split; [apply Hd, str_of_nat_digits|]
    | |- Forall _ (zero_pad _ _ ++ _) =>
        apply Forall_app; split; [apply Hd, zero_pad_digits|]
    | |- Forall _ (str _ ++ _) =>
        apply Forall_app; split; [assumption|]
    end.
  apply Hd, zero_pad_digits.
Qed.

Lemma strftime_no_slash (dt : datetime) : count 47 (strftime dt) = 0.
Proof.
  apply count_absent with (P := is_stamp_char); [apply strftime_chars|].
  unfold is_stamp_char, is_digit. lia.
Qed.

Lemma replace_ascii (s : pystr) :
  forallb is_ascii s = true -> forallb is_ascii (replace 32 95 s) = true.
Proof.
  unfold replace. rewrite !forallb_forall. intros Hs c Hc.
  apply in_map_iff in Hc as (d & <- & Hd).
  destruct (N.eqb d 32); [reflexivity | now apply Hs].
Qed.

Lemma replace_no_space (s : pystr) : ~ In 32%N (replace 32 95 s).
Proof.
  unfold replace. intros Hin. apply in_map_iff in Hin as (d & Hd & _).
  destruct (N.eqb d 32) eqn:E; [discriminate|].
  apply N.eqb_neq in E. contradiction.
Qed.

Lemma count_replace_slash (s : pystr) :
  count 47 (replace 32 95 s) = count 47 s.
Proof.
  unfold count, replace. induction s as [|c s IH]; simpl; [reflexivity|].
  rewrite IH. destruct (N.eqb c 32) eqn:E.
  - apply N.eqb_eq in E; subst c. reflexivity.
  - reflexivity.
Qed.

Lemma count_ascii_lower_slash (s : pystr) :
  count 47 (List.map ascii_lower s) = count 47 s.
Proof.
  unfold count. induction s as [|c s IH]; simpl; [reflexivity|].
  rewrite IH. unfold ascii_lower.
  destruct ((65 <=? c) && (c <=? 90))%N eqn:E; [|reflexivity].
  apply andb_prop in E as [E1 E2].
  apply N.leb_le in E1. apply N.leb_le in E2.
  destruct (N.eq_dec (c + 32) 47), (N.eq_dec c 47); try reflexivity; lia.
Qed.

Section Key.
Context `{PyFloat} `{UnicodeData}.
Variable w : world.

Lemma lower_of_ascii (s : pystr) :
  forallb is_ascii s = true -> lower s = List.map ascii_lower s.
Proof. intros Hs. unfold lower. now rewrite Hs. Qed.

Lemma count_do_lower_slash (whole : pystr) (s : pystr) (i : nat) :
  count 47 s <= count 47 (do_lower whole i s).
Proof.
  revert i. induction s as [|c s IH]; intros i; [apply Nat.le_refl|].
  change (do_lower whole i (c :: s))
    with (lower_ucs4 whole i c ++ do_lower whole (S i) s).
  change (c :: s) with ([c] ++ s) at 1.
  rewrite !count_app. specialize (IH (S i)).
  enough (count 47 [c] <= count 47 (lower_ucs4 whole i c)) by lia.
  unfold count at 1. simpl. destruct (N.eq_dec c 47) as [->|Hc]; [|lia].
  apply Nat.le_refl.
Qed.

(** Every [/] of a string is still there after [lower()]. *)
Lemma count_lower_slash (s : pystr) : count 47 s <= count 47 (lower s).
Proof.
  unfold lower. destruct (forallb is_ascii s).
  - now rewrite count_ascii_lower_slash.
  - apply count_do_lower_slash.
Qed.

(** C10.  The only changes [build_s3_key] makes to the city name are
    the replacement of spaces and the lower-casing: for an ASCII name
    every character becomes [safe_char] of itself, which is the
    character itself unless it is a space or a capital letter.  A [/] is
    carried into the key as it is, for any name: the key has at least
    the slashes of the prefix, those of the name and the one before
    [weather_], and exactly those for an ASCII name.  So a name with a
    [/] gives a key with more path segments than
    [<prefix><city>/weather_<timestamp>.json] has. *)
Theorem build_s3_key_keeps_slashes (prefix city : pystr) (tr : trace) :
  exists key : pystr,
    build_s3_key w prefix (Some city) tr = (Ok key, tr ++ [UtcNow])
    /\ count 47 prefix + count 47 city + 1 <= count 47 key
    /\ (In 47%N city -> count 47 prefix + 1 < count 47 key)
    /\ (forallb is_ascii city = true ->
        key = prefix ++ List.map safe_char city ++ str "/weather_"
              ++ strftime (utcnow w tr) ++ str ".json"
        /\ count 47 key = count 47 prefix + count 47 city + 1
        /\ forall (i : nat) (c : N),
             nth_error city i = Some c ->
             c <> 32%N -> ~ (65 <= c <= 90)%N ->
             nth_error key (List.length prefix + i) = Some c).
Proof.
  eexists. split; [reflexivity|].
  assert (Hge : count 47 prefix + count 47 city + 1
                <= count 47 (prefix ++ lower (replace 32 95 city)
                             ++ str "/weather_" ++ strftime (utcnow w tr)
                             ++ str ".json")).
  { rewrite !count_app.
    pose proof (count_lower_slash (replace 32 95 city)) as Hl.
    rewrite count_replace_slash in Hl.
    change (count 47 (str "/weather_")) with 1. lia. }
  split; [exact Hge|]. split.
  - intros Hin.
    assert (0 < count 47 city) by (now apply count_occ_In). lia.
  - intros Hascii.
    assert (Hsafe : lower (replace 32 95 city) = List.map safe_char city).
    { rewrite lower_of_ascii by now apply replace_ascii.
      unfold replace. rewrite map_map. apply map_ext. intros c.
      unfold safe_char. now destruct (N.eqb c 32). }
    rewrite Hsafe. split; [reflexivity|]. split.
    + rewrite !count_app, strftime_no_slash.
      rewrite <- Hsafe, lower_of_ascii by now apply replace_ascii.
      rewrite count_ascii_lower_slash, count_replace_slash.
      change (count 47 (str "/weather_")) with 1.
      change (count 47 (str ".json")) with 0. lia.
    + intros i c Hi Hsp Hup.
      rewrite nth_error_app2 by lia.
      replace (List.length prefix + i - List.length prefix) with i by lia.
      rewrite nth_error_app1
        by (rewrite length_map; apply nth_error_Some; congruence).
      rewrite nth_error_map, Hi. simpl. f_equal.
      unfold safe_char, ascii_lower.
      destruct (N.eqb_spec c 32); [contradiction|].
      destruct ((65 <=? c) && (c <=? 90))%N eqn:E; [|reflexivity].
      apply andb_prop in E as [E1 E2].
      apply N.leb_le in E1. apply N.leb_le in E2. lia.
Qed.
End Key.

(** ** Shaping *)

Section Shape.
Context `{PyFloat}.

(** Subscripting by a key finds exactly a [field]. *)
Lemma getitem_field (v x : json) (k : pystr) :
  field v k = Some x -> getitem v (Key k) = Ok x.
Proof.
  destruct v; simpl; try discriminate. now intros ->.
Qed.

Lemma getitem_no_field (v : json) (k : pystr) :
  field v k = None ->
  getitem v (Key k)
  = Raise (if is_dict v then KeyError (Key k) else TypeError).
Proof.
  destruct v; simpl; try reflexivity. now intros ->.
Qed.

(** Closes a case where the next subscription raises. *)
Ltac raises_here :=
  intros _; simpl; eexists; (split; [reflexivity|]); simpl;
  (split; [auto|]); rewrite ?andb_false_r; auto; try discriminate.

(** With the five paths present the record is built from them. *)
Lemma data_to_store_present (payload : json) (name : name_t)
  (lat lon : float) (temp humidity speed description dt : json) :
  path2 payload (str "main") (str "temp") = Some temp ->
  path2 payload (str "main") (str "humidity") = Some humidity ->
  path2 payload (str "wind") (str "speed") = Some speed ->
  description_of payload = Some description ->
  field payload (str "dt") = Some dt ->
  data_to_store payload name lat lon
  = Ok (JDict [(str "city", json_of_name name);
               (str "lat", JFloat lat);
               (str "lon", JFloat lon);
               (str "temp", temp);
               (str "humidity", humidity);
               (str "wind_speed", speed);
               (str "description", description);
               (str "timestamp", dt)]).
Proof.
  intros Ht Hh Hs Hd Hdt.
  unfold path2, description_of in *.
  destruct (field payload (str "main")) as [m|] eqn:Em; [|discriminate].
  destruct (field payload (str "wind")) as [wd|] eqn:Ew; [|discriminate].
  destruct (field payload (str "weather")) as [l|] eqn:El;
    [|discriminate].
  destruct l as [| | | | |[|x l]|]; try discriminate. simpl in Hd.
  unfold data_to_store.
  rewrite (getitem_field _ _ Em). simpl.
  rewrite (getitem_field _ _ Ht). simpl.
  rewrite (getitem_field _ _ Hh). simpl.
  rewrite (getitem_field _ _ Ew). simpl.
  rewrite (getitem_field _ _ Hs). simpl.
  rewrite (getitem_field _ _ El). simpl.
  rewrite (getitem_field _ _ Hd). simpl.
  now rewrite (getitem_field _ _ Hdt).
Qed.

(** With a path missing the first subscription that fails raises. *)
Lemma data_to_store_missing (payload : json) (name : name_t)
  (lat lon : float) :
  has_fields payload = false ->
  exists e : exn,
    data_to_store payload name lat lon = Raise e
    /\ (is_LookupError e = true \/ e = TypeError)
    /\ (well_kinded payload = true -> is_LookupError e = true).
Proof.
  unfold has_fields, well_kinded, path2, description_of, data_to_store.
  destruct (field payload (str "main")) as [m|] eqn:Em.
  2:{ rewrite (getitem_no_field _ _ Em).
      destruct (is_dict payload); raises_here. }
  assert (Hp : is_dict payload = true).
  { destruct payload; simpl in Em; try discriminate; reflexivity. }
  rewrite Hp. rewrite (getitem_field _ _ Em). simpl.
  destruct (field m (str "temp")) as [t|] eqn:Et.
  2:{ rewrite (getitem_no_field _ _ Et). destruct (is_dict m); raises_here. }
  rewrite (getitem_field _ _ Et). simpl.
  destruct (field m (str "humidity")) as [h|] eqn:Eh.
  2:{ rewrite (getitem_no_field _ _ Eh). destruct (is_dict m); raises_here. }
  rewrite (getitem_field _ _ Eh). simpl.
  destruct (field payload (str "wind")) as [wd|] eqn:Ew.
  2:{ rewrite (getitem_no_field _ _ Ew), Hp. raises_here. }
  rewrite (getitem_field _ _ Ew). simpl.
  destruct (field wd (str "speed")) as [sp|] eqn:Es.
  2:{ rewrite (getitem_no_field _ _ Es). destruct (is_dict wd); raises_here. }
  rewrite (getitem_field _ _ Es). simpl.
  destruct (field payload (str "weather")) as [l|] eqn:El.
  2:{ rewrite (getitem_no_field _ _ El), Hp. raises_here. }
  rewrite (getitem_field _ _ El). simpl.
  destruct l as [| | | |s|[|x l]|d]; simpl; try raises_here.
  + destruct s; raises_here.
  + destruct (field x (str "description")) as [ds|] eqn:Ed.
    2:{ rewrite (getitem_no_field _ _ Ed).
        destruct (is_dict x); raises_here. }
    rewrite (getitem_field _ _ Ed). simpl.
    destruct (field payload (str "dt")) as [ts|] eqn:Edt.
    * simpl. discriminate.
    * rewrite (getitem_no_field _ _ Edt), Hp. raises_here.
Qed.

(** C6 (as amended).  When the response has [main.temp],
    [main.humidity], [wind.speed], [weather[0].description] and [dt],
    the record is exactly the name, the coordinates and these five
    values, under the keys [city], [lat], [lon], [temp], [humidity],
    [wind_speed], [description] and [timestamp]; nothing is defaulted.
    When one of the paths is missing, no record is produced: shaping
    raises a [KeyError], an [IndexError] or a [TypeError], and it is one
    of the first two (a lookup error) whenever the containers on the
    paths are of the expected kind. *)
Theorem data_to_store_shapes (payload : json) (name : name_t)
  (lat lon : float) :
  (forall temp humidity speed description dt : json,
      path2 payload (str "main") (str "temp") = Some temp ->
      path2 payload (str "main") (str "humidity") = Some humidity ->
      path2 payload (str "wind") (str "speed") = Some speed ->
      description_of payload = Some description ->
      field payload (str "dt") = Some dt ->
      data_to_store payload name lat lon
      = Ok (JDict [(str "city", json_of_name name);
                   (str "lat", JFloat lat);
                   (str "lon", JFloat lon);
                   (str "temp", temp);
                   (str "humidity", humidity);
                   (str "wind_speed", speed);
                   (str "description", description);
                   (str "timestamp", dt)]))
  /\ (has_fields payload = false ->
      exists e : exn,
        data_to_store payload name lat lon = Raise e
        /\ (is_LookupError e = true \/ e = TypeError)
        /\ (well_kinded payload = true -> is_LookupError e = true)).
Proof.
  split.
  - apply data_to_store_present.
  - apply data_to_store_missing.
Qed.
End Shape.

(** ** Which events a computation can add *)

Section Effects.
Context `{PyFloat} `{UnicodeData}.
Variable w : world.

Variable P : event -> Prop.

Lemma adds_only_ret {A} (a : A) : adds_only P (ret a).
Proof. intros tr. exists []. now rewrite app_nil_r. Qed.

Lemma adds_only_raise {A} (e : exn) : adds_only P (raise e : M A).
Proof. intros tr. exists []. now rewrite app_nil_r. Qed.

Lemma adds_only_lift {A} (r : result A) : adds_only P (lift r).
Proof. intros tr. exists []. now rewrite app_nil_r. Qed.

Lemma adds_only_emit (e : event) : P e -> adds_only P (emit e).
Proof. intros He tr. exists [e]. split; [reflexivity | now constructor]. Qed.

(** A call to the outside world, recorded as the event [e]. *)
Lemma adds_only_call {A} (f : trace -> result A) (e : event) :
  P e -> adds_only P (fun tr => (f tr, tr ++ [e])).
Proof. intros He tr. exists [e]. split; [reflexivity | now constructor]. Qed.

Lemma adds_only_bind {A B} (c : M A) (k : A -> M B) :
  adds_only P c -> (forall a, adds_only P (k a)) -> adds_only P (bind c k).
Proof.
  intros Hc Hk tr. unfold bind. destruct (Hc tr) as (evs & Hevs & HP).
  destruct (c tr) as [[a|e] tr1]; simpl in Hevs; subst tr1.
  - destruct (Hk a (tr ++ evs)) as (evs' & Hevs' & HP').
    exists (evs ++ evs'). rewrite Hevs', app_assoc. split; [reflexivity|].
    now apply Forall_app.
  - now exists evs.
Qed.

Lemma adds_only_try_except {A} (c : M A) (catches : exn -> bool)
  (h : exn -> M A) :
  adds_only P c -> (forall e, adds_only P (h e)) ->
  adds_only P (try_except c catches h).
Proof.
  intros Hc Hh tr. unfold try_except. destruct (Hc tr) as (evs & Hevs & HP).
  destruct (c tr) as [[a|e] tr1]; simpl in Hevs; subst tr1.
  - now exists evs.
  - destruct (catches e); [|now exists evs].
    destruct (Hh e (tr ++ evs)) as (evs' & Hevs' & HP').
    exists (evs ++ evs'). rewrite Hevs', app_assoc. split; [reflexivity|].
    now apply Forall_app.
Qed.

Lemma adds_only_for_each {A} (l : list A) (body : A -> M unit) :
  (forall x, adds_only P (body x)) -> adds_only P (for_each l body).
Proof.
  intros Hb. induction l as [|x l IH]; simpl.
  - apply adds_only_ret.
  - apply adds_only_bind; [apply Hb | intros _; exact IH].
Qed.

Hypothesis P_log : forall lv m, P (Log lv m).
Hypothesis P_get : forall lat lon k, P (HttpGet lat lon k).
Hypothesis P_sleep : forall n, P (Sleep n).
Hypothesis P_read : forall path, P (ReadJson path).
Hypothesis P_client : P Boto3Client.

Lemma adds_only_weather_loop (budget attempt : nat) (lat lon : float)
  (api_key : pystr) :
  adds_only P (weather_loop w budget attempt lat lon api_key).
Proof.
  revert attempt.
  induction budget as [|budget IH]; intros attempt; cbn [weather_loop].
  - apply adds_only_ret.
  - apply adds_only_try_except; [now apply adds_only_call|].
    intros e. apply adds_only_bind; [now apply adds_only_emit|]. intros _.
    destruct (MAX_RETRIES <=? S attempt).
    + apply adds_only_bind; [now apply adds_only_emit|]. intros _.
      apply adds_only_raise.
    + apply adds_only_bind; [now apply adds_only_emit|]. intros _.
      apply IH.
Qed.

Lemma adds_only_parse_pairs (pairs : list pystr) (locations : locations_t) :
  adds_only P (parse_pairs locations pairs).
Proof.
  revert locations. induction pairs as [|t ts IH]; intros locations; simpl.
  - apply adds_only_ret.
  - apply adds_only_bind; [|intros l; apply IH].
    unfold parse_pair. destruct (contains 61 t).
    + apply adds_only_bind; [apply adds_only_lift|]. intros [name coords].
      apply adds_only_bind; [apply adds_only_lift|]. intros [a b].
      apply adds_only_bind; [apply adds_only_lift|]. intros x.
      apply adds_only_bind; [apply adds_only_lift|]. intros y.
      apply adds_only_ret.
    + apply adds_only_bind; [now apply adds_only_emit|]. intros _.
      apply adds_only_ret.
Qed.

Lemma adds_only_resolve_locations (a : args) :
  adds_only P (resolve_locations w a).
Proof.
  unfold resolve_locations. destruct (truthy (args_locations a)).
  - apply adds_only_bind; [apply adds_only_parse_pairs|]. intros l.
    apply adds_only_ret.
  - destruct (truthy (args_config a)).
    + apply adds_only_bind; [|intros l; apply adds_only_ret].
      unfold load_locations_from_file.
      apply adds_only_bind; [now apply adds_only_call|].
      intros []; try apply adds_only_raise. apply adds_only_lift.
    + destruct (args_lat a), (args_lon a); try apply adds_only_ret;
        (apply adds_only_bind; [now apply adds_only_emit|]; intros _;
         apply adds_only_raise).
Qed.

(** In a dry run the body of the loop adds requests, sleeps and log
    records only. *)
Lemma adds_only_process_location_dry (api_key : pystr) (a : args)
  (item : name_t * (float * float)) :
  args_dry_run a = true ->
  adds_only P (process_location w api_key a item).
Proof.
  intros Hdry. destruct item as [name [lat lon]]. unfold process_location.
  apply adds_only_bind; [now apply adds_only_emit|]. intros _.
  apply adds_only_bind.
  - apply adds_only_try_except.
    + apply adds_only_bind; [apply adds_only_weather_loop|].
      intros p. apply adds_only_ret.
    + intros e. apply adds_only_bind; [now apply adds_only_emit|].
      intros _. apply adds_only_ret.
  - intros [payload|]; [|apply adds_only_ret].
    apply adds_only_bind; [apply adds_only_lift|]. intros data.
    rewrite Hdry. now apply adds_only_emit.
Qed.

Lemma adds_only_main_dry (key : option pystr) (a : args) :
  args_dry_run a = true -> adds_only P (main w key a).
Proof.
  intros Hdry. unfold main. destruct (negb (truthy key)).
  - apply adds_only_bind; [now apply adds_only_emit|]. intros _.
    apply adds_only_raise.
  - apply adds_only_bind; [apply adds_only_resolve_locations|].
    intros locations.
    apply adds_only_bind; [now apply adds_only_emit|]. intros _.
    apply adds_only_bind; [now apply adds_only_call|]. intros _.
    apply adds_only_bind; [|intros _; now apply adds_only_emit].
    apply adds_only_for_each. intros item.
    now apply adds_only_process_location_dry.
Qed.
End Effects.

(** ** One location, and the whole run *)

Section Run.
Context `{PyFloat} `{UnicodeData}.
Variable w : world.
Variables (api_key : pystr) (a : args).
Variables (name : name_t) (lat lon : float).

(** What [call_current_weather] returns or raises came from a request. *)
Lemma call_current_weather_result (tr : trace) :
  match fst (call_current_weather w lat lon api_key tr) with
  | Ok payload => exists tr0, http_get w tr0 lat lon api_key = Ok payload
  | Raise e => exists tr0, http_get w tr0 lat lon api_key = Raise e
  end.
Proof.
  unfold call_current_weather. simpl. run_m.
  repeat
    match goal with
    | |- context [http_get w ?t lat lon api_key] =>
        let e := fresh "e" in
        let E := fresh "E" in
        destruct (http_get w t lat lon api_key) as [?|e] eqn:E; simpl;
        [|destruct (is_RequestException e); simpl]
    end;
    eauto.
Qed.

(** A failed fetch is logged and the location is left. *)
Lemma process_location_fetch_failed (tr tr' : trace) (e : exn) :
  call_current_weather w lat lon api_key (fetching name lat lon tr) = (Raise e, tr') ->
  is_Exception e = true ->
  process_location w api_key a (name, (lat, lon)) tr
  = (Ok tt, tr' ++ [Log ERROR (FailedToFetch name e)]).
Proof.
  unfold fetching. intros Hcall He. unfold process_location. run_m.
  now rewrite Hcall, He.
Qed.

(** An exception in the shaping leaves the loop body. *)
Lemma process_location_shape_failed (tr tr' : trace) (payload : json)
  (e : exn) :
  call_current_weather w lat lon api_key (fetching name lat lon tr) = (Ok payload, tr') ->
  data_to_store payload name lat lon = Raise e ->
  process_location w api_key a (name, (lat, lon)) tr = (Raise e, tr').
Proof.
  unfold fetching. intros Hcall Hdata. unfold process_location. run_m.
  now rewrite Hcall, Hdata.
Qed.

(** In a dry run the size of the record, dumped with the default
    escaping, is logged. *)
Lemma process_location_dry_run (tr tr' : trace) (payload data : json) :
  call_current_weather w lat lon api_key (fetching name lat lon tr) = (Ok payload, tr') ->
  data_to_store payload name lat lon = Ok data ->
  args_dry_run a = true ->
  process_location w api_key a (name, (lat, lon)) tr
  = (Ok tt,
     tr' ++ [Log INFO (DryRunWouldUpload name
                         (List.length (json_dumps true data)))]).
Proof.
  unfold fetching. intros Hcall Hdata Hdry. unfold process_location. run_m.
  now rewrite Hcall, Hdata, Hdry.
Qed.

(** In a real run the record, dumped without ASCII escaping and encoded
    as UTF-8, is put under the key built for the location. *)
Lemma process_location_upload (tr tr' : trace) (payload data : json)
  (city : pystr) (body : list N) :
  call_current_weather w lat lon api_key (fetching name lat lon tr) = (Ok payload, tr') ->
  data_to_store payload name lat lon = Ok data ->
  args_dry_run a = false ->
  name = Some city ->
  utf8 (json_dumps false data) = Some body ->
  exists (key : pystr) (rest : trace),
    build_s3_key w S3_RAW_PREFIX name tr' = (Ok key, tr' ++ [UtcNow])
    /\ snd (process_location w api_key a (name, (lat, lon)) tr)
       = tr' ++ [UtcNow; PutObject (args_s3_bucket a) key body] ++ rest.
Proof.
  unfold fetching. intros Hcall Hdata Hdry -> Hbody.
  eexists. unfold process_location, build_s3_key, upload_json_to_s3. run_m.
  rewrite Hcall, Hdata, Hdry. simpl. rewrite Hbody. simpl.
  match goal with
  | |- context [put_object w ?t ?b ?k ?d] =>
      destruct (put_object w t b k d) as [[]|e]; simpl;
      [|destruct (is_Exception e); simpl]
  end;
    eexists; (split; [reflexivity|]);
    repeat rewrite <- app_assoc; simpl; reflexivity.
Qed.

(** A failed write is logged and the location is left. *)
Lemma process_location_upload_failed (tr tr' : trace)
  (payload data : json) (city key : pystr) (body : list N) (e : exn) :
  call_current_weather w lat lon api_key (fetching name lat lon tr)
  = (Ok payload, tr') ->
  data_to_store payload name lat lon = Ok data ->
  args_dry_run a = false ->
  name = Some city ->
  utf8 (json_dumps false data) = Some body ->
  build_s3_key w S3_RAW_PREFIX name tr' = (Ok key, tr' ++ [UtcNow]) ->
  put_object w (tr' ++ [UtcNow]) (args_s3_bucket a) key body = Raise e ->
  is_Exception e = true ->
  process_location w api_key a (name, (lat, lon)) tr
  = (Ok tt,
     tr' ++ [UtcNow; PutObject (args_s3_bucket a) key body;
             Log ERROR (FailedToUpload name)]).
Proof.
  unfold fetching. intros Hcall Hdata Hdry -> Hbody Hkey Hput He.
  unfold build_s3_key, bind, ret in Hkey. injection Hkey as <-.
  unfold process_location, build_s3_key, upload_json_to_s3. run_m.
  rewrite Hcall, Hdata, Hdry. simpl. rewrite Hbody. simpl.
  simpl in Hput. rewrite Hput, He.
  now rewrite <- !app_assoc.
Qed.

(** The conditions under which the loop body returns normally: what the
    world raises is an [Exception], every response has the fields of the
    record, and a key is only built for a location that has a name. *)
Lemma process_location_returns (tr : trace) :
  (forall tr0 e, http_get w tr0 lat lon api_key = Raise e ->
                 is_Exception e = true) ->
  (forall tr0 payload, http_get w tr0 lat lon api_key = Ok payload ->
                       has_fields payload = true) ->
  (forall tr0 bucket key body e,
      put_object w tr0 bucket key body = Raise e -> is_Exception e = true) ->
  args_dry_run a = true \/ name <> None ->
  fst (process_location w api_key a (name, (lat, lon)) tr) = Ok tt.
Proof.
  intros Hget Hshape Hput Hname.
  pose proof (call_current_weather_result (fetching name lat lon tr)) as Hres.
  destruct (call_current_weather w lat lon api_key (fetching name lat lon tr))
    as [[payload|e] tr'] eqn:Hcall; simpl in Hres.
  - destruct Hres as (tr0 & Hres). apply Hshape in Hres.
    destruct (data_to_store payload name lat lon) as [data|e] eqn:Hdata.
    + unfold fetching in Hcall.
      unfold process_location, build_s3_key, upload_json_to_s3. run_m.
      rewrite Hcall, Hdata. simpl.
      destruct (args_dry_run a); [reflexivity|].
      destruct Hname as [|Hname]; [discriminate|].
      destruct name as [city|]; [|contradiction]. simpl.
      destruct (utf8 _); simpl; [|reflexivity].
      match goal with
      | |- context [put_object w ?t ?b ?k ?d] =>
          destruct (put_object w t b k d) as [[]|e] eqn:E; simpl;
          [reflexivity|]
      end.
      now rewrite (Hput _ _ _ _ _ E).
    + exfalso. unfold has_fields in Hres.
      repeat (apply andb_prop in Hres as [Hres ?]).
      repeat match goal with
             | Hs : is_some ?o = true |- _ =>
                 destruct o eqn:?; [clear Hs | discriminate Hs]
             end.
      erewrite data_to_store_present in Hdata by eassumption.
      discriminate.
  - destruct Hres as (tr0 & Hres). apply Hget in Hres.
    now rewrite (process_location_fetch_failed _ Hcall Hres).
Qed.
End Run.

(** ** The size of a dumped record *)

Lemma utf8_app (a b : pystr) :
  utf8 (a ++ b)
  = match utf8 a, utf8 b with
    | Some x, Some y => Some (x ++ y)
    | _, _ => None
    end.
Proof.
  induction a as [|c a IH]; simpl.
  - now destruct (utf8 b).
  - rewrite IH. destruct (utf8_char c), (utf8 a), (utf8 b); try reflexivity.
    now rewrite app_assoc.
Qed.

(** ASCII text is its own UTF-8 encoding. *)
Lemma utf8_ascii (s : pystr) : Forall ascii_char s -> utf8 s = Some s.
Proof.
  induction 1 as [|c s Hc _ IH]; simpl; [reflexivity|].
  rewrite IH. unfold utf8_char.
  apply N.ltb_lt in Hc. now rewrite Hc.
Qed.

Lemma tight_ascii (x : pystr) : Forall ascii_char x -> tight [] x x.
Proof.
  intros Hx bs Hbs. rewrite (utf8_ascii Hx) in Hbs.
  injection Hbs as <-. split; [apply Nat.le_refl | constructor].
Qed.

Lemma tight_app (cs1 cs2 : list N) (x1 y1 x2 y2 : pystr) :
  tight cs1 x1 y1 -> tight cs2 x2 y2 ->
  tight (cs1 ++ cs2) (x1 ++ x2) (y1 ++ y2).
Proof.
  intros H1 H2 bs Hbs. rewrite utf8_app in Hbs.
  destruct (utf8 y1) as [b1|] eqn:U1; [|discriminate].
  destruct (utf8 y2) as [b2|] eqn:U2; [|discriminate].
  injection Hbs as <-.
  destruct (H1 _ U1) as [L1 E1]. destruct (H2 _ U2) as [L2 E2].
  rewrite !length_app. split; [lia|].
  intros Heq. apply Forall_app. split; [apply E1 | apply E2]; lia.
Qed.

Lemma hex_digit_ascii (n : N) : ascii_char (hex_digit (n mod 16)).
Proof.
  unfold ascii_char, hex_digit.
  pose proof (N.mod_upper_bound n 16 ltac:(discriminate)).
  destruct (n mod 16 <? 10)%N; lia.
Qed.

Lemma u_escape_ascii (c : N) : Forall ascii_char (u_escape c).
Proof.
  unfold u_escape.
  repeat (apply Forall_cons; [|]);
    try apply hex_digit_ascii; try apply Forall_nil;
    unfold ascii_char; lia.
Qed.

Lemma short_escape_ascii (c : N) (e : pystr) :
  short_escape c = Some e -> Forall ascii_char e /\ ascii_char c.
Proof.
  unfold short_escape.
  repeat match goal with
         | |- context [N.eqb c ?k] => destruct (N.eqb_spec c k)
         end;
    intros Heq; try discriminate; injection Heq as <-; subst c;
    (split; [|unfold ascii_char; lia]);
    repeat (apply Forall_cons; [unfold ascii_char; lia|]); apply Forall_nil.
Qed.

Lemma length_u_escape (c : N) : List.length (u_escape c) = 6.
Proof. reflexivity. Qed.

Lemma utf8_one (c : N) (bs : list N) :
  utf8 [c] = Some bs -> utf8_char c = Some bs.
Proof.
  cbn [utf8]. destruct (utf8_char c); [|discriminate].
  rewrite app_nil_r. auto.
Qed.

(** The number of bytes of one code point. *)
Lemma utf8_char_length (c : N) (bs : list N) :
  utf8_char c = Some bs ->
  ((c < 128)%N /\ List.length bs = 1)
  \/ ((128 <= c < 65536)%N /\ 2 <= List.length bs <= 3)
  \/ ((65536 <= c)%N /\ List.length bs = 4).
Proof.
  unfold utf8_char.
  destruct (N.ltb_spec c 128);
    [intros [= <-]; left; split; [assumption | reflexivity]|].
  destruct (N.ltb_spec c 2048);
    [intros [= <-]; right; left; cbn [List.length]; lia|].
  destruct (_ && _); [discriminate|].
  destruct (N.ltb_spec c 65536);
    [intros [= <-]; right; left; cbn [List.length]; lia|].
  destruct (N.ltb_spec c 1114112);
    [intros [= <-]; right; right; cbn [List.length]; lia | discriminate].
Qed.

(** One character of a string: escaped, it takes at least as many
    characters as it takes bytes unescaped, and more when it is not
    ASCII. *)
Lemma tight_char (c : N) :
  tight [c] (encode_char true c) (encode_char false c).
Proof.
  assert (Hc1 : ascii_char c -> Forall ascii_char [c]).
  { intros Hc. apply Forall_cons; [exact Hc | apply Forall_nil]. }
  unfold encode_char. destruct (short_escape c) as [e|] eqn:Ee.
  - destruct (short_escape_ascii _ Ee) as [He Hc].
    intros bs Hbs. destruct (tight_ascii He Hbs) as [L _].
    split; [exact L | intros _; now apply Hc1].
  - destruct (N.ltb_spec c 32) as [Hlo|Hlo].
    + destruct (N.leb_spec 32 c); [lia|]. cbn [andb].
      destruct (N.ltb_spec c 65536); [|lia].
      intros bs Hbs.
      destruct (tight_ascii (u_escape_ascii c) Hbs) as [L _].
      split; [exact L|]. intros _. apply Hc1. unfold ascii_char. lia.
    + intros bs Hbs. apply utf8_one, utf8_char_length in Hbs.
      destruct (N.leb_spec 32 c); [|lia]. cbn [andb].
      destruct (N.leb_spec c 126).
      * cbn [List.length]. split; [lia|].
        intros _. apply Hc1. unfold ascii_char. lia.
      * destruct (N.ltb_spec c 65536);
          rewrite ?length_app, ?length_u_escape; split; lia.
Qed.

(** ASCII text before and after keeps the comparison of sizes. *)
Lemma tight_bracket (cs : list N) (opening closing x y : pystr) :
  Forall ascii_char opening -> Forall ascii_char closing ->
  tight cs x y ->
  tight cs (opening ++ x ++ closing) (opening ++ y ++ closing).
Proof.
  intros Ho Hc Hxy.
  enough (Ht : tight ([] ++ cs ++ [])
                 (opening ++ x ++ closing) (opening ++ y ++ closing))
    by (now rewrite app_nil_r in Ht).
  apply tight_app; [now apply tight_ascii|].
  apply tight_app; [exact Hxy | now apply tight_ascii].
Qed.

Lemma tight_chars (s : pystr) :
  tight s (flat_map (encode_char true) s) (flat_map (encode_char false) s).
Proof.
  induction s as [|c s IH]; simpl.
  - apply tight_ascii. constructor.
  - change (c :: s) with ([c] ++ s) at 1.
    apply tight_app; [apply tight_char | exact IH].
Qed.

Lemma quote_ascii : Forall ascii_char [34%N].
Proof. repeat constructor. Qed.

Lemma tight_basestring (s : pystr) :
  tight s (encode_basestring true s) (encode_basestring false s).
Proof.
  unfold encode_basestring.
  apply tight_bracket; try apply quote_ascii. apply tight_chars.
Qed.

Section DumpSize.
Context `{PyFloat}.

(** Induction on a value, with the hypothesis for every element of a list
    and every entry of an object. *)
Lemma json_nested_ind (Q : json -> Prop) :
  Q JNull ->
  (forall b, Q (JBool b)) ->
  (forall z, Q (JInt z)) ->
  (forall f, Q (JFloat f)) ->
  (forall s, Q (JStr s)) ->
  (forall l, Forall Q l -> Q (JList l)) ->
  (forall d, Forall (fun kv => Q (snd kv)) d -> Q (JDict d)) ->
  forall v, Q v.
Proof.
  intros Hnull Hbool Hint Hfloat Hstr Hlist Hdict.
  fix IH 1. intros [ |b|z|f|s|l|d].
  - exact Hnull.
  - apply Hbool.
  - apply Hint.
  - apply Hfloat.
  - apply Hstr.
  - apply Hlist. induction l as [|x l IHl]; constructor; [apply IH | exact IHl].
  - apply Hdict. induction d as [|[k x] d IHd]; constructor;
      [apply IH | exact IHd].
Qed.

Lemma comma_ascii : Forall ascii_char (str ", ").
Proof. repeat constructor. Qed.

(** Joining with [", "] keeps the comparison of sizes. *)
Lemma tight_join (A : Type) (cs : A -> list N) (f g : A -> pystr)
  (l : list A) :
  Forall (fun v => tight (cs v) (f v) (g v)) l ->
  tight (flat_map cs l) (join_comma (List.map f l))
    (join_comma (List.map g l)).
Proof.
  induction 1 as [|v l Hv Hl IH].
  - apply tight_ascii. constructor.
  - destruct l as [|v' l'].
    + simpl. rewrite app_nil_r. exact Hv.
    + change (flat_map cs (v :: v' :: l'))
        with (cs v ++ [] ++ flat_map cs (v' :: l')).
      change (join_comma (List.map f (v :: v' :: l')))
        with (f v ++ str ", " ++ join_comma (List.map f (v' :: l'))).
      change (join_comma (List.map g (v :: v' :: l')))
        with (g v ++ str ", " ++ join_comma (List.map g (v' :: l'))).
      apply tight_app; [exact Hv|].
      apply tight_app; [apply tight_ascii, comma_ascii | exact IH].
Qed.

Hypothesis float_repr_ascii :
  forall f : float, Forall ascii_char (float_repr f).

Lemma str_of_Z_ascii (z : Z) : Forall ascii_char (str_of_Z z).
Proof.
  eapply Forall_impl; [|apply str_of_Z_chars].
  unfold ascii_char, is_digit. intros c [->| ?]; lia.
Qed.

(** A value dumped with [ensure_ascii] has at least as many characters as
    its dump without has bytes, and more unless all its strings are
    ASCII. *)
Lemma tight_json_dumps (v : json) :
  tight (json_chars v) (json_dumps true v) (json_dumps false v).
Proof.
  induction v as [ |b|z|f|s|l IH|d IH] using json_nested_ind.
  - apply tight_ascii. repeat constructor.
  - destruct b; apply tight_ascii; repeat constructor.
  - apply tight_ascii, str_of_Z_ascii.
  - apply tight_ascii, float_repr_ascii.
  - apply tight_basestring.
  - cbn [json_dumps json_chars].
    apply tight_bracket; [repeat constructor | repeat constructor |].
    now apply tight_join.
  - cbn [json_dumps json_chars].
    apply tight_bracket; [repeat constructor | repeat constructor |].
    apply tight_join with
      (cs := fun kv : pystr * json => fst kv ++ json_chars (snd kv)).
    eapply Forall_impl; [|exact IH]. intros [k x] Hx. cbn [fst snd] in *.
    apply tight_app; [apply tight_basestring|].
    change (json_chars x) with ([] ++ json_chars x).
    apply tight_app; [apply tight_ascii; repeat constructor | exact Hx].
Qed.
Lemma encode_char_ascii (c : N) : Forall ascii_char (encode_char true c).
Proof.
  unfold encode_char. destruct (short_escape c) as [e|] eqn:Ee.
  - now destruct (short_escape_ascii _ Ee).
  - destruct (N.leb_spec 32 c); cbn [andb];
      [destruct (N.leb_spec c 126)|].
    + apply Forall_cons; [unfold ascii_char; lia | apply Forall_nil].
    + destruct (c <? 65536)%N; [apply u_escape_ascii|].
      apply Forall_app. split; apply u_escape_ascii.
    + destruct (c <? 65536)%N; [apply u_escape_ascii|].
      apply Forall_app. split; apply u_escape_ascii.
Qed.

Lemma encode_basestring_ascii (s : pystr) :
  Forall ascii_char (encode_basestring true s).
Proof.
  unfold encode_basestring.
  apply Forall_app. split; [apply quote_ascii|].
  apply Forall_app. split; [|apply quote_ascii].
  induction s as [|c s IH]; simpl; [constructor|].
  apply Forall_app. split; [apply encode_char_ascii | exact IH].
Qed.

Lemma join_comma_ascii (parts : list pystr) :
  Forall (Forall ascii_char) parts -> Forall ascii_char (join_comma parts).
Proof.
  induction 1 as [|p ps Hp Hps IH]; [constructor|].
  destruct ps as [|q ps]; [exact Hp|].
  change (join_comma (p :: q :: ps))
    with (p ++ str ", " ++ join_comma (q :: ps)).
  apply Forall_app. split; [exact Hp|].
  apply Forall_app. split; [apply comma_ascii | exact IH].
Qed.

(** The default dump is pure ASCII: its length in characters is its size
    in bytes. *)
Lemma json_dumps_ascii (v : json) : Forall ascii_char (json_dumps true v).
Proof.
  induction v as [ |b|z|f|s|l IH|d IH] using json_nested_ind.
  - repeat constructor.
  - destruct b; repeat constructor.
  - apply str_of_Z_ascii.
  - apply float_repr_ascii.
  - apply encode_basestring_ascii.
  - cbn [json_dumps].
    apply Forall_app. split; [repeat constructor|].
    apply Forall_app. split; [|repeat constructor].
    apply join_comma_ascii. now apply Forall_map.
  - cbn [json_dumps].
    apply Forall_app. split; [repeat constructor|].
    apply Forall_app. split; [|repeat constructor].
    apply join_comma_ascii. apply Forall_map.
    eapply Forall_impl; [|exact IH]. intros [k x] Hx. cbn [fst snd] in *.
    apply Forall_app. split; [apply encode_basestring_ascii|].
    apply Forall_app. split; [repeat constructor | exact Hx].
Qed.

Lemma encode_char_below_del (c : N) :
  below_del c -> encode_char false c = encode_char true c.
Proof.
  unfold below_del, encode_char. intros Hc.
  destruct (short_escape c); [reflexivity|].
  destruct (N.ltb_spec c 32).
  - destruct (N.leb_spec 32 c); [lia|]. cbn [andb].
    now destruct (N.ltb_spec c 65536); [|lia].
  - destruct (N.leb_spec 32 c); [|lia]. cbn [andb].
    now destruct (N.leb_spec c 126); [|lia].
Qed.

Lemma encode_basestring_below_del (s : pystr) :
  Forall below_del s -> encode_basestring false s = encode_basestring true s.
Proof.
  intros Hs. unfold encode_basestring. do 2 f_equal.
  induction Hs as [|c s Hc _ IH]; simpl; [reflexivity|].
  now rewrite IH, encode_char_below_del.
Qed.

(** When no string of the value has a character from DEL on, the two
    dumps are the same text. *)
Lemma json_dumps_below_del (v : json) :
  Forall below_del (json_chars v) -> json_dumps false v = json_dumps true v.
Proof.
  induction v as [ |b|z|f|s|l IH|d IH] using json_nested_ind;
    cbn [json_dumps json_chars]; intros Hv; try reflexivity.
  - now apply encode_basestring_below_del.
  - do 3 f_equal. induction IH as [|x l Hx _ IHl]; [reflexivity|].
    simpl in Hv. apply Forall_app in Hv as [Hv1 Hv2].
    simpl. now rewrite Hx, IHl.
  - do 3 f_equal. induction IH as [|[k x] d Hx _ IHd]; [reflexivity|].
    simpl in Hv. rewrite <- app_assoc in Hv.
    apply Forall_app in Hv as [Hk Hv]. apply Forall_app in Hv as [Hv1 Hv2].
    cbn [List.map fst snd] in *.
    now rewrite Hx, IHd, encode_basestring_below_del.
Qed.

(** For such a value the upload is the default dump, byte for byte. *)
Lemma upload_is_default_dump (v : json) :
  Forall below_del (json_chars v) ->
  utf8 (json_dumps false v) = Some (json_dumps true v).
Proof.
  intros Hv. rewrite json_dumps_below_del by exact Hv.
  apply utf8_ascii, json_dumps_ascii.
Qed.
End DumpSize.

(** ** The run as a whole *)

Section Orchestration.
Context `{PyFloat} `{UnicodeData}.
Variable w : world.

Lemma for_each_returns {A} (l : list A) (body : A -> M unit) :
  (forall x tr, In x l -> fst (body x tr) = Ok tt) ->
  forall tr, fst (for_each l body tr) = Ok tt.
Proof.
  induction l as [|x l IH]; intros Hbody tr; [reflexivity|].
  simpl. unfold bind. specialize (Hbody x tr (or_introl eq_refl)) as Hx.
  destruct (body x tr) as [[[]|e] tr1]; simpl in Hx; [|discriminate].
  apply IH. intros y tr' Hy. apply Hbody. now right.
Qed.

(** After a location whose body returns, the loop goes on with the
    next. *)
Lemma for_each_continues {A} (x : A) (l : list A) (body : A -> M unit)
  (tr tr' : trace) :
  body x tr = (Ok tt, tr') ->
  for_each (x :: l) body tr = for_each l body tr'.
Proof. intros Hx. simpl. unfold bind. now rewrite Hx. Qed.

(** An exception that leaves the body leaves the loop. *)
Lemma for_each_stops {A} (x : A) (l : list A) (body : A -> M unit)
  (tr tr' : trace) (e : exn) :
  body x tr = (Raise e, tr') ->
  for_each (x :: l) body tr = (Raise e, tr').
Proof. intros Hx. simpl. unfold bind. now rewrite Hx. Qed.

(** With [--dry-run] nothing is written: the whole run performs no
    [put_object] and reads the clock for no key, and the same holds for
    every location taken alone.  A location whose response was fetched
    and shaped gets instead one log record with the length of the record
    dumped by [json.dumps] with its defaults.  That number is the size in
    bytes of what a real run would upload whenever no string of the
    record has a character from U+007F on. *)
Theorem dry_run_writes_nothing
  (float_repr_ascii : forall f : float, Forall ascii_char (float_repr f))
  (key : option pystr) (a : args) :
  args_dry_run a = true ->
  Forall (fun e => is_write e = false) (snd (main w key a []))
  /\ (forall (api_key : pystr) (item : name_t * (float * float))
        (tr : trace),
        exists evs : trace,
          snd (process_location w api_key a item tr) = tr ++ evs
          /\ Forall (fun e => is_write e = false) evs)
  /\ (forall (api_key : pystr) (name : name_t) (lat lon : float)
        (payload data : json) (tr tr' : trace),
        call_current_weather w lat lon api_key (fetching name lat lon tr)
        = (Ok payload, tr') ->
        data_to_store payload name lat lon = Ok data ->
        process_location w api_key a (name, (lat, lon)) tr
        = (Ok tt,
           tr' ++ [Log INFO (DryRunWouldUpload name
                               (List.length (json_dumps true data)))])
        /\ (Forall below_del (json_chars data) ->
            reports_payload_size data
              (List.length (json_dumps true data)))).
Proof.
  intros Hdry. split; [|split].
  - destruct (@adds_only_main_dry _ _ w (fun e => is_write e = false))
      with (key := key) (a := a) (tr := @nil event)
      as (evs & Hevs & Hno); auto.
    now rewrite Hevs.
  - intros api_key item tr.
    now apply adds_only_process_location_dry.
  - intros api_key name lat lon payload data tr tr' Hcall Hdata. split.
    + now apply process_location_dry_run with (payload := payload).
    + intros Hplain. exists (json_dumps true data).
      split; [now apply upload_is_default_dump | reflexivity].
Qed.

(** C4 (as amended).  The process exits with status 1 when the API key is
    unset or empty; when neither [--locations] nor [--config] has a
    non-empty value and [--lat] or [--lon] is missing, which is the case
    of [--location] without both coordinates; when resolving the
    locations raises an exception; and when building the S3 client
    raises one, in a dry run too, before any request is sent.  Once the
    locations are resolved and the client is built it exits with status
    0, whether or not requests or writes failed, provided every response
    that arrives has the five fields of the record and, in a real run,
    every location has a name. *)
Theorem exit_status_of_run (key : option pystr) (a : args) :
  (truthy key = false -> run w key a = (1, [Log ERROR ApiKeyNotSet]))
  /\ (truthy key = true ->
      truthy (args_locations a) = false ->
      truthy (args_config a) = false ->
      args_lat a = None \/ args_lon a = None ->
      run w key a = (1, [Log ERROR LocationRequiresLatLon]))
  /\ (truthy key = true ->
      forall (e : exn) (tr : trace),
        resolve_locations w a [] = (Raise e, tr) ->
        is_Exception e = true ->
        run w key a = (1, tr))
  /\ (truthy key = true ->
      forall (locations : dict name_t (float * float)) (tr : trace)
        (e : exn),
        resolve_locations w a [] = (Ok locations, tr) ->
        boto3_client w (locations_found locations tr) = Raise e ->
        is_Exception e = true ->
        run w key a = (1, locations_found locations tr ++ [Boto3Client]))
  /\ (truthy key = true ->
      forall (locations : dict name_t (float * float)) (tr : trace),
        resolve_locations w a [] = (Ok locations, tr) ->
        boto3_client w (locations_found locations tr) = Ok tt ->
        (forall tr0 lat lon k e,
            http_get w tr0 lat lon k = Raise e -> is_Exception e = true) ->
        (forall tr0 lat lon k payload,
            http_get w tr0 lat lon k = Ok payload ->
            has_fields payload = true) ->
        (forall tr0 bucket k body e,
            put_object w tr0 bucket k body = Raise e ->
            is_Exception e = true) ->
        args_dry_run a = true
        \/ Forall (fun kv => fst kv <> None) locations ->
        fst (run w key a) = 0).
Proof.
  unfold run, main, locations_found. split; [|split; [|split; [|split]]].
  - intros Hkey. now rewrite Hkey.
  - intros Hkey Hl Hc Hcoord. rewrite Hkey. simpl.
    unfold resolve_locations. rewrite Hl, Hc. run_m.
    destruct Hcoord as [-> | ->]; [reflexivity|].
    now destruct (args_lat a).
  - intros Hkey e tr Hres He. rewrite Hkey. simpl. run_m. rewrite Hres.
    simpl. now destruct e.
  - intros Hkey locations tr e Hres Hclient He.
    rewrite Hkey. simpl. unfold bind at 1. rewrite Hres.
    unfold bind at 1. simpl. unfold bind at 1. rewrite Hclient.
    now destruct e.
  - intros Hkey locations tr Hres Hclient Hget Hshape Hput Hname.
    rewrite Hkey. simpl. unfold bind at 1. rewrite Hres.
    unfold bind at 1. simpl. unfold bind at 1. rewrite Hclient.
    unfold bind at 1.
    match goal with
    | |- context [for_each ?l ?b ?t] =>
        pose proof (@for_each_returns _ l b) as Hloop;
        specialize (fun Hb => Hloop Hb t);
        destruct (for_each l b t) as [r tr1]
    end.
    simpl in Hloop. rewrite Hloop; [reflexivity|].
    intros [name [lat lon]] tr0 Hin.
    apply process_location_returns; eauto.
    destruct Hname as [Hdry|Hall]; [now left|right].
    rewrite Forall_forall in Hall. exact (Hall _ Hin).
Qed.

End Orchestration.

(** ** The config file *)

Lemma pystr_eqb_eq (a b : pystr) : pystr_eqb a b = true <-> a = b.
Proof.
  unfold pystr_eqb. destruct (list_eq_dec N.eq_dec a b); split;
    intros; congruence.
Qed.

(** Setting a key that is not there appends it. *)
Lemma dict_set_fresh {V} (d : dict pystr V) (k : pystr) (v : V) :
  ~ In k (List.map fst d) -> dict_set pystr_eqb d k v = d ++ [(k, v)].
Proof.
  induction d as [|[k' v'] d IH]; simpl; intros Hk; [reflexivity|].
  destruct (pystr_eqb k k') eqn:E.
  - apply pystr_eqb_eq in E. subst k'. exfalso. apply Hk. now left.
  - rewrite IH; [reflexivity|]. intros Hin. apply Hk. now right.
Qed.

Section ConfigFile.
Context `{PyFloat}.
Variable w : world.

Lemma load_items_fresh (items : list (pystr * json))
  (locations : locations_t) :
  Forall2 reads_as items locations ->
  forall acc : locations_t,
    NoDup (List.map fst acc ++ List.map fst items) ->
    load_items acc items = Ok (acc ++ locations).
Proof.
  induction 1 as [|[k v] loc items locations Hread _ IH]; intros acc Hnd.
  - now rewrite app_nil_r.
  - destruct Hread as (x & y & lat & lon & Hv & Hx & Hy & ->).
    simpl in *. subst v. simpl. rewrite Hx. simpl. rewrite Hy. simpl.
    rewrite dict_set_fresh.
    + rewrite IH.
      * now rewrite <- app_assoc.
      * rewrite map_app. simpl. rewrite <- app_assoc. exact Hnd.
    + apply NoDup_remove_2 in Hnd. intros Hin. apply Hnd.
      apply in_or_app. now left.
Qed.

(** C8.  When the file holds a JSON object whose values are two-element
    arrays of values that [float] converts, as numbers are,
    [load_locations_from_file] returns the mapping of each name to its
    pair of floats, in the order of the file.  A file that holds
    [{"x": [10.0, 20.0]}] loads as [{x: (10.0, 20.0)}]. *)
Theorem load_locations_from_file_reads (path : pystr)
  (items : list (pystr * json)) (locations : locations_t) (tr : trace) :
  (read_json w tr path = Ok (JDict items) ->
   NoDup (List.map fst items) ->
   Forall2 reads_as items locations ->
   load_locations_from_file w path tr
   = (Ok locations, tr ++ [ReadJson path]))
  /\ (forall ten twenty : float,
        read_json w tr path
        = Ok (JDict [(str "x", JList [JFloat ten; JFloat twenty])]) ->
        load_locations_from_file w path tr
        = (Ok [(str "x", (ten, twenty))], tr ++ [ReadJson path])).
Proof.
  split.
  - intros Hread Hnd Hitems. unfold load_locations_from_file. run_m.
    rewrite Hread. now rewrite (load_items_fresh Hitems []).
  - intros ten twenty Hread. unfold load_locations_from_file. run_m.
    now rewrite Hread.
Qed.
End ConfigFile.

(* ===================================================================== *)
(** * The script on the inputs of the examples *)
(* ===================================================================== *)

Lemma dec1_repr_ascii (z : Z) : Forall ascii_char (dec1_repr z).
Proof.
  unfold dec1_repr. apply Forall_app. split.
  - destruct (z <? 0)%Z; repeat constructor.
  - apply Forall_app. split; [apply str_of_Z_ascii|].
    apply Forall_app. split; [repeat constructor | apply str_of_Z_ascii].
Qed.

Section Examples.
#[local] Existing Instance dec1_float.
#[local] Existing Instance caseless_unicode.

(** C1.  A response without the fields of the record stops the run.  The
    config file names two locations; the response for the first is an
    empty object, the response for the second would be complete.  The
    [KeyError] of [payload["main"]] is raised outside any [try], leaves
    [main], and the process ends with status 1: the second location is
    never requested and nothing is logged for the first. *)
Theorem shaping_error_stops_the_run :
  main world_partial (Some (str "k")) args_with_config []
  = (Raise (KeyError (Key (str "main"))),
     [ReadJson (str "locations.json");
      Log INFO (FoundLocations 2 [Some (str "a"); Some (str "b")]);
      Boto3Client;
      Log INFO (Fetching (Some (str "a")) 10%Z 20%Z);
      HttpGet 10%Z 20%Z (str "k")])
  /\ fst (run world_partial (Some (str "k")) args_with_config) = 1.
Proof. split; reflexivity. Qed.

(** The same world, second location only: it is fetched and written. *)
Example second_location_alone :
  fst (process_location world_partial (str "k") args_with_config
         (Some (str "b"), (30%Z, 40%Z)) [])
  = Ok tt.
Proof. reflexivity. Qed.

Lemma call_current_weather_retries_witness :
  call_current_weather world_flaky 454%Z (-757)%Z (str "k") []
  = (Ok clear_sky,
     [HttpGet 454%Z (-757)%Z (str "k");
      Log WARNING (RequestFailed 1 3 (RequestException 0)); Sleep 3;
      HttpGet 454%Z (-757)%Z (str "k");
      Log WARNING (RequestFailed 2 3 (RequestException 1)); Sleep 6;
      HttpGet 454%Z (-757)%Z (str "k")])
  /\ call_current_weather world_down 454%Z (-757)%Z (str "k") []
     = (Raise (RequestException 6),
        [HttpGet 454%Z (-757)%Z (str "k");
         Log WARNING (RequestFailed 1 3 (RequestException 0)); Sleep 3;
         HttpGet 454%Z (-757)%Z (str "k");
         Log WARNING (RequestFailed 2 3 (RequestException 3)); Sleep 6;
         HttpGet 454%Z (-757)%Z (str "k");
         Log WARNING (RequestFailed 3 3 (RequestException 6));
         Log ERROR (MaxRetriesReached 454%Z (-757)%Z)]).
Proof.
  split.
  - apply (proj1 (proj2 (call_current_weather_retries world_flaky
                           454%Z (-757)%Z (str "k") [])));
      reflexivity.
  - apply (proj2 (proj2 (call_current_weather_retries world_down
                           454%Z (-757)%Z (str "k") [])));
      reflexivity.
Defined.

(** The config file cannot be read: the process ends with status 1 although
    the API key is set and [--location] is not used. *)
Lemma exit_status_unreadable_config :
  ~ exit_rule_as_stated (Some (str "k")) args_with_config
      (fst (run world_down (Some (str "k")) args_with_config)).
Proof.
  intros [_ Hzero].
  assert (Hone : fst (run world_down (Some (str "k")) args_with_config) = 1)
    by reflexivity.
  rewrite Hone in Hzero. enough (1 = 0) by discriminate.
  apply Hzero. intros [Hkey | [Hloc _]]; [discriminate | now apply Hloc].
Qed.

Lemma exit_status_of_run_witness :
  run world_down None (args_ottawa false) = (1, [Log ERROR ApiKeyNotSet])
  /\ run world_down (Some (str "k")) args_location_only
     = (1, [Log ERROR LocationRequiresLatLon])
  /\ run world_down (Some (str "k")) args_with_config
     = (1, [ReadJson (str "locations.json")])
  /\ run (world_no_profile clear_sky) (Some (str "k")) (args_ottawa true)
     = (1, [Log INFO (FoundLocations 1 [Some (str "ottawa")]); Boto3Client])
  /\ fst (run world_down (Some (str "k")) (args_ottawa false)) = 0.
Proof.
  split; [|split; [|split; [|split]]].
  - now apply (proj1 (exit_status_of_run world_down None (args_ottawa false))).
  - apply (proj1 (proj2 (exit_status_of_run world_down (Some (str "k"))
                           args_location_only)));
      auto.
  - apply (proj1 (proj2 (proj2 (exit_status_of_run world_down
                                  (Some (str "k")) args_with_config))))
      with (e := OSError); reflexivity.
  - apply (proj1 (proj2 (proj2 (proj2
                   (exit_status_of_run (world_no_profile clear_sky)
                      (Some (str "k")) (args_ottawa true)))))
             eq_refl [(Some (str "ottawa"), (454%Z, (-757)%Z))] []
             (BotoCoreError 0));
      reflexivity.
  - apply (proj2 (proj2 (proj2 (proj2 (exit_status_of_run world_down
                                  (Some (str "k")) (args_ottawa false))))))
      with (locations := [(Some (str "ottawa"), (454%Z, (-757)%Z))])
           (tr := []).
    + reflexivity.
    + reflexivity.
    + reflexivity.
    + intros tr0 lat lon k e Hraise. simpl in Hraise.
      injection Hraise as <-. reflexivity.
    + intros tr0 lat lon k payload Hok. discriminate Hok.
    + intros tr0 bucket k body e Hraise. simpl in Hraise.
      injection Hraise as <-. reflexivity.
    + right. repeat constructor. discriminate.
Defined.

(** [main] is a number, not an object: [main.temp] is missing and the
    error is a [TypeError], which is not a lookup error. *)
Lemma shaping_scalar_main_is_type_error :
  has_fields scalar_main = false
  /\ ~ (exists e : exn,
          data_to_store scalar_main (Some (str "x")) 100%Z 200%Z = Raise e
          /\ is_LookupError e = true).
Proof.
  split; [reflexivity|]. intros (e & He & Hlookup).
  change (Raise TypeError = Raise e :> result json) in He.
  injection He as <-. discriminate Hlookup.
Qed.

Lemma data_to_store_shapes_witness :
  data_to_store clear_sky (Some (str "x")) 100%Z 200%Z
  = Ok (JDict [(str "city", JStr (str "x"));
               (str "lat", JFloat 100%Z);
               (str "lon", JFloat 200%Z);
               (str "temp", JFloat 215%Z);
               (str "humidity", JInt 60);
               (str "wind_speed", JFloat 32%Z);
               (str "description", JStr (str "clear sky"));
               (str "timestamp", JInt 1700000000)])
  /\ exists e : exn,
       data_to_store empty_main (Some (str "x")) 100%Z 200%Z = Raise e
       /\ is_LookupError e = true.
Proof.
  split.
  - apply (proj1 (data_to_store_shapes clear_sky (Some (str "x"))
                    100%Z 200%Z));
      reflexivity.
  - destruct (proj2 (data_to_store_shapes empty_main
                       (Some (str "x")) 100%Z 200%Z) eq_refl)
      as (e & He & _ & Hkind).
    exists e. split; [exact He | now apply Hkind].
Defined.

(** C7.  The dry run does not report the size of the payload.  For a
    response whose description is [café] the dry run writes nothing and
    logs 147 as the number of bytes it would upload, while the real run
    uploads, for the same response, a body of 143 bytes: the dry run
    measures [json.dumps(data)] where the upload sends
    [json.dumps(data, ensure_ascii=False).encode("utf-8")]. *)
Theorem dry_run_size_is_not_payload_size :
  exists (data : json) (body : list N),
    data_to_store cafe_sky (Some (str "ottawa")) 454%Z (-757)%Z = Ok data
    /\ process_location (world_of cafe_sky) (str "k") (args_ottawa true)
         (Some (str "ottawa"), (454%Z, (-757)%Z)) []
       = (Ok tt,
          [Log INFO (Fetching (Some (str "ottawa")) 454%Z (-757)%Z);
           HttpGet 454%Z (-757)%Z (str "k");
           Log INFO (DryRunWouldUpload (Some (str "ottawa")) 147)])
    /\ process_location (world_of cafe_sky) (str "k") (args_ottawa false)
         (Some (str "ottawa"), (454%Z, (-757)%Z)) []
       = (Ok tt,
          [Log INFO (Fetching (Some (str "ottawa")) 454%Z (-757)%Z);
           HttpGet 454%Z (-757)%Z (str "k");
           UtcNow;
           PutObject (str "weather-flights-data-lake-project")
             (str "raw/weather/ottawa/weather_2024-01-02_03-04-05.json")
             body;
           Log INFO
             (Uploaded (str "weather-flights-data-lake-project")
                (str "raw/weather/ottawa/weather_2024-01-02_03-04-05.json"))])
    /\ utf8 (json_dumps false data) = Some body
    /\ List.length body = 143
    /\ ~ reports_payload_size data 147.
Proof.
  eexists _, _. split; [reflexivity|]. split; [reflexivity|].
  split; [reflexivity|]. split; [reflexivity|]. split; [reflexivity|].
  intros (body & Hbody & Hsize).
  vm_compute in Hbody. injection Hbody as <-. discriminate Hsize.
Qed.

Lemma dry_run_writes_nothing_witness :
  args_dry_run (args_ottawa true) = true
  /\ Forall (fun e => is_write e = false)
       (snd (main world_flaky (Some (str "k")) (args_ottawa true) [])).
Proof.
  split; [reflexivity|].
  now apply (proj1 (dry_run_writes_nothing world_flaky dec1_repr_ascii
                      (Some (str "k")) (args_ottawa true) eq_refl)).
Defined.

Lemma load_locations_from_file_reads_witness :
  load_locations_from_file (world_of clear_sky) (str "locations.json") []
  = (Ok [(str "a", (10%Z, 20%Z)); (str "b", (30%Z, 40%Z))],
     [ReadJson (str "locations.json")])
  /\ load_locations_from_file (world_reading x_file) (str "x.json") []
     = (Ok [(str "x", (100%Z, 200%Z))], [ReadJson (str "x.json")]).
Proof.
  split.
  - apply (proj1 (load_locations_from_file_reads (world_of clear_sky)
                    (str "locations.json")
                    [(str "a", JList [JInt 1; JInt 2]);
                     (str "b", JList [JInt 3; JInt 4])]
                    [(str "a", (10%Z, 20%Z)); (str "b", (30%Z, 40%Z))] [])).
    + reflexivity.
    + repeat constructor; simpl; intuition discriminate.
    + repeat constructor;
        (eexists _, _, _, _; repeat split; reflexivity).
  - apply (proj2 (load_locations_from_file_reads (world_reading x_file)
                    (str "x.json") [] [] [])).
    reflexivity.
Defined.

Lemma build_s3_key_keeps_slashes_witness :
  In 47%N (str "a/b")
  /\ forallb is_ascii (str "a/b") = true
  /\ build_s3_key (world_of clear_sky) S3_RAW_PREFIX (Some (str "a/b")) []
     = (Ok (str "raw/weather/a/b/weather_2024-01-02_03-04-05.json"),
        [UtcNow])
  /\ count 47 S3_RAW_PREFIX + 1
     < count 47 (str "raw/weather/a/b/weather_2024-01-02_03-04-05.json")
  /\ count 47 (str "raw/weather/a/b/weather_2024-01-02_03-04-05.json")
     = count 47 S3_RAW_PREFIX + count 47 (str "a/b") + 1.
Proof.
  assert (Hslash : In 47%N (str "a/b")) by (simpl; auto).
  destruct (build_s3_key_keeps_slashes (world_of clear_sky) S3_RAW_PREFIX
              (str "a/b") [])
    as (key & Hkey & _ & Hmore & Hascii).
  destruct (Hascii eq_refl) as (_ & Hcount & _).
  cbv in Hkey. injection Hkey as <-.
  split; [exact Hslash|]. split; [reflexivity|]. split; [reflexivity|].
  split; [exact (Hmore Hslash) | exact Hcount].
Defined.

(** A dry run over two locations, the first of which cannot be fetched:
    the run ends with status 0 and one size is logged. *)
Example dry_run_with_one_location_down :
  let (code, tr) := run world_a_down (Some (str "k")) args_with_config_dry in
  code = 0
  /\ filter (fun e => match e with
                      | Log INFO (DryRunWouldUpload _ _) => true
                      | _ => false
                      end) tr
     = [Log INFO (DryRunWouldUpload (Some (str "b")) 139)]
  /\ requests tr = 4.
Proof. vm_compute. repeat split. Qed.

(** A description that is not ASCII: the dry run would report more than
    the upload has bytes. *)
Example cafe_sizes :
  let data := JDict [(str "description", JStr [99; 97; 102; 233]%N)] in
  List.length (json_dumps true data) = 28
  /\ option_map (@List.length N) (utf8 (json_dumps false data)) = Some 24.
Proof. split; reflexivity. Qed.

(** The character DEL is ASCII, and yet escaped by the default dump
    only. *)
Example del_sizes :
  let data := JDict [(str "description", JStr [127%N])] in
  List.length (json_dumps true data) = 25
  /\ option_map (@List.length N) (utf8 (json_dumps false data)) = Some 20.
Proof. split; reflexivity. Qed.
End Examples.

(* ===================================================================== *)
(** * Further properties of the script *)
(* ===================================================================== *)

(** ** The inline argument *)

Lemma split_length (sep : N) (s : pystr) :
  List.length (split sep s) = count sep s + 1.
Proof.
  unfold count. induction s as [|c s IH]; [reflexivity|].
  cbn [split count_occ]. destruct (N.eqb_spec c sep) as [->|Hc].
  - destruct (N.eq_dec sep sep); [|contradiction]. simpl. now rewrite IH.
  - destruct (N.eq_dec c sep); [contradiction|].
    destruct (split sep s) as [|t ts] eqn:Es;
      [now destruct (split_nonempty sep s)|].
    simpl in *. exact IH.
Qed.

Lemma leading_invalid_all (tokens : list pystr) :
  existsb (contains 61) tokens = false -> leading_invalid tokens = tokens.
Proof.
  induction tokens as [|t ts IH]; simpl; [reflexivity|].
  intros Hts. apply orb_false_elim in Hts as [Ht Hts].
  now rewrite Ht, IH.
Qed.

Section InlineArgument.
Context `{PyFloat}.

(** The tokens are taken from the left: each one without [=] is warned
    about, and the first one with [=] ends the loop with [ValueError]. *)
Lemma parse_pairs_trace (pairs : list pystr) :
  Forall (fun t => contains 44 t = false) pairs ->
  forall (locations : locations_t) (tr : trace),
    parse_pairs locations pairs tr
    = (if existsb (contains 61) pairs then Raise ValueError
       else Ok locations,
       tr ++ List.map (fun t => Log WARNING (SkippingInvalidToken t))
               (leading_invalid pairs)).
Proof.
  induction 1 as [|t ts Ht _ IH]; intros locations tr.
  - simpl. now rewrite app_nil_r.
  - cbn [existsb leading_invalid]. destruct (contains 61 t) eqn:Et.
    + cbn [parse_pairs]. unfold bind.
      rewrite parse_pair_with_eq by assumption.
      simpl. now rewrite app_nil_r.
    + rewrite parse_pairs_skips by assumption. rewrite IH.
      simpl. now rewrite <- app_assoc.
Qed.

(** X1.  [parse_locations_arg] reads the comma-separated tokens from the
    left.  It logs one warning for each token up to the first one that
    contains an [=], raises [ValueError] there, and the tokens behind are
    never looked at.  An argument without any [=] gives the empty mapping
    and one warning per token, which is one more than it has commas; the
    empty argument gives one warning, for the empty token. *)
Theorem parse_locations_arg_trace (s : pystr) (tr : trace) :
  parse_locations_arg s tr
  = (if contains 61 s then Raise ValueError else Ok [],
     tr ++ List.map (fun t => Log WARNING (SkippingInvalidToken t))
             (leading_invalid (split 44 s)))
  /\ (contains 61 s = false ->
      leading_invalid (split 44 s) = split 44 s
      /\ List.length (split 44 s) = count 44 s + 1).
Proof.
  split.
  - unfold parse_locations_arg.
    rewrite parse_pairs_trace by apply split_pieces.
    now rewrite split_contains.
  - intros Hs. split; [|apply split_length].
    apply leading_invalid_all. now rewrite split_contains.
Qed.
End InlineArgument.

(** ** Errors in the config file *)

Section ConfigErrors.
Context `{PyFloat}.
Variable w : world.

(** Whether an entry converts does not depend on the entries before. *)
Lemma load_item_raises (acc acc' : locations_t) (item : pystr * json)
  (e : exn) :
  load_item acc item = Raise e -> load_item acc' item = Raise e.
Proof.
  destruct item as [name coords]. unfold load_item.
  destruct (getitem coords (Index 0)) as [c0|]; simpl; [|auto].
  destruct (py_float c0); simpl; [|auto].
  destruct (getitem coords (Index 1)) as [c1|]; simpl; [|auto].
  destruct (py_float c1); simpl; [discriminate | auto].
Qed.

Lemma load_item_reads_from (acc : locations_t) (item : pystr * json)
  (loc : pystr * (float * float)) :
  reads_from item loc ->
  load_item acc item = Ok (dict_set pystr_eqb acc (fst loc) (snd loc)).
Proof.
  destruct item as [name coords].
  intros (x & y & more & lat & lon & Hc & Hx & Hy & ->).
  simpl in Hc. subst coords. unfold load_item. simpl.
  rewrite Hx. simpl. now rewrite Hy.
Qed.

(** Entries that convert are passed. *)
Lemma load_items_passes (good rest : list (pystr * json)) :
  Forall (fun item => exists loc, reads_from item loc) good ->
  forall acc : locations_t,
    exists acc' : locations_t,
      load_items acc (good ++ rest) = load_items acc' rest.
Proof.
  induction 1 as [|item good [loc Hloc] _ IH]; intros acc.
  - now exists acc.
  - cbn [app load_items]. rewrite (load_item_reads_from acc Hloc). simpl.
    apply IH.
Qed.

Lemma load_items_from (items : list (pystr * json))
  (locations : locations_t) :
  Forall2 reads_from items locations ->
  forall acc : locations_t,
    NoDup (List.map fst acc ++ List.map fst items) ->
    load_items acc items = Ok (acc ++ locations).
Proof.
  induction 1 as [|item loc items locations Hread _ IH]; intros acc Hnd.
  - now rewrite app_nil_r.
  - cbn [load_items]. rewrite (load_item_reads_from acc Hread). simpl.
    assert (Hfst : fst loc = fst item).
    { destruct Hread as (x & y & more & lat & lon & _ & _ & _ & ->).
      reflexivity. }
    rewrite dict_set_fresh.
    + rewrite IH.
      * rewrite <- app_assoc. simpl. now destruct loc.
      * rewrite map_app. simpl. rewrite <- app_assoc. simpl.
        now rewrite Hfst.
    + simpl in Hnd. apply NoDup_remove_2 in Hnd. rewrite Hfst.
      intros Hin. apply Hnd. apply in_or_app. now left.
Qed.

(** X2.  [load_locations_from_file] gives all the locations of the file
    or none.  An error of [open] or [json.load] is raised as it is; a file
    whose top level is not an object raises [AttributeError]; and the
    first entry that does not convert raises its error for the whole
    file, whatever the entries before and behind it hold.  An array with
    fewer than two elements is such an entry ([IndexError]), and so is a
    [null] coordinate ([TypeError]). *)
Theorem load_locations_from_file_errors (path : pystr) (tr : trace) :
  (forall e : exn,
      read_json w tr path = Raise e ->
      load_locations_from_file w path tr = (Raise e, tr ++ [ReadJson path]))
  /\ (forall data : json,
        read_json w tr path = Ok data ->
        is_dict data = false ->
        load_locations_from_file w path tr
        = (Raise AttributeError, tr ++ [ReadJson path]))
  /\ (forall (good rest : list (pystr * json)) (bad : pystr * json)
        (e : exn),
        read_json w tr path = Ok (JDict (good ++ bad :: rest)) ->
        Forall (fun item => exists loc, reads_from item loc) good ->
        load_item [] bad = Raise e ->
        load_locations_from_file w path tr
        = (Raise e, tr ++ [ReadJson path]))
  /\ (forall (name : pystr) (x : json),
        load_item [] (name, JList []) = Raise IndexError
        /\ (forall lat : float,
              py_float x = Ok lat ->
              load_item [] (name, JList [x]) = Raise IndexError)
        /\ load_item [] (name, JList [JNull; x]) = Raise TypeError).
Proof.
  split; [|split; [|split]].
  - intros e Hread. unfold load_locations_from_file. run_m.
    now rewrite Hread.
  - intros data Hread Hdict. unfold load_locations_from_file. run_m.
    rewrite Hread. now destruct data.
  - intros good rest bad e Hread Hgood Hbad.
    unfold load_locations_from_file. run_m. rewrite Hread.
    destruct (load_items_passes (bad :: rest) Hgood []) as [acc Hacc].
    rewrite Hacc. cbn [load_items].
    now rewrite (@load_item_raises [] acc bad e Hbad).
  - intros name x. split; [reflexivity|]. split; [|reflexivity].
    intros lat Hx. unfold load_item. simpl. now rewrite Hx.
Qed.

(** X3.  Of each array of the file only the first two elements are read:
    when every value is an array that starts with two values [float]
    converts, the file loads as the mapping of each name to that pair, in
    the order of the file, and what the arrays hold behind is ignored.  *)
Theorem load_locations_from_file_ignores_the_rest (path : pystr)
  (items : list (pystr * json)) (locations : locations_t) (tr : trace) :
  read_json w tr path = Ok (JDict items) ->
  NoDup (List.map fst items) ->
  Forall2 reads_from items locations ->
  load_locations_from_file w path tr
  = (Ok locations, tr ++ [ReadJson path])
  /\ List.map fst locations = List.map fst items.
Proof.
  intros Hread Hnd Hitems. split.
  - unfold load_locations_from_file. run_m.
    rewrite Hread. now rewrite (load_items_from Hitems []).
  - clear Hread Hnd. induction Hitems as [|item loc items locs Hr _ IH];
      [reflexivity|].
    destruct Hr as (x & y & more & lat & lon & _ & _ & _ & ->).
    simpl. now rewrite IH.
Qed.
End ConfigErrors.

(** ** More on the retry loop *)

Section RetryInvariants.
Context `{PyFloat}.
Variable w : world.
Variables (lat lon : float) (api_key : pystr).

(** Splits on the outcome of every request of a call. *)
Ltac by_outcomes :=
  unfold call_current_weather; simpl; run_m;
  repeat
    (match goal with
     | |- context [http_get w ?t lat lon api_key] =>
         let e := fresh "e" in
         let E := fresh "E" in
         destruct (http_get w t lat lon api_key) as [?|e] eqn:E; simpl;
         [|destruct (is_RequestException e) eqn:?; simpl]
     end;
     repeat rewrite <- app_assoc; simpl).

(** X4.  Whatever the server answers, one call of [call_current_weather]
    sends between one and three requests, and the time it sleeps is fixed
    by their number: nothing for one request, 3 seconds for two, 9 for
    three.  It logs one warning for each request that failed with a
    request error, so one less than the requests unless the last of three
    requests failed that way too. *)
Theorem call_current_weather_backoff (tr : trace) :
  exists evs : trace,
    snd (call_current_weather w lat lon api_key tr) = tr ++ evs
    /\ 1 <= requests evs <= 3
    /\ sleep_total evs = backoff_total (requests evs)
    /\ warnings evs
       = match fst (call_current_weather w lat lon api_key tr) with
         | Raise e =>
             if is_RequestException e then 3 else requests evs - 1
         | Ok _ => requests evs - 1
         end
    /\ (forall e : exn,
          fst (call_current_weather w lat lon api_key tr) = Raise e ->
          is_RequestException e = true -> requests evs = 3).
Proof.
  by_outcomes;
    (eexists; split; [reflexivity|]);
    (split; [unfold requests; simpl; lia|]);
    (split; [reflexivity|]);
    (split;
     [unfold warnings, requests; simpl;
      repeat match goal with
             | Hr : is_RequestException _ = _ |- _ => rewrite Hr
             end;
      reflexivity|]);
    intros e' He' Hreq;
    first [discriminate He'
          | injection He' as <-; first [reflexivity | congruence]].
Qed.

(** X5.  [call_current_weather] returns the body of its last request as
    soon as a request succeeds, with nothing logged behind it, and never
    returns [None].  What it raises is what its last request raised: at
    once when that is not a request error, and behind the third warning
    and the "max retries" record when it is one. *)
Theorem call_current_weather_outcome (tr : trace) :
  exists pre : trace,
    match call_current_weather w lat lon api_key tr with
    | (Ok payload, tr') =>
        http_get w (tr ++ pre) lat lon api_key = Ok payload
        /\ tr' = tr ++ pre ++ [HttpGet lat lon api_key]
    | (Raise e, tr') =>
        http_get w (tr ++ pre) lat lon api_key = Raise e
        /\ tr' = tr ++ pre ++ HttpGet lat lon api_key
                 :: (if is_RequestException e
                     then [Log WARNING (RequestFailed 3 MAX_RETRIES e);
                           Log ERROR (MaxRetriesReached lat lon)]
                     else [])
    end.
Proof.
  by_outcomes;
    repeat match goal with
           | Hr : is_RequestException _ = _ |- _ => rewrite ?Hr; revert Hr
           end;
    intros;
    match goal with
    | E : http_get w (tr ++ ?p) lat lon api_key = ?r
      |- exists _, http_get w _ lat lon api_key = ?r /\ _ =>
        exists p; split; [exact E | reflexivity]
    | E : http_get w tr lat lon api_key = ?r
      |- exists _, http_get w _ lat lon api_key = ?r /\ _ =>
        exists []; rewrite app_nil_r; split; [exact E | reflexivity]
    end.
Qed.
End RetryInvariants.

(** ** What can be uploaded *)

Lemma utf8_char_encodable (c : N) :
  utf8_char c = None <-> encodable c = false.
Proof.
  unfold utf8_char, encodable.
  destruct (N.ltb_spec c 128); [|destruct (N.ltb_spec c 2048)].
  - destruct (N.ltb_spec c 1114112); [|lia].
    destruct (N.leb_spec 55296 c); [lia|]. simpl. split; discriminate.
  - destruct (N.ltb_spec c 1114112); [|lia].
    destruct (N.leb_spec 55296 c); [lia|]. simpl. split; discriminate.
  - destruct ((55296 <=? c) && (c <=? 57343))%N eqn:Es.
    + rewrite andb_false_r. split; reflexivity.
    + destruct (N.ltb_spec c 65536).
      * destruct (N.ltb_spec c 1114112); [|lia]. simpl. split; discriminate.
      * destruct (N.ltb_spec c 1114112); simpl; split;
          try reflexivity; discriminate.
Qed.

Lemma utf8_fails (s : pystr) (c : N) :
  In c s -> encodable c = false -> utf8 s = None.
Proof.
  intros Hin Hc. apply utf8_char_encodable in Hc.
  induction s as [|d s IH]; [contradiction|].
  cbn [utf8]. destruct Hin as [->|Hin].
  - now rewrite Hc.
  - rewrite (IH Hin). now destruct (utf8_char d).
Qed.

Lemma utf8_succeeds (s : pystr) :
  Forall (fun c => encodable c = true) s -> exists bs, utf8 s = Some bs.
Proof.
  induction 1 as [|c s Hc _ [bs IH]]; [now exists []|].
  cbn [utf8]. rewrite IH.
  destruct (utf8_char c) as [b|] eqn:E; [now exists (b ++ bs)|].
  apply utf8_char_encodable in E. congruence.
Qed.

Lemma ascii_encodable (s : pystr) :
  Forall ascii_char s -> Forall (fun c => encodable c = true) s.
Proof.
  apply Forall_impl. unfold ascii_char, encodable. intros c Hc.
  destruct (N.ltb_spec c 1114112); [|lia].
  destruct (N.leb_spec 55296 c); [lia|]. reflexivity.
Qed.

(** A character without encoding is written as it is by the dump that
    does not escape. *)
Lemma encode_char_unencodable (c : N) :
  encodable c = false -> encode_char false c = [c].
Proof.
  unfold encodable, encode_char, short_escape. intros Hc.
  assert (Hbig : (55296 <= c)%N).
  { destruct (N.ltb_spec c 1114112); [|lia].
    destruct (N.leb_spec 55296 c); [assumption | discriminate]. }
  repeat match goal with
         | |- context [N.eqb c ?k] =>
             destruct (N.eqb_spec c k); [lia|]
         end.
  destruct (N.ltb_spec c 32); [lia | reflexivity].
Qed.

Lemma in_join_comma (c : N) (p : pystr) (parts : list pystr) :
  In p parts -> In c p -> In c (join_comma parts).
Proof.
  intros Hp Hc. induction parts as [|q parts IH]; [contradiction|].
  destruct parts as [|r parts].
  - destruct Hp as [->|[]]. exact Hc.
  - change (join_comma (q :: r :: parts))
      with (q ++ str ", " ++ join_comma (r :: parts)).
    destruct Hp as [->|Hp].
    + apply in_or_app. now left.
    + apply in_or_app. right. apply in_or_app. right. now apply IH.
Qed.

Lemma join_comma_all (Q : N -> Prop) (parts : list pystr) :
  Forall Q (str ", ") ->
  Forall (Forall Q) parts -> Forall Q (join_comma parts).
Proof.
  intros Hcomma. induction 1 as [|p ps Hp Hps IH]; [constructor|].
  destruct ps as [|q ps]; [exact Hp|].
  change (join_comma (p :: q :: ps))
    with (p ++ str ", " ++ join_comma (q :: ps)).
  apply Forall_app. split; [exact Hp|].
  apply Forall_app. split; [exact Hcomma | exact IH].
Qed.

(** Without [ensure_ascii] a character from U+0080 on is written as it
    is. *)
Lemma encode_char_not_ascii (c : N) :
  ~ ascii_char c -> encode_char false c = [c].
Proof.
  unfold ascii_char, encode_char, short_escape. intros Hc.
  repeat match goal with
         | |- context [N.eqb c ?k] =>
             destruct (N.eqb_spec c k); [lia|]
         end.
  destruct (N.ltb_spec c 32); [lia | reflexivity].
Qed.

Section DumpKeeps.
Context `{PyFloat}.

Lemma kept_in_basestring (c : N) (s : pystr) :
  In c s -> encode_char false c = [c] -> In c (encode_basestring false s).
Proof.
  intros Hin Hc. unfold encode_basestring.
  apply in_or_app. right. apply in_or_app. left.
  apply in_flat_map. exists c. split; [exact Hin|].
  rewrite Hc. now left.
Qed.

(** A character of a string of the value that is written as it is, is in
    the dump of the value. *)
Lemma kept_in_json_dumps (c : N) (v : json) :
  In c (json_chars v) -> encode_char false c = [c] ->
  In c (json_dumps false v).
Proof.
  intros Hin Hc. revert Hin.
  induction v as [ |b|z|f|s|l IH|d IH] using json_nested_ind;
    cbn [json_chars json_dumps]; try contradiction.
  - intros Hin. now apply kept_in_basestring.
  - intros Hin. apply in_flat_map in Hin as (x & Hx & Hin).
    rewrite Forall_forall in IH.
    apply in_or_app. right. apply in_or_app. left.
    apply in_join_comma with (p := json_dumps false x).
    + now apply in_map.
    + now apply IH.
  - intros Hin. apply in_flat_map in Hin as ([k x] & Hx & Hin).
    rewrite Forall_forall in IH. cbn [fst snd] in Hin.
    apply in_or_app. right. apply in_or_app. left.
    apply in_join_comma
      with (p := encode_basestring false k ++ str ": "
                 ++ json_dumps false x).
    + apply in_map_iff. now exists (k, x).
    + apply in_app_or in Hin as [Hin|Hin].
      * apply in_or_app. left. now apply kept_in_basestring.
      * apply in_or_app. right. apply in_or_app. right.
        now apply (IH (k, x)).
Qed.
End DumpKeeps.

Section UploadEncoding.
Context `{PyFloat} `{UnicodeData}.
Variable w : world.

Lemma in_encode_basestring (c : N) (s : pystr) :
  In c s -> encodable c = false -> In c (encode_basestring false s).
Proof.
  intros Hin Hc. apply kept_in_basestring; [exact Hin|].
  now apply encode_char_unencodable.
Qed.

(** A character without encoding in a string of the value is in its
    dump. *)
Lemma in_json_dumps (c : N) (v : json) :
  In c (json_chars v) -> encodable c = false -> In c (json_dumps false v).
Proof.
  intros Hin Hc. apply kept_in_json_dumps; [exact Hin|].
  now apply encode_char_unencodable.
Qed.

Hypothesis float_repr_ascii :
  forall f : float, Forall ascii_char (float_repr f).

Lemma encode_char_encodable (c : N) :
  encodable c = true ->
  Forall (fun d => encodable d = true) (encode_char false c).
Proof.
  intros Hc. unfold encode_char.
  destruct (short_escape c) as [e|] eqn:Ee.
  - apply ascii_encodable. now destruct (short_escape_ascii _ Ee).
  - destruct (c <? 32)%N.
    + apply ascii_encodable, u_escape_ascii.
    + now repeat constructor.
Qed.

Lemma encode_basestring_encodable (s : pystr) :
  Forall (fun c => encodable c = true) s ->
  Forall (fun c => encodable c = true) (encode_basestring false s).
Proof.
  intros Hs. unfold encode_basestring.
  apply Forall_app. split; [apply ascii_encodable, quote_ascii|].
  apply Forall_app. split; [|apply ascii_encodable, quote_ascii].
  induction Hs as [|c s Hc _ IH]; simpl; [constructor|].
  apply Forall_app. split; [now apply encode_char_encodable | exact IH].
Qed.

Lemma json_dumps_encodable (v : json) :
  Forall (fun c => encodable c = true) (json_chars v) ->
  Forall (fun c => encodable c = true) (json_dumps false v).
Proof.
  assert (Hlit : forall t, Forall ascii_char (str t) ->
                           Forall (fun c => encodable c = true) (str t))
    by (intros t; apply ascii_encodable).
  induction v as [ |b|z|f|s|l IH|d IH] using json_nested_ind;
    cbn [json_chars json_dumps]; intros Hv.
  - apply Hlit. repeat constructor.
  - destruct b; apply Hlit; repeat constructor.
  - apply ascii_encodable, str_of_Z_ascii.
  - apply ascii_encodable, float_repr_ascii.
  - now apply encode_basestring_encodable.
  - apply Forall_app. split; [apply Hlit; repeat constructor|].
    apply Forall_app. split; [|apply Hlit; repeat constructor].
    apply join_comma_all; [apply Hlit, comma_ascii|].
    apply Forall_map. induction IH as [|x l Hx _ IHl]; [constructor|].
    simpl in Hv. apply Forall_app in Hv as [Hv1 Hv2].
    constructor; auto.
  - apply Forall_app. split; [apply Hlit; repeat constructor|].
    apply Forall_app. split; [|apply Hlit; repeat constructor].
    apply join_comma_all; [apply Hlit, comma_ascii|].
    apply Forall_map. induction IH as [|[k x] d Hx _ IHd]; [constructor|].
    simpl in Hv. rewrite <- app_assoc in Hv.
    apply Forall_app in Hv as [Hk Hv]. apply Forall_app in Hv as [Hv1 Hv2].
    constructor; [|auto]. cbn [fst snd] in *.
    apply Forall_app. split; [now apply encode_basestring_encodable|].
    apply Forall_app. split; [apply Hlit; repeat constructor | auto].
Qed.

(** X6.  [upload_json_to_s3] builds its body exactly when no string of
    the record, key or value at any depth, holds a lone surrogate.  With
    one, encoding the dump raises [UnicodeEncodeError] before anything is
    sent; in the loop of [main] that location has its key built, nothing
    put, and one "failed to upload" record.  Without one, the first thing
    the function does is one [put_object] of the encoded dump. *)
Theorem upload_json_to_s3_encoding (bucket key : pystr) (data : json)
  (tr : trace) :
  (forall c : N,
      In c (json_chars data) -> encodable c = false ->
      upload_json_to_s3 w bucket key data tr = (Raise UnicodeEncodeError, tr))
  /\ (forall (c : N) (api_key city : pystr) (a : args) (lat lon : float)
        (payload : json) (tr0 : trace),
        In c (json_chars data) -> encodable c = false ->
        call_current_weather w lat lon api_key
          (fetching (Some city) lat lon tr0) = (Ok payload, tr) ->
        data_to_store payload (Some city) lat lon = Ok data ->
        args_dry_run a = false ->
        process_location w api_key a (Some city, (lat, lon)) tr0
        = (Ok tt, tr ++ [UtcNow; Log ERROR (FailedToUpload (Some city))]))
  /\ (Forall (fun c => encodable c = true) (json_chars data) ->
      exists (body : list N) (rest : trace),
        utf8 (json_dumps false data) = Some body
        /\ snd (upload_json_to_s3 w bucket key data tr)
           = tr ++ PutObject bucket key body :: rest).
Proof.
  split; [|split].
  - intros c Hin Hc.
    assert (Hu : utf8 (json_dumps false data) = None)
      by (apply utf8_fails with (c := c); [now apply in_json_dumps|]; exact Hc).
    unfold upload_json_to_s3. run_m. now rewrite Hu.
  - intros c api_key city a lat lon payload tr0 Hin Hc Hcall Hdata Hdry.
    assert (Hu : utf8 (json_dumps false data) = None)
      by (apply utf8_fails with (c := c); [now apply in_json_dumps|]; exact Hc).
    unfold fetching in Hcall.
    unfold process_location, build_s3_key, upload_json_to_s3. run_m.
    rewrite Hcall, Hdata, Hdry. simpl. rewrite Hu. simpl.
    now rewrite <- app_assoc.
  - intros Hall.
    destruct (utf8_succeeds (json_dumps_encodable _ Hall)) as [body Hbody].
    exists body. unfold upload_json_to_s3. run_m. rewrite Hbody. simpl.
    destruct (put_object w tr bucket key body) as [[]|e]; simpl;
      eexists; (split; [reflexivity|]);
      rewrite <- ?app_assoc; reflexivity.
Qed.
End UploadEncoding.

(** ** What the dry run measures and what the real run sends *)

(** The six-bit groups of a code point. *)
Lemma six_bits (c : N) :
  (c = 64 * (c / 64) + c mod 64 /\ c mod 64 < 64
   /\ c / 64 = 64 * (c / 4096) + (c / 64) mod 64 /\ (c / 64) mod 64 < 64
   /\ c / 4096 = 64 * (c / 262144) + (c / 4096) mod 64
   /\ (c / 4096) mod 64 < 64)%N.
Proof.
  assert (H64 : (64 <> 0)%N) by discriminate.
  change 4096%N with (64 * 64)%N. change 262144%N with (64 * 64 * 64)%N.
  rewrite <- !N.Div0.div_div.
  repeat split;
    first [apply N.div_mod; exact H64 | apply N.mod_lt; exact H64].
Qed.

Lemma utf8_decode_cons (b0 : N) (r0 : list N) :
  utf8_decode (b0 :: r0)
  = (if b0 <? 128 then option_map (cons b0) (utf8_decode r0)
     else if b0 <? 192 then None
     else if b0 <? 224 then
       match r0 with
       | b1 :: r1 =>
           option_map (cons ((b0 - 192) * 64 + (b1 - 128)))
             (utf8_decode r1)
       | _ => None
       end
     else if b0 <? 240 then
       match r0 with
       | b1 :: b2 :: r2 =>
           option_map
             (cons ((b0 - 224) * 4096 + (b1 - 128) * 64 + (b2 - 128)))
             (utf8_decode r2)
       | _ => None
       end
     else
       match r0 with
       | b1 :: b2 :: b3 :: r3 =>
           option_map
             (cons ((b0 - 240) * 262144 + (b1 - 128) * 4096
                    + (b2 - 128) * 64 + (b3 - 128)))
             (utf8_decode r3)
       | _ => None
       end)%N.
Proof. reflexivity. Qed.

(** Decoding takes the bytes of one code point back to it. *)
Lemma utf8_decode_char (c : N) (b rest : list N) (s : pystr) :
  utf8_char c = Some b ->
  utf8_decode rest = Some s ->
  utf8_decode (b ++ rest) = Some (c :: s).
Proof.
  unfold utf8_char. intros Hb Hrest.
  destruct (six_bits c) as (E0 & L0 & E1 & L1 & E2 & L2).
  revert Hb E0 L0 E1 L1 E2 L2.
  generalize ((c / 4096) mod 64)%N. generalize ((c / 64) mod 64)%N.
  generalize (c mod 64)%N (c / 64)%N (c / 4096)%N (c / 262144)%N.
  intros r0 q0 q1 q2 r1 r2 Hb E0 L0 E1 L1 E2 L2.
  assert (Hval : forall x : N, x = c ->
                   option_map (cons x) (utf8_decode rest) = Some (c :: s))
    by (intros x ->; now rewrite Hrest).
  destruct (N.ltb_spec c 128) as [H1|H1].
  { replace b with [c] by congruence.
    change ([c] ++ rest) with (c :: rest).
    rewrite utf8_decode_cons.
    destruct (N.ltb_spec c 128); [|lia]. now apply Hval. }
  destruct (N.ltb_spec c 2048) as [H2|H2].
  { replace b with [192 + q0; 128 + r0]%N by congruence.
    change ([?x; ?y] ++ rest) with (x :: y :: rest).
    rewrite utf8_decode_cons.
    destruct (N.ltb_spec (192 + q0) 128); [lia|].
    destruct (N.ltb_spec (192 + q0) 192); [lia|].
    destruct (N.ltb_spec (192 + q0) 224); [|lia].
    apply Hval. lia. }
  destruct ((55296 <=? c) && (c <=? 57343))%N; [discriminate|].
  destruct (N.ltb_spec c 65536) as [H3|H3].
  { replace b with [224 + q1; 128 + r1; 128 + r0]%N by congruence.
    change ([?x; ?y; ?z] ++ rest) with (x :: y :: z :: rest).
    rewrite utf8_decode_cons.
    destruct (N.ltb_spec (224 + q1) 128); [lia|].
    destruct (N.ltb_spec (224 + q1) 192); [lia|].
    destruct (N.ltb_spec (224 + q1) 224); [lia|].
    destruct (N.ltb_spec (224 + q1) 240); [|lia].
    apply Hval. lia. }
  destruct (N.ltb_spec c 1114112) as [H4|H4]; [|discriminate].
  replace b with [240 + q2; 128 + r2; 128 + r1; 128 + r0]%N by congruence.
  change ([?x; ?y; ?z; ?t] ++ rest) with (x :: y :: z :: t :: rest).
  rewrite utf8_decode_cons.
  destruct (N.ltb_spec (240 + q2) 128); [lia|].
  destruct (N.ltb_spec (240 + q2) 192); [lia|].
  destruct (N.ltb_spec (240 + q2) 224); [lia|].
  destruct (N.ltb_spec (240 + q2) 240); [lia|].
  apply Hval. lia.
Qed.

(** Decoding takes an encoded text back to the text. *)
Lemma utf8_decode_utf8 (s : pystr) (bs : list N) :
  utf8 s = Some bs -> utf8_decode bs = Some s.
Proof.
  revert bs. induction s as [|c s IH]; intros bs; cbn [utf8].
  - now intros [= <-].
  - destruct (utf8_char c) as [b|] eqn:Ec; [|discriminate].
    destruct (utf8 s) as [rest|]; [|discriminate].
    intros [= <-]. apply utf8_decode_char; [exact Ec | now apply IH].
Qed.

Section DumpSizes.
Context `{PyFloat} `{UnicodeData}.
Variable w : world.

(** C9.  For one record, the dry run logs the number of characters of
    [json.dumps(data)], a text of ASCII characters only, in which every
    other character is escaped; the real run uploads the UTF-8 bytes of
    [json.dumps(data, ensure_ascii=False)], a text that keeps every
    character from U+0080 on as it is, and the bytes decode back to that
    text.  The upload is never longer than the logged size, the two are
    equal only when every character of every string of the record is
    ASCII, and they are equal, the upload being the logged text byte for
    byte, when no string has a character from U+007F on. *)
Theorem dry_run_size_and_upload_size
  (float_repr_ascii : forall f : float, Forall ascii_char (float_repr f))
  (api_key : pystr) (a : args) (name : name_t) (lat lon : float)
  (payload data : json) (tr tr' : trace) :
  call_current_weather w lat lon api_key (fetching name lat lon tr)
  = (Ok payload, tr') ->
  data_to_store payload name lat lon = Ok data ->
  Forall (fun c => encodable c = true) (json_chars data) ->
  exists body : list N,
    utf8 (json_dumps false data) = Some body
    /\ utf8_decode body = Some (json_dumps false data)
    /\ (forall c : N,
          In c (json_chars data) -> ~ ascii_char c ->
          In c (json_dumps false data))
    /\ Forall ascii_char (json_dumps true data)
    /\ (args_dry_run a = true ->
        process_location w api_key a (name, (lat, lon)) tr
        = (Ok tt,
           tr' ++ [Log INFO (DryRunWouldUpload name
                               (List.length (json_dumps true data)))]))
    /\ (args_dry_run a = false ->
        forall city : pystr, name = Some city ->
        exists (key : pystr) (rest : trace),
          snd (process_location w api_key a (name, (lat, lon)) tr)
          = tr' ++ [UtcNow; PutObject (args_s3_bucket a) key body] ++ rest)
    /\ List.length body <= List.length (json_dumps true data)
    /\ (List.length body = List.length (json_dumps true data) ->
        Forall ascii_char (json_chars data))
    /\ (Forall below_del (json_chars data) -> body = json_dumps true data).
Proof.
  intros Hcall Hdata Henc.
  destruct (utf8_succeeds (json_dumps_encodable float_repr_ascii _ Henc))
    as [body Hbody].
  exists body. split; [exact Hbody|].
  split; [now apply utf8_decode_utf8|].
  split; [intros c Hin Hc; apply kept_in_json_dumps;
          [exact Hin | now apply encode_char_not_ascii]|].
  split; [now apply json_dumps_ascii|].
  split; [intros Hdry;
          now apply process_location_dry_run with (payload := payload)|].
  split.
  { intros Hdry city Hname.
    edestruct process_location_upload as (k & rest & _ & Htrace);
      [exact Hcall | exact Hdata | exact Hdry | exact Hname | exact Hbody|].
    now exists k, rest. }
  destruct (tight_json_dumps float_repr_ascii data Hbody) as [Hle Heq].
  split; [exact Hle|]. split; [exact Heq|].
  intros Hplain.
  pose proof (upload_is_default_dump float_repr_ascii data Hplain) as Hsame.
  congruence.
Qed.
End DumpSizes.

(** ** What a location can do to the run *)

Section Isolation.
Context `{PyFloat} `{UnicodeData}.
Variable w : world.
Variables (api_key : pystr) (a : args).

(** Shaping raises nothing but [KeyError], [IndexError] and
    [TypeError]. *)
Lemma data_to_store_raises (payload : json) (name : name_t)
  (lat lon : float) (e : exn) :
  data_to_store payload name lat lon = Raise e -> is_shape_error e = true.
Proof.
  intros Hraise. destruct (has_fields payload) eqn:Hf.
  - exfalso. unfold has_fields in Hf.
    repeat (apply andb_prop in Hf as [Hf ?]).
    repeat match goal with
           | Hs : is_some ?o = true |- _ =>
               destruct o eqn:?; [clear Hs | discriminate Hs]
           end.
    erewrite data_to_store_present in Hraise by eassumption.
    discriminate.
  - destruct (data_to_store_missing payload name lat lon Hf)
      as (e' & He' & Hkind & _).
    rewrite He' in Hraise. injection Hraise as <-.
    destruct Hkind as [Hl| ->]; [|reflexivity].
    now destruct e'.
Qed.

(** What leaves the body of the loop. *)
Lemma process_location_escapes (name : name_t) (lat lon : float)
  (tr : trace) (e : exn) :
  (forall tr0 e0, http_get w tr0 lat lon api_key = Raise e0 ->
                  is_Exception e0 = true) ->
  (forall tr0 bucket key body e0,
      put_object w tr0 bucket key body = Raise e0 ->
      is_Exception e0 = true) ->
  fst (process_location w api_key a (name, (lat, lon)) tr) = Raise e ->
  is_shape_error e = true
  \/ (e = AttributeError /\ name = None /\ args_dry_run a = false).
Proof.
  intros Hget Hput.
  pose proof (call_current_weather_result w api_key lat lon
                (fetching name lat lon tr)) as Hres.
  destruct (call_current_weather w lat lon api_key (fetching name lat lon tr))
    as [[payload|e0] tr'] eqn:Hcall; simpl in Hres.
  - destruct (data_to_store payload name lat lon) as [data|e0] eqn:Hdata.
    + unfold fetching in Hcall.
      unfold process_location, build_s3_key, upload_json_to_s3. run_m.
      rewrite Hcall, Hdata. simpl.
      destruct (args_dry_run a); [discriminate|].
      destruct name as [city|]; simpl.
      * destruct (utf8 _); simpl; [|discriminate].
        match goal with
        | |- context [put_object w ?t ?b ?k ?d] =>
            destruct (put_object w t b k d) as [[]|e0] eqn:E; simpl;
            [discriminate|]
        end.
        rewrite (Hput _ _ _ _ _ E). discriminate.
      * intros [= <-]. right. auto.
    + erewrite process_location_shape_failed; [|eassumption|eassumption].
      simpl. intros [= <-]. left.
      now apply data_to_store_raises with (1 := Hdata).
  - destruct Hres as (tr0 & Hres). apply Hget in Hres.
    erewrite process_location_fetch_failed; [|eassumption|eassumption].
    discriminate.
Qed.

(** X7.  When the outside world raises ordinary exceptions only, no
    error of a request, of the S3 client or of the encoding of the body
    leaves the processing of a location.  What the body of the loop can
    raise is a [KeyError], an [IndexError] or a [TypeError] of the
    shaping, or the [AttributeError] of building a key for a location
    without a name in a real run. *)
Theorem process_location_raises (name : name_t) (lat lon : float)
  (tr : trace) (e : exn) :
  (forall tr0 e0, http_get w tr0 lat lon api_key = Raise e0 ->
                  is_Exception e0 = true) ->
  (forall tr0 bucket key body e0,
      put_object w tr0 bucket key body = Raise e0 ->
      is_Exception e0 = true) ->
  fst (process_location w api_key a (name, (lat, lon)) tr) = Raise e ->
  is_shape_error e = true
  \/ (e = AttributeError /\ name = None /\ args_dry_run a = false).
Proof. apply process_location_escapes. Qed.

(** X8.  A fetch that fails costs the run that location only: when
    [call_current_weather] raises an ordinary exception, one "failed to
    fetch" record is logged behind what the call did, nothing is written,
    and the loop goes on with the next location from there. *)
Theorem failed_fetch_is_skipped (name : name_t) (lat lon : float)
  (rest : list (name_t * (float * float))) (tr tr' : trace) (e : exn) :
  call_current_weather w lat lon api_key (fetching name lat lon tr)
  = (Raise e, tr') ->
  is_Exception e = true ->
  for_each ((name, (lat, lon)) :: rest) (process_location w api_key a) tr
  = for_each rest (process_location w api_key a)
      (tr' ++ [Log ERROR (FailedToFetch name e)]).
Proof.
  intros Hcall He. apply for_each_continues.
  eapply process_location_fetch_failed; eassumption.
Qed.

(** X9.  A write that fails costs the run that location only: when
    [put_object] raises an ordinary exception for the body of a location,
    one "failed to upload" record is logged behind the attempt, no
    "uploaded" record is, and the loop goes on with the next location
    from there. *)
Theorem failed_upload_is_skipped (city : pystr) (lat lon : float)
  (rest : list (name_t * (float * float))) (tr tr' : trace)
  (payload data : json) (body : list N) (e : exn) :
  let key := S3_RAW_PREFIX ++ lower (replace 32 95 city) ++ str "/weather_"
             ++ strftime (utcnow w tr') ++ str ".json" in
  call_current_weather w lat lon api_key (fetching (Some city) lat lon tr)
  = (Ok payload, tr') ->
  data_to_store payload (Some city) lat lon = Ok data ->
  args_dry_run a = false ->
  utf8 (json_dumps false data) = Some body ->
  put_object w (tr' ++ [UtcNow]) (args_s3_bucket a) key body = Raise e ->
  is_Exception e = true ->
  for_each ((Some city, (lat, lon)) :: rest) (process_location w api_key a)
    tr
  = for_each rest (process_location w api_key a)
      (tr' ++ [UtcNow; PutObject (args_s3_bucket a) key body;
               Log ERROR (FailedToUpload (Some city))]).
Proof.
  intros key Hcall Hdata Hdry Hbody Hput He. apply for_each_continues.
  eapply process_location_upload_failed; eauto.
Qed.
End Isolation.

(** ** What a run does to the outside world *)

Section Accounting.
Context `{PyFloat} `{UnicodeData}.
Variable w : world.
Variables (api_key : pystr) (a : args).

Lemma sleep_total_app (tr evs : trace) :
  sleep_total (tr ++ evs) = sleep_total tr + sleep_total evs.
Proof.
  induction tr as [|e tr IH]; [reflexivity|].
  destruct e; simpl; rewrite IH; lia.
Qed.

Lemma puts_app (tr evs : trace) : puts (tr ++ evs) = puts tr + puts evs.
Proof. unfold puts. now rewrite filter_app, length_app. Qed.

Lemma fetch_log_app (tr evs : trace) :
  fetch_log (tr ++ evs) = fetch_log tr ++ fetch_log evs.
Proof.
  induction tr as [|e tr IH]; [reflexivity|].
  destruct e as [lv m| | | | | |]; simpl; try exact IH.
  destruct lv; try exact IH. destruct m; simpl; try exact IH.
  now rewrite IH.
Qed.

Lemma on_target_incl (coords coords' : list (float * float)) (e : event) :
  incl coords coords' ->
  on_target api_key a coords e -> on_target api_key a coords' e.
Proof.
  intros Hincl. destruct e; simpl; auto. intros [Hk Hin]. auto.
Qed.

(** Quiet events count for nothing. *)
Lemma quiet_events (coords : list (float * float)) (evs : trace) :
  forallb is_quiet evs = true ->
  requests evs = 0 /\ sleep_total evs = 0 /\ puts evs = 0
  /\ fetch_log evs = [] /\ Forall (on_target api_key a coords) evs.
Proof.
  induction evs as [|e evs IH]; simpl.
  - repeat split. constructor.
  - intros Hq. apply andb_prop in Hq as [He Hq].
    destruct (IH Hq) as (Hr & Hs & Hp & Hf & Ht).
    destruct e as [lv m| | | | | |]; try discriminate;
      [destruct lv; try discriminate|];
      unfold requests, puts in *; simpl;
      (repeat split; auto; constructor; simpl; auto).
Qed.

(** Resolving the locations only warns, logs an error or reads the
    file. *)
Lemma resolve_locations_quiet (tr : trace) :
  exists evs : trace,
    snd (resolve_locations w a tr) = tr ++ evs
    /\ forallb is_quiet evs = true.
Proof.
  unfold resolve_locations. destruct (truthy (args_locations a)).
  - unfold parse_locations_arg, bind.
    rewrite parse_pairs_trace by apply split_pieces.
    eexists. split.
    + destruct (existsb _ _); reflexivity.
    + rewrite forallb_forall. intros e He.
      apply in_map_iff in He as (t & <- & _). reflexivity.
  - destruct (truthy (args_config a)).
    + unfold load_locations_from_file. run_m.
      exists [ReadJson (text (args_config a))]. split; [|reflexivity].
      destruct (read_json w tr _) as [[ | | | | | |items]|e]; try reflexivity.
      simpl. now destruct (load_items [] items).
    + destruct (args_lat a), (args_lon a); run_m;
        first [exists []; now rewrite app_nil_r
              | now exists [Log ERROR LocationRequiresLatLon]].
Qed.

(** Splits on everything the processing of a location depends on. *)
Ltac by_cases :=
  repeat
    match goal with
    | |- context [http_get w ?t ?la ?lo ?k] =>
        destruct (http_get w t la lo k) eqn:?; simpl
    | |- context [is_RequestException ?e] =>
        destruct (is_RequestException e) eqn:?; simpl
    | |- context [is_Exception ?e] =>
        destruct (is_Exception e) eqn:?; simpl
    | |- context [data_to_store ?p ?n ?la ?lo] =>
        destruct (data_to_store p n la lo) eqn:?; simpl
    | |- context [args_dry_run a] =>
        destruct (args_dry_run a) eqn:?; simpl
    | |- context [utf8 ?x] => destruct (utf8 x) eqn:?; simpl
    | |- context [put_object w ?t ?b ?k ?d] =>
        destruct (put_object w t b k d) as [[]|] eqn:?; simpl
    end.

(** What one location adds to the trace, in every case. *)
Lemma process_location_events (name : name_t) (lat lon : float)
  (tr : trace) :
  exists evs : trace,
    snd (process_location w api_key a (name, (lat, lon)) tr)
    = tr ++ Log INFO (Fetching name lat lon) :: evs
    /\ fetch_log evs = []
    /\ 1 <= requests evs <= 3
    /\ sleep_total evs <= 9
    /\ puts evs <= 1
    /\ Forall (on_target api_key a [(lat, lon)]) evs.
Proof.
  unfold process_location, call_current_weather, build_s3_key,
    upload_json_to_s3.
  destruct name as [city|]; simpl; run_m; by_cases;
    (eexists; split;
     [repeat rewrite <- app_assoc; simpl; reflexivity|]);
    (split; [reflexivity|]);
    (split; [unfold requests; simpl; lia|]);
    (split; [simpl; lia|]);
    (split; [unfold puts; simpl; lia|]);
    repeat (apply Forall_cons;
            [simpl; repeat split; auto; eexists; reflexivity|]);
    apply Forall_nil.
Qed.

(** What the loop adds to the trace. *)
Lemma for_each_events (locations : list (name_t * (float * float))) :
  forall tr : trace,
  exists (evs : trace) (k : nat),
    snd (for_each locations (process_location w api_key a) tr) = tr ++ evs
    /\ requests evs <= 3 * List.length locations
    /\ sleep_total evs <= 9 * List.length locations
    /\ puts evs <= List.length locations
    /\ Forall (on_target api_key a (List.map snd locations)) evs
    /\ fetch_log evs = firstn k locations
    /\ (fst (for_each locations (process_location w api_key a) tr) = Ok tt
        -> k = List.length locations).
Proof.
  induction locations as [|[name [lat lon]] locations IH]; intros tr.
  - exists [], 0. simpl. rewrite app_nil_r. repeat split; auto.
  - destruct (process_location_events name lat lon tr)
      as (evs1 & Htr & Hf & Hr & Hs & Hp & Ht).
    assert (Ht' : Forall (on_target api_key a
                            (List.map snd ((name, (lat, lon)) :: locations)))
                    evs1).
    { eapply Forall_impl; [|exact Ht]. intros e. apply on_target_incl.
      intros c [<-|[]]. now left. }
    cbn [for_each]. unfold bind.
    destruct (process_location w api_key a (name, (lat, lon)) tr)
      as [[[]|e] tr1]; simpl in Htr; subst tr1.
    + destruct (IH (tr ++ Log INFO (Fetching name lat lon) :: evs1))
        as (evs2 & k & Htr2 & Hr2 & Hs2 & Hp2 & Ht2 & Hf2 & Hk2).
      exists (Log INFO (Fetching name lat lon) :: evs1 ++ evs2), (S k).
      rewrite Htr2, <- app_assoc. simpl.
      change (Log INFO (Fetching name lat lon) :: evs1 ++ evs2)
        with ([Log INFO (Fetching name lat lon)] ++ evs1 ++ evs2).
      rewrite !requests_app, !sleep_total_app, !puts_app, !fetch_log_app.
      rewrite Hf, Hf2. unfold requests at 1, puts at 1. simpl.
      repeat split; try lia.
      * constructor; [exact I|]. apply Forall_app. split; [exact Ht'|].
        eapply Forall_impl; [|exact Ht2]. intros e. apply on_target_incl.
        intros c Hc. now right.
      * intros Hok. now rewrite Hk2.
    + exists (Log INFO (Fetching name lat lon) :: evs1), 1.
      change (Log INFO (Fetching name lat lon) :: evs1)
        with ([Log INFO (Fetching name lat lon)] ++ evs1).
      rewrite !requests_app, !sleep_total_app, !puts_app, !fetch_log_app.
      rewrite Hf. unfold requests at 1, puts at 1. simpl.
      repeat split; try lia; try discriminate.
      constructor; [exact I | exact Ht'].
Qed.

End Accounting.

Section RunAccounting.
Context `{PyFloat} `{UnicodeData}.
Variable w : world.
Variable a : args.

(** What the whole run adds to the trace. *)
Lemma main_events (key : option pystr) :
  let locations := resolved_locations w a in
  let tr := snd (main w key a []) in
  requests tr <= 3 * List.length locations
  /\ sleep_total tr <= 9 * List.length locations
  /\ puts tr <= List.length locations
  /\ Forall (on_target (text key) a (List.map snd locations)) tr
  /\ exists k : nat,
       fetch_log tr = firstn k locations
       /\ (fst (main w key a []) = Ok tt -> k = List.length locations).
Proof.
  intros locations tr. subst locations tr.
  unfold resolved_locations, main. destruct (truthy key); cbn [negb].
  - unfold bind, emit.
    destruct (resolve_locations_quiet w a []) as (evs0 & Hevs0 & Hq).
    destruct (resolve_locations w a []) as [[locs|e] tr0];
      simpl in Hevs0; subst tr0; cbn [fst snd].
    + destruct (quiet_events (text key) a (List.map snd locs) evs0 Hq)
        as (Hr0 & Hs0 & Hp0 & Hf0 & Ht0).
      destruct (boto3_client w _) as [[]|e0]; cbn [fst snd].
      * destruct (for_each_events w (text key) a locs
                    ((evs0 ++ [Log INFO (FoundLocations (List.length locs)
                                           (List.map fst locs))])
                     ++ [Boto3Client]))
          as (evs & k & Htr & Hr & Hs & Hp & Ht & Hf & Hk).
        destruct (for_each locs _ _) as [[[]|e] tr1];
          simpl in Htr; subst tr1; cbn [fst snd] in *;
          rewrite ?requests_app, ?sleep_total_app, ?puts_app,
            ?fetch_log_app;
          rewrite Hr0, Hs0, Hp0, Hf0; unfold requests, puts in *;
          simpl; rewrite ?app_nil_r, ?Nat.add_0_r;
          (split; [lia|]); (split; [lia|]); (split; [lia|]);
          (split;
           [repeat (apply Forall_app; split); auto; repeat constructor
           |exists k; split; [exact Hf | first [exact Hk | discriminate]]]).
      * rewrite ?requests_app, ?sleep_total_app, ?puts_app, ?fetch_log_app.
        rewrite Hr0, Hs0, Hp0, Hf0. unfold requests, puts. simpl.
        (split; [lia|]); (split; [lia|]); (split; [lia|]).
        split.
        -- repeat (apply Forall_app; split); auto; repeat constructor.
        -- exists 0. split; [reflexivity | discriminate].
    + destruct (quiet_events (text key) a [] evs0 Hq)
        as (Hr0 & Hs0 & Hp0 & Hf0 & Ht0).
      simpl. rewrite Hr0, Hs0, Hp0, Hf0. repeat split; auto.
      exists 0. split; [reflexivity | discriminate].
  - run_m. unfold requests, puts. simpl.
    repeat split; try lia; [repeat constructor|].
    exists 0. split; [reflexivity | discriminate].
Qed.

(** X10.  A run is bounded by the number of locations it resolved: it
    sends at most three requests for each of them, sleeps at most nine
    seconds for each, and puts at most one object for each.  A run whose
    locations do not resolve sends nothing and writes nothing. *)
Theorem run_stays_within_bounds (key : option pystr) :
  let n := List.length (resolved_locations w a) in
  let tr := snd (main w key a []) in
  requests tr <= 3 * n /\ sleep_total tr <= 9 * n /\ puts tr <= n.
Proof.
  destruct (main_events key) as (Hr & Hs & Hp & _). cbv zeta. auto.
Qed.

(** X11.  A run reaches nothing but its own targets: every request
    carries the API key of the environment and the coordinates of one of
    the resolved locations, and every object is put in the bucket of the
    arguments, under a key that starts with [raw/weather/], and never in a
    dry run. *)
Theorem run_stays_on_target (key : option pystr) :
  Forall (on_target (text key) a (List.map snd (resolved_locations w a)))
    (snd (main w key a [])).
Proof.
  destruct (main_events key) as (_ & _ & _ & Ht & _). exact Ht.
Qed.

(** X12.  The locations are processed one after the other in the order of
    the mapping: the "Fetching" records of a run name a leading part of
    the resolved locations, in their order and once each, and all of them
    when [main] returns. *)
Theorem locations_in_order (key : option pystr) :
  let tr := snd (main w key a []) in
  (exists k : nat, fetch_log tr = firstn k (resolved_locations w a))
  /\ (fst (main w key a []) = Ok tt ->
      fetch_log tr = resolved_locations w a).
Proof.
  destruct (main_events key) as (_ & _ & _ & _ & k & Hf & Hk).
  cbv zeta. split; [now exists k|].
  intros Hok. rewrite Hf, (Hk Hok). apply firstn_all.
Qed.
End RunAccounting.

(** ** Names and times in the key *)

Lemma safe_char_idempotent (c : N) : safe_char (safe_char c) = safe_char c.
Proof.
  unfold safe_char, ascii_lower.
  destruct (N.eqb_spec c 32) as [->|Hc]; [reflexivity|].
  destruct (N.leb_spec 65 c), (N.leb_spec c 90); cbn [andb];
    repeat match goal with
           | |- context [N.eqb ?x ?y] => destruct (N.eqb_spec x y); try lia
           | |- context [N.leb ?x ?y] => destruct (N.leb_spec x y); try lia
           end;
    cbn [andb]; try reflexivity; lia.
Qed.

Lemma safe_char_is_safe (c : N) : is_safe_char (safe_char c).
Proof.
  unfold is_safe_char, safe_char, ascii_lower.
  destruct (N.eqb_spec c 32) as [->|Hc]; [split; lia|].
  destruct (N.leb_spec 65 c), (N.leb_spec c 90); cbn [andb]; split; lia.
Qed.

Lemma safe_char_ascii (c : N) :
  is_ascii c = true -> is_ascii (safe_char c) = true.
Proof.
  unfold is_ascii, safe_char, ascii_lower. intros Hc.
  apply N.ltb_lt in Hc. apply N.ltb_lt.
  destruct (N.eqb_spec c 32); [lia|].
  destruct (N.leb_spec 65 c), (N.leb_spec c 90); cbn [andb]; lia.
Qed.

Lemma app_eq_by_length {A} (x x' y y' : list A) :
  List.length x = List.length x' -> x ++ y = x' ++ y' -> x = x' /\ y = y'.
Proof.
  revert x'. induction x as [|c x IH]; intros [|c' x'] Hlen Heq;
    try discriminate; [now split|].
  simpl in *. injection Heq as -> Heq. injection Hlen as Hlen.
  destruct (IH x' Hlen Heq) as [-> ->]. now split.
Qed.

Lemma all_from_spec (f : Z -> bool) (n : nat) (z0 z : Z) :
  all_from f n z0 = true -> (z0 <= z < z0 + Z.of_nat n)%Z -> f z = true.
Proof.
  revert z0. induction n as [|n IH]; intros z0 Hall Hz; [lia|].
  simpl in Hall. apply andb_prop in Hall as [Hz0 Hall].
  destruct (Z.eq_dec z z0) as [->|Hne]; [exact Hz0|].
  apply (IH (Z.succ z0) Hall). lia.
Qed.

Lemma nat_of_digits_Z (s : pystr) :
  Z.of_nat (nat_of_digits s) = Z_of_digits s.
Proof.
  unfold nat_of_digits, Z_of_digits.
  assert (Hacc : forall acc : nat,
             Z.of_nat
               (fold_left (fun acc c => 10 * acc + (N.to_nat c - 48)) s acc)
             = fold_left (fun acc c => (10 * acc + Z.of_N (c - 48))%Z) s
                 (Z.of_nat acc)).
  { induction s as [|c s IH]; intros acc; [reflexivity|].
    cbn [fold_left]. rewrite IH. f_equal. lia. }
  exact (Hacc 0).
Qed.

(** A year is written without padding: its digits read back as the year
    and do not start with a zero, and there are four of them from the
    year 1000 on. *)
Lemma year_text (y : nat) :
  (1 <= Z.of_nat y <= 9999)%Z ->
  nat_of_digits (str_of_nat y) = y
  /\ hd 48%N (str_of_nat y) <> 48%N
  /\ ((1000 <= Z.of_nat y)%Z -> List.length (str_of_nat y) = 4).
Proof.
  intros Hy.
  assert (Hall : all_from
                   (fun z => (Z_of_digits (str_of_Z z) =? z)%Z
                             && negb (hd 48 (str_of_Z z) =? 48)%N
                             && ((z <? 1000)%Z
                                 || (List.length (str_of_Z z) =? 4)))
                   (99 * 101) 1 = true)
    by (vm_compute; reflexivity).
  assert (Hz := @all_from_spec _ _ _ (Z.of_nat y) Hall).
  cbv beta in Hz. rewrite Nat2Z.inj_mul in Hz.
  apply andb_prop in Hz as [Hz H4]; [|simpl Z.of_nat; lia].
  apply andb_prop in Hz as [Hread Hhd].
  apply Z.eqb_eq in Hread. apply negb_true_iff, N.eqb_neq in Hhd.
  split; [apply Nat2Z.inj; now rewrite nat_of_digits_Z|].
  split; [exact Hhd|]. intros Hbig.
  apply orb_prop in H4 as [H4|H4]; [apply Z.ltb_lt in H4; lia|].
  now apply Nat.eqb_eq in H4.
Qed.

(** A year of four digits is written on four characters, and read back
    from them. *)
Lemma year_digits (y : nat) :
  (1000 <= Z.of_nat y <= 9999)%Z ->
  List.length (str_of_nat y) = 4 /\ nat_of_digits (str_of_nat y) = y.
Proof.
  intros Hy. destruct (@year_text y) as (Hread & _ & Hlen); [lia|].
  split; [apply Hlen; lia | exact Hread].
Qed.

(** A field below 100 is written on two characters, and read back from
    them. *)
Lemma two_digits (n : nat) :
  n < 100 ->
  List.length (zero_pad 2 n) = 2 /\ nat_of_digits (zero_pad 2 n) = n.
Proof.
  intros Hn.
  assert (Hall : forallb
                   (fun n => (List.length (zero_pad 2 n) =? 2)
                             && (nat_of_digits (zero_pad 2 n) =? n))
                   (seq 0 100) = true)
    by (vm_compute; reflexivity).
  rewrite forallb_forall in Hall.
  assert (Hin : In n (seq 0 100)) by (apply in_seq; lia).
  specialize (Hall n Hin). apply andb_prop in Hall as [H2 Hn'].
  apply Nat.eqb_eq in H2. apply Nat.eqb_eq in Hn'. now split.
Qed.

Lemma strftime_length (dt : datetime) :
  valid_datetime dt -> List.length (strftime dt) = 19.
Proof.
  intros (Hy & Hmo & Hd & Hh & Hmi & Hs). unfold strftime.
  rewrite !length_app.
  destruct (@year_digits _ Hy) as [-> _].
  destruct (@two_digits (month dt)) as [-> _]; [lia|].
  destruct (@two_digits (day dt)) as [-> _]; [lia|].
  destruct (@two_digits (hour dt)) as [-> _]; [lia|].
  destruct (@two_digits (minute dt)) as [-> _]; [lia|].
  destruct (@two_digits (second dt)) as [-> _]; [lia|].
  reflexivity.
Qed.

(** Two valid times with the same timestamp are in the same second. *)
Lemma strftime_injective (dt1 dt2 : datetime) :
  valid_datetime dt1 -> valid_datetime dt2 ->
  strftime dt1 = strftime dt2 -> same_second dt1 dt2.
Proof.
  intros (Hy1 & Hmo1 & Hd1 & Hh1 & Hmi1 & Hs1)
         (Hy2 & Hmo2 & Hd2 & Hh2 & Hmi2 & Hs2).
  unfold strftime, same_second.
  destruct (@year_digits _ Hy1) as [Ly1 Vy1].
  destruct (@year_digits _ Hy2) as [Ly2 Vy2].
  destruct (@two_digits (month dt1)) as [Lmo1 Vmo1]; [lia|].
  destruct (@two_digits (month dt2)) as [Lmo2 Vmo2]; [lia|].
  destruct (@two_digits (day dt1)) as [Ld1 Vd1]; [lia|].
  destruct (@two_digits (day dt2)) as [Ld2 Vd2]; [lia|].
  destruct (@two_digits (hour dt1)) as [Lh1 Vh1]; [lia|].
  destruct (@two_digits (hour dt2)) as [Lh2 Vh2]; [lia|].
  destruct (@two_digits (minute dt1)) as [Lmi1 Vmi1]; [lia|].
  destruct (@two_digits (minute dt2)) as [Lmi2 Vmi2]; [lia|].
  destruct (@two_digits (second dt1)) as [Ls1 Vs1]; [lia|].
  destruct (@two_digits (second dt2)) as [Ls2 Vs2]; [lia|].
  intros Heq.
  apply app_eq_by_length in Heq as [Ey Heq]; [|congruence].
  injection Heq as Heq.
  apply app_eq_by_length in Heq as [Emo Heq]; [|congruence].
  injection Heq as Heq.
  apply app_eq_by_length in Heq as [Ed Heq]; [|congruence].
  injection Heq as Heq.
  apply app_eq_by_length in Heq as [Eh Heq]; [|congruence].
  injection Heq as Heq.
  apply app_eq_by_length in Heq as [Emi Es]; [|congruence].
  injection Es as Es.
  repeat split; congruence.
Qed.

Section KeyParts.
Context `{PyFloat} `{UnicodeData}.
Variable w : world.

Lemma safe_city_of_ascii (city : pystr) :
  forallb is_ascii city = true ->
  lower (replace 32 95 city) = List.map safe_char city.
Proof.
  intros Hascii. rewrite lower_of_ascii by now apply replace_ascii.
  unfold replace. rewrite map_map. apply map_ext. intros c.
  unfold safe_char. now destruct (N.eqb c 32).
Qed.

(** X13.  For an ASCII city name the segment of the key that stands for
    the city has the length of the name, no space and no capital letter,
    and is itself a name that [build_s3_key] leaves as it is: the name and
    its segment get the same key from the same clock, so names that differ
    only by the case of their letters or by spaces against underscores
    write to the same object. *)
Theorem build_s3_key_normalises (prefix city : pystr) (tr : trace) :
  forallb is_ascii city = true ->
  let segment := lower (replace 32 95 city) in
  List.length segment = List.length city
  /\ Forall is_safe_char segment
  /\ lower (replace 32 95 segment) = segment
  /\ build_s3_key w prefix (Some segment) tr
     = build_s3_key w prefix (Some city) tr.
Proof.
  intros Hascii segment. subst segment.
  rewrite (safe_city_of_ascii _ Hascii).
  assert (Hseg : forallb is_ascii (List.map safe_char city) = true).
  { rewrite forallb_forall in *. intros c Hc.
    apply in_map_iff in Hc as (d & <- & Hd). now apply safe_char_ascii, Hascii. }
  assert (Hfix : lower (replace 32 95 (List.map safe_char city))
                 = List.map safe_char city).
  { rewrite (safe_city_of_ascii _ Hseg), map_map.
    apply map_ext. intros c. apply safe_char_idempotent. }
  split; [apply length_map|]. split; [|split].
  - apply Forall_forall. intros c Hc.
    apply in_map_iff in Hc as (d & <- & _). apply safe_char_is_safe.
  - exact Hfix.
  - unfold build_s3_key, bind, ret.
    now rewrite Hfix, (safe_city_of_ascii _ Hascii).
Qed.

(** X14.  When the clock shows valid times from the year 1000 on, the
    timestamp of a key has 19 characters, and two keys built for the same
    prefix and city are the same exactly when the two clock readings fall
    in the same second: readings in different seconds never name the same
    object. *)
Theorem build_s3_key_by_second (prefix city : pystr) (tr1 tr2 : trace) :
  valid_datetime (utcnow w tr1) -> valid_datetime (utcnow w tr2) ->
  List.length (strftime (utcnow w tr1)) = 19
  /\ (fst (build_s3_key w prefix (Some city) tr1)
      = fst (build_s3_key w prefix (Some city) tr2)
      <-> same_second (utcnow w tr1) (utcnow w tr2)).
Proof.
  intros Hv1 Hv2. split; [now apply strftime_length|].
  unfold build_s3_key, bind, ret. cbn [fst]. split.
  - intros Hkey. injection Hkey as Hkey.
    apply app_inv_head in Hkey. apply app_inv_head in Hkey.
    apply (@app_inv_head _ (str "/weather_")) in Hkey.
    apply app_inv_tail in Hkey.
    now apply strftime_injective.
  - intros (Ey & Emo & Ed & Eh & Emi & Es). unfold strftime.
    now rewrite Ey, Emo, Ed, Eh, Emi, Es.
Qed.
End KeyParts.

(** ** The layout of the key *)

Section KeyLayout.
Context `{PyFloat} `{UnicodeData}.
Variable w : world.


End KeyLayout.

(** ** The exit status *)

Lemma getitem_raises {F : PyFloat} (v : json) (k : subscript) (e : exn) :
  getitem v k = Raise e -> is_Exception e = true.
Proof.
  destruct v, k; simpl;
    repeat match goal with
           | |- context [match ?o with Some _ => _ | None => _ end] =>
               destruct o
           end;
    intros [= <-]; reflexivity.
Qed.

Lemma py_float_raises {F : PyFloat} (v : json) (e : exn) :
  py_float v = Raise e -> is_Exception e = true.
Proof.
  destruct v; simpl;
    repeat match goal with
           | |- context [match ?o with Some _ => _ | None => _ end] =>
               destruct o
           end;
    intros [= <-]; reflexivity.
Qed.

Section ExitStatus.
Context `{PyFloat} `{UnicodeData}.
Variable w : world.
Variable a : args.

Lemma load_items_raises (items : list (pystr * json)) :
  forall (acc : locations_t) (e : exn),
    load_items acc items = Raise e -> is_Exception e = true.
Proof.
  induction items as [|[name coords] items IH]; intros acc e;
    [discriminate|].
  cbn [load_items]. unfold load_item.
  destruct (getitem coords (Index 0)) as [c0|e0] eqn:E0; simpl;
    [|intros [= <-]; now apply getitem_raises in E0].
  destruct (py_float c0) as [x|e0] eqn:F0; simpl;
    [|intros [= <-]; now apply py_float_raises in F0].
  destruct (getitem coords (Index 1)) as [c1|e0] eqn:E1; simpl;
    [|intros [= <-]; now apply getitem_raises in E1].
  destruct (py_float c1) as [y|e0] eqn:F1; simpl;
    [|intros [= <-]; now apply py_float_raises in F1].
  apply IH.
Qed.

(** What resolving the locations raises is [SystemExit(1)] or an ordinary
    exception. *)
Lemma resolve_locations_raises (tr : trace) (e : exn) :
  (forall tr0 path e0, read_json w tr0 path = Raise e0 ->
                       is_Exception e0 = true) ->
  fst (resolve_locations w a tr) = Raise e ->
  e = SystemExit 1 \/ is_Exception e = true.
Proof.
  intros Hread. unfold resolve_locations.
  destruct (truthy (args_locations a)).
  - unfold parse_locations_arg, bind.
    rewrite parse_pairs_trace by apply split_pieces.
    destruct (existsb _ _); simpl; [|discriminate].
    intros [= <-]. now right.
  - destruct (truthy (args_config a)).
    + unfold load_locations_from_file. run_m.
      destruct (read_json w tr _) as [data|e0] eqn:Er; simpl;
        [|intros [= <-]; right; now apply Hread in Er].
      destruct data as [ | | | | | |items]; simpl;
        try (intros [= <-]; now right).
      destruct (load_items [] items) as [l|e0] eqn:El; simpl;
        [discriminate|].
      intros [= <-]. right. now apply load_items_raises in El.
    + destruct (args_lat a), (args_lon a); run_m;
        first [discriminate | intros [= <-]; now left].
Qed.

Lemma for_each_raises {A} (l : list A) (body : A -> M unit) :
  forall (tr : trace) (e : exn),
    fst (for_each l body tr) = Raise e ->
    exists (x : A) (tr0 : trace), In x l /\ fst (body x tr0) = Raise e.
Proof.
  induction l as [|x l IH]; intros tr e; [discriminate|].
  cbn [for_each]. unfold bind.
  destruct (body x tr) as [[[]|e0] tr1] eqn:Ex.
  - intros Hl. destruct (IH _ _ Hl) as (y & tr0 & Hy & Hb).
    exists y, tr0. split; [now right | exact Hb].
  - simpl. intros [= <-]. exists x, tr. split; [now left|].
    now rewrite Ex.
Qed.

(** What leaves [main] is [SystemExit(1)] or an ordinary exception. *)
Lemma main_raises (key : option pystr) (e : exn) :
  (forall tr0 lat lon k e0, http_get w tr0 lat lon k = Raise e0 ->
                            is_Exception e0 = true) ->
  (forall tr0 bucket k body e0,
      put_object w tr0 bucket k body = Raise e0 ->
      is_Exception e0 = true) ->
  (forall tr0 path e0, read_json w tr0 path = Raise e0 ->
                       is_Exception e0 = true) ->
  (forall tr0 e0, boto3_client w tr0 = Raise e0 -> is_Exception e0 = true) ->
  fst (main w key a []) = Raise e ->
  e = SystemExit 1 \/ is_Exception e = true.
Proof.
  intros Hget Hput Hread Hclient. unfold main.
  destruct (truthy key); cbn [negb].
  - unfold bind at 1.
    pose proof (@resolve_locations_raises [] e Hread) as Hres.
    destruct (resolve_locations w a []) as [[locs|e0] tr0]; cbn [fst] in *;
      [|intros [= <-]; now apply Hres].
    unfold bind at 1, emit at 1. unfold bind at 1.
    destruct (boto3_client w _) as [[]|e0] eqn:Ec; cbn [fst];
      [|intros [= <-]; right; now apply Hclient in Ec].
    unfold bind at 1.
    pose proof (@for_each_raises _ locs (process_location w (text key) a)
                  ((tr0 ++ [Log INFO (FoundLocations (List.length locs)
                                        (List.map fst locs))])
                   ++ [Boto3Client]) e) as Hloop.
    destruct (for_each locs _ _) as [[[]|e0] tr1]; cbn [fst] in *;
      [discriminate|].
    intros [= <-]. destruct (Hloop eq_refl) as ([name [lat lon]] & tr2 & _ & Hb).
    right.
    destruct (@process_location_escapes _ _ w (text key) a name lat lon
                tr2 e0 (fun tr3 e1 => Hget tr3 lat lon (text key) e1)
                Hput Hb) as [Hs|[-> _]]; [|reflexivity].
    now destruct e0.
  - run_m. intros [= <-]. now left.
Qed.

(** X15.  When the outside world raises ordinary exceptions only, the
    building of the S3 client included, the process ends with status 0 or
    with status 1, and with status 0 exactly when [main] returns: no
    other status comes out of the script. *)
Theorem exit_status_is_zero_or_one (key : option pystr) :
  (forall tr0 lat lon k e0, http_get w tr0 lat lon k = Raise e0 ->
                            is_Exception e0 = true) ->
  (forall tr0 bucket k body e0,
      put_object w tr0 bucket k body = Raise e0 ->
      is_Exception e0 = true) ->
  (forall tr0 path e0, read_json w tr0 path = Raise e0 ->
                       is_Exception e0 = true) ->
  (forall tr0 e0, boto3_client w tr0 = Raise e0 -> is_Exception e0 = true) ->
  (fst (run w key a) = 0 \/ fst (run w key a) = 1)
  /\ (fst (run w key a) = 0 <-> fst (main w key a []) = Ok tt).
Proof.
  intros Hget Hput Hread Hclient.
  pose proof (fun e => @main_raises key e Hget Hput Hread Hclient)
    as Hraise.
  unfold run. destruct (main w key a []) as [[[]|e] tr]; cbn [fst] in *.
  - split; [now left|]. split; reflexivity.
  - destruct (Hraise e eq_refl) as [->|He].
    + split; [now right|]. split; discriminate.
    + destruct e; try discriminate He;
        (split; [now right|]; split; discriminate).
Qed.
End ExitStatus.

(** ** A location without a name *)

Section Nameless.
Context `{PyFloat} `{UnicodeData}.
Variable w : world.
Variable a : args.

#[local] Arguments call_current_weather : simpl never.

(** X16.  An empty value of [--locations] or [--config] counts as not
    given: with both coordinates the run then has one location whose name
    is [None], although [--location] was not used.  Once the S3 client is
    built and the weather fetched, its record has the city [null].  A dry
    run logs the size of that record and ends normally; a real run
    requests the weather, reads the clock and then fails with
    [AttributeError] while it builds the key, outside any [try], so
    [main] is left with nothing written and the status is 1. *)
Theorem nameless_location (key : option pystr) (lat lon : float) :
  truthy key = true ->
  truthy (args_locations a) = false ->
  truthy (args_config a) = false ->
  args_location a = None ->
  args_lat a = Some lat -> args_lon a = Some lon ->
  resolve_locations w a [] = (Ok [(None, (lat, lon))], [])
  /\ forall (payload data : json) (tr' : trace),
       boto3_client w [Log INFO (FoundLocations 1 [None])] = Ok tt ->
       call_current_weather w lat lon (text key)
         [Log INFO (FoundLocations 1 [None]); Boto3Client;
          Log INFO (Fetching None lat lon)]
       = (Ok payload, tr') ->
       data_to_store payload None lat lon = Ok data ->
       field data (str "city") = Some JNull
       /\ (args_dry_run a = true ->
           main w key a []
           = (Ok tt,
              tr' ++ [Log INFO (DryRunWouldUpload None
                                  (List.length (json_dumps true data)));
                      Log INFO JobComplete]))
       /\ (args_dry_run a = false ->
           main w key a [] = (Raise AttributeError, tr' ++ [UtcNow])
           /\ fst (run w key a) = 1
           /\ puts (tr' ++ [UtcNow]) = puts tr').
Proof.
  intros Hkey Hl Hc Hloc Hlat Hlon.
  assert (Hres : resolve_locations w a [] = (Ok [(None, (lat, lon))], [])).
  { unfold resolve_locations. now rewrite Hl, Hc, Hlat, Hlon, Hloc. }
  split; [exact Hres|]. intros payload data tr' Hclient Hcall Hdata.
  split; [|split].
  - unfold data_to_store in Hdata.
    repeat match type of Hdata with
           | context [getitem ?v ?k] =>
               destruct (getitem v k); simpl in Hdata; try discriminate
           end.
    injection Hdata as <-. reflexivity.
  - intros Hdry. unfold main. rewrite Hkey. cbn [negb].
    unfold bind at 1. rewrite Hres.
    unfold bind at 1, emit at 1. unfold bind at 1.
    cbn [List.length List.map fst app]. unfold name_t in *.
    rewrite Hclient.
    unfold process_location. run_m. run_m. unfold name_t in *.
    rewrite Hcall, Hdata, Hdry. simpl. now rewrite <- app_assoc.
  - intros Hdry.
    assert (Hmain : main w key a []
                    = (Raise AttributeError, tr' ++ [UtcNow])).
    { unfold main. rewrite Hkey. cbn [negb].
      unfold bind at 1. rewrite Hres.
      unfold bind at 1, emit at 1. unfold bind at 1.
      cbn [List.length List.map fst app]. unfold name_t in *.
    rewrite Hclient.
      unfold process_location, build_s3_key. run_m. run_m.
      unfold name_t in *. now rewrite Hcall, Hdata, Hdry. }
    split; [exact Hmain|]. split.
    + unfold run. now rewrite Hmain.
    + unfold puts. rewrite filter_app, length_app. simpl. lia.
Qed.
End Nameless.

(** ** The further properties on the inputs of the examples *)

Section FurtherExamples.
#[local] Existing Instance dec1_float.
#[local] Existing Instance caseless_unicode.

Lemma parse_locations_arg_trace_witness :
  contains 61 (str "c,,d") = false
  /\ parse_locations_arg (str "c,,d") []
     = (Ok [],
        [Log WARNING (SkippingInvalidToken (str "c"));
         Log WARNING (SkippingInvalidToken []);
         Log WARNING (SkippingInvalidToken (str "d"))])
  /\ List.length (split 44 (str "c,,d")) = count 44 (str "c,,d") + 1.
Proof.
  destruct (parse_locations_arg_trace (str "c,,d") []) as [Hrun Hall].
  destruct (Hall eq_refl) as [_ Hlen].
  split; [reflexivity|]. split; [exact Hrun | exact Hlen].
Defined.

Lemma load_locations_from_file_errors_witness :
  load_locations_from_file world_down (str "locations.json") []
  = (Raise OSError, [ReadJson (str "locations.json")])
  /\ load_locations_from_file (world_reading (JList [])) (str "l.json") []
     = (Raise AttributeError, [ReadJson (str "l.json")])
  /\ load_locations_from_file (world_reading short_entry_file)
       (str "s.json") []
     = (Raise IndexError, [ReadJson (str "s.json")]).
Proof.
  split; [|split].
  - now apply (proj1 (load_locations_from_file_errors world_down
                        (str "locations.json") [])).
  - now apply (proj1 (proj2 (load_locations_from_file_errors
                               (world_reading (JList [])) (str "l.json") []))
                 (JList [])).
  - apply (proj1 (proj2 (proj2 (load_locations_from_file_errors
                                  (world_reading short_entry_file)
                                  (str "s.json") [])))
             [(str "a", JList [JInt 1; JInt 2])]
             [(str "c", JList [JInt 5; JInt 6])]
             (str "b", JList [JInt 3])).
    + reflexivity.
    + repeat constructor. exists (str "a", (10%Z, 20%Z)).
      eexists _, _, _, _, _. repeat split; reflexivity.
    + reflexivity.
Defined.

Lemma load_locations_from_file_ignores_the_rest_witness :
  load_locations_from_file (world_reading altitude_file) (str "p.json") []
  = (Ok [(str "p", (10%Z, 20%Z))], [ReadJson (str "p.json")]).
Proof.
  apply (@load_locations_from_file_ignores_the_rest _
           (world_reading altitude_file) (str "p.json")
           [(str "p", JList [JInt 1; JInt 2; JInt 70])]
           [(str "p", (10%Z, 20%Z))] []).
  - reflexivity.
  - repeat constructor. simpl. intuition.
  - repeat constructor.
    eexists _, _, _, _, _. repeat split; reflexivity.
Defined.

Lemma call_current_weather_backoff_witness :
  exists evs : trace,
    snd (call_current_weather world_down 454%Z (-757)%Z (str "k") []) = evs
    /\ requests evs = 3 /\ sleep_total evs = 9 /\ warnings evs = 3.
Proof.
  destruct (call_current_weather_backoff world_down 454%Z (-757)%Z
              (str "k") [])
    as (evs & Htr & _ & Hsleep & Hwarn & Hthree).
  assert (Hreq : requests evs = 3) by (now apply (Hthree (RequestException 6))).
  exists evs. split; [exact Htr|]. split; [exact Hreq|].
  rewrite Hreq in Hsleep. split; [exact Hsleep | exact Hwarn].
Defined.

Lemma upload_json_to_s3_encoding_witness :
  exists data : json,
    data_to_store surrogate_sky (Some (str "ottawa")) 454%Z (-757)%Z
    = Ok data
    /\ In 55357%N (json_chars data)
    /\ encodable 55357 = false
    /\ upload_json_to_s3 (world_of surrogate_sky) (str "bucket") (str "key")
         data []
       = (Raise UnicodeEncodeError, [])
    /\ fst (process_location (world_of surrogate_sky) (str "k")
              (args_ottawa false) (Some (str "ottawa"), (454%Z, (-757)%Z)) [])
       = Ok tt.
Proof.
  set (data := JDict [(str "city", JStr (str "ottawa"));
                      (str "lat", @JFloat dec1_float 454%Z);
                      (str "lon", @JFloat dec1_float (-757)%Z);
                      (str "temp", @JFloat dec1_float 215%Z);
                      (str "humidity", JInt 60);
                      (str "wind_speed", @JFloat dec1_float 32%Z);
                      (str "description", JStr (str "rain" ++ [55357%N]));
                      (str "timestamp", JInt 1700000000)]).
  assert (Hin : In 55357%N (json_chars data)).
  { simpl. repeat (first [left; reflexivity | right]). }
  exists data. split; [reflexivity|].
  split; [exact Hin|]. split; [reflexivity|].
  split.
  - exact (proj1 (@upload_json_to_s3_encoding dec1_float caseless_unicode
                    (world_of surrogate_sky) dec1_repr_ascii (str "bucket")
                    (str "key") data [])
             55357%N Hin eq_refl).
  - erewrite (proj1 (proj2 (@upload_json_to_s3_encoding dec1_float
                              caseless_unicode (world_of surrogate_sky)
                              dec1_repr_ascii (str "bucket") (str "key")
                              data _))
                55357%N (str "k") (str "ottawa") (args_ottawa false));
      [reflexivity | exact Hin | reflexivity ..].
Defined.

Lemma process_location_raises_witness :
  fst (process_location world_partial (str "k") args_with_config
         (Some (str "a"), (10%Z, 20%Z)) [])
  = Raise (KeyError (Key (str "main")))
  /\ is_shape_error (KeyError (Key (str "main"))) = true.
Proof.
  assert (Hrun : fst (process_location world_partial (str "k")
                        args_with_config (Some (str "a"), (10%Z, 20%Z)) [])
                 = Raise (KeyError (Key (str "main"))))
    by reflexivity.
  split; [exact Hrun|].
  destruct (process_location_raises world_partial (str "k") args_with_config
              (Some (str "a")) 10%Z 20%Z [] (e := KeyError (Key (str "main"))))
    as [Hshape | (Hattr & _)].
  - intros tr0 e0 Hraise. simpl in Hraise. discriminate Hraise.
  - intros tr0 bucket key body e0 Hraise. discriminate Hraise.
  - exact Hrun.
  - exact Hshape.
  - discriminate Hattr.
Defined.

Lemma failed_fetch_is_skipped_witness :
  for_each [(Some (str "a"), (10%Z, 20%Z)); (Some (str "b"), (30%Z, 40%Z))]
    (process_location world_a_down (str "k") args_with_config_dry) []
  = for_each [(Some (str "b"), (30%Z, 40%Z))]
      (process_location world_a_down (str "k") args_with_config_dry)
      [Log INFO (Fetching (Some (str "a")) 10%Z 20%Z);
       HttpGet 10%Z 20%Z (str "k");
       Log WARNING (RequestFailed 1 3 (RequestException 0)); Sleep 3;
       HttpGet 10%Z 20%Z (str "k");
       Log WARNING (RequestFailed 2 3 (RequestException 1)); Sleep 6;
       HttpGet 10%Z 20%Z (str "k");
       Log WARNING (RequestFailed 3 3 (RequestException 2));
       Log ERROR (MaxRetriesReached 10%Z 20%Z);
       Log ERROR (FailedToFetch (Some (str "a")) (RequestException 2))].
Proof.
  exact (@failed_fetch_is_skipped dec1_float caseless_unicode world_a_down
           (str "k") args_with_config_dry (Some (str "a")) 10%Z 20%Z
           [(Some (str "b"), (30%Z, 40%Z))] []
           [Log INFO (Fetching (Some (str "a")) 10%Z 20%Z);
            HttpGet 10%Z 20%Z (str "k");
            Log WARNING (RequestFailed 1 3 (RequestException 0)); Sleep 3;
            HttpGet 10%Z 20%Z (str "k");
            Log WARNING (RequestFailed 2 3 (RequestException 1)); Sleep 6;
            HttpGet 10%Z 20%Z (str "k");
            Log WARNING (RequestFailed 3 3 (RequestException 2));
            Log ERROR (MaxRetriesReached 10%Z 20%Z)]
           (RequestException 2) eq_refl eq_refl).
Defined.

Lemma failed_upload_is_skipped_witness :
  exists tr : trace,
    for_each [(Some (str "a"), (10%Z, 20%Z));
              (Some (str "b"), (30%Z, 40%Z))]
      (process_location world_store_down (str "k") args_with_config) []
    = for_each [(Some (str "b"), (30%Z, 40%Z))]
        (process_location world_store_down (str "k") args_with_config) tr
    /\ last tr UtcNow = Log ERROR (FailedToUpload (Some (str "a")))
    /\ puts tr = 1.
Proof.
  eexists. split.
  - eapply (failed_upload_is_skipped world_store_down (str "k")
              args_with_config (str "a") 10%Z 20%Z
              [(Some (str "b"), (30%Z, 40%Z))] []
              (e := ClientError 7));
      reflexivity.
  - split; reflexivity.
Defined.

Lemma locations_in_order_witness :
  fst (main (world_of clear_sky) (Some (str "k")) args_with_config []) = Ok tt
  /\ fetch_log
       (snd (main (world_of clear_sky) (Some (str "k")) args_with_config []))
     = [(Some (str "a"), (10%Z, 20%Z)); (Some (str "b"), (30%Z, 40%Z))].
Proof.
  assert (Hok : fst (main (world_of clear_sky) (Some (str "k"))
                       args_with_config []) = Ok tt)
    by reflexivity.
  split; [exact Hok|].
  exact (proj2 (locations_in_order (world_of clear_sky) args_with_config
                  (Some (str "k"))) Hok).
Defined.

Lemma build_s3_key_normalises_witness :
  forallb is_ascii (str "New York") = true
  /\ lower (replace 32 95 (str "New York")) = str "new_york"
  /\ build_s3_key (world_of clear_sky) S3_RAW_PREFIX (Some (str "new_york"))
       []
     = build_s3_key (world_of clear_sky) S3_RAW_PREFIX
         (Some (str "New York")) [].
Proof.
  destruct (build_s3_key_normalises (world_of clear_sky) S3_RAW_PREFIX
              (str "New York") [] eq_refl)
    as (_ & _ & _ & Hsame).
  split; [reflexivity|]. split; [reflexivity | exact Hsame].
Defined.

Lemma build_s3_key_by_second_witness :
  List.length (strftime (utcnow world_ticking [])) = 19
  /\ ~ same_second (utcnow world_ticking []) (utcnow world_ticking [UtcNow])
  /\ fst (build_s3_key world_ticking S3_RAW_PREFIX (Some (str "ottawa")) [])
     <> fst (build_s3_key world_ticking S3_RAW_PREFIX (Some (str "ottawa"))
               [UtcNow]).
Proof.
  assert (Hv : forall tr, List.length tr <= 1 ->
                          valid_datetime (utcnow world_ticking tr)).
  { intros tr Htr. unfold valid_datetime. simpl. repeat split; lia. }
  destruct (build_s3_key_by_second world_ticking S3_RAW_PREFIX (str "ottawa")
              [] [UtcNow] (Hv [] ltac:(simpl; lia))
              (Hv [UtcNow] ltac:(simpl; lia)))
    as [Hlen Hiff].
  assert (Hdiff : ~ same_second (utcnow world_ticking [])
                      (utcnow world_ticking [UtcNow])).
  { intros (_ & _ & _ & _ & _ & Hs). discriminate Hs. }
  split; [exact Hlen|]. split; [exact Hdiff|].
  intros Heq. apply Hdiff. now apply Hiff.
Defined.

Lemma exit_status_is_zero_or_one_witness :
  fst (run world_down (Some (str "k")) args_with_config) = 0
  \/ fst (run world_down (Some (str "k")) args_with_config) = 1.
Proof.
  apply (exit_status_is_zero_or_one world_down args_with_config
           (Some (str "k"))).
  - intros tr0 lat lon k e0 Hraise. simpl in Hraise.
    injection Hraise as <-. reflexivity.
  - intros tr0 bucket k body e0 Hraise. simpl in Hraise.
    injection Hraise as <-. reflexivity.
  - intros tr0 path e0 Hraise. simpl in Hraise.
    injection Hraise as <-. reflexivity.
  - intros tr0 e0 Hraise. discriminate Hraise.
Defined.

Lemma nameless_location_witness :
  resolve_locations (world_of clear_sky) (args_empty_locations false) []
  = (Ok [(None, (10%Z, 20%Z))], [])
  /\ main (world_of clear_sky) (Some (str "k")) (args_empty_locations false)
       []
     = (Raise AttributeError,
        [Log INFO (FoundLocations 1 [None]); Boto3Client;
         Log INFO (Fetching None 10%Z 20%Z);
         HttpGet 10%Z 20%Z (str "k"); UtcNow])
  /\ fst (run (world_of clear_sky) (Some (str "k"))
            (args_empty_locations true)) = 0.
Proof.
  destruct (nameless_location (world_of clear_sky)
              (args_empty_locations false) (Some (str "k"))
              (lat := 10%Z) (lon := 20%Z)
              eq_refl eq_refl eq_refl eq_refl eq_refl eq_refl)
    as [Hres Hrun].
  split; [exact Hres|]. split; [|reflexivity].
  edestruct Hrun as (_ & _ & Hlive);
    [reflexivity | reflexivity | reflexivity |].
  destruct (Hlive eq_refl) as (Hmain & _ & _). exact Hmain.
Defined.


Lemma dry_run_size_and_upload_size_witness :
  exists (data : json) (body : list N),
    data_to_store cafe_sky (Some (str "ottawa")) 454%Z (-757)%Z = Ok data
    /\ utf8 (json_dumps false data) = Some body
    /\ utf8_decode body = Some (json_dumps false data)
    /\ In 233%N (json_dumps false data)
    /\ process_location (world_of cafe_sky) (str "k") (args_ottawa true)
         (Some (str "ottawa"), (454%Z, (-757)%Z)) []
       = (Ok tt,
          [Log INFO (Fetching (Some (str "ottawa")) 454%Z (-757)%Z);
           HttpGet 454%Z (-757)%Z (str "k");
           Log INFO (DryRunWouldUpload (Some (str "ottawa")) 147)])
    /\ List.length body <= 147.
Proof.
  set (data := JDict [(str "city", JStr (str "ottawa"));
                      (str "lat", @JFloat dec1_float 454%Z);
                      (str "lon", @JFloat dec1_float (-757)%Z);
                      (str "temp", @JFloat dec1_float 215%Z);
                      (str "humidity", JInt 60);
                      (str "wind_speed", @JFloat dec1_float 32%Z);
                      (str "description", JStr [99; 97; 102; 233]%N);
                      (str "timestamp", JInt 1700000000)]).
  assert (Henc : Forall (fun c => encodable c = true) (json_chars data)).
  { apply Forall_forall. intros c Hc.
    assert (Hall : forallb encodable (json_chars data) = true)
      by reflexivity.
    rewrite forallb_forall in Hall. now apply Hall. }
  destruct (@dry_run_size_and_upload_size dec1_float caseless_unicode
              (world_of cafe_sky) dec1_repr_ascii (str "k")
              (args_ottawa true) (Some (str "ottawa")) 454%Z (-757)%Z
              cafe_sky data [] _ eq_refl eq_refl Henc)
    as (body & Hbody & Hdecode & Hkept & _ & Hdry & _ & Hle & _).
  exists data, body. split; [reflexivity|]. split; [exact Hbody|].
  split; [exact Hdecode|]. split.
  - apply Hkept; [|unfold ascii_char; lia].
    simpl. repeat (first [left; reflexivity | right]).
  - split; [exact (Hdry eq_refl) | exact Hle].
Defined.
End FurtherExamples.
